(** * pyvospace: a shallow embedding of the VOSpace data model, the node
    persistence layer, the POSIX authorization policy and the NGAS stream
    readers, with the properties the specification states about them.

    Python values are modelled as the code uses them: [str] as [string],
    [int] as [Z], lists as [list], ordered dictionaries as association
    lists, tables as finite maps keyed by their uniqueness constraint.
    A raised exception is the [Raise] branch of [result]. *)

From Stdlib Require Import ZArith Lia Bool Ascii Sorted.
From Stdlib Require String.
From stdpp Require Import base option list strings gmap.

Set Warnings "-register-all".

(** String concatenation computes on a literal prefix. *)
#[local] Arguments String.append !s1 s2 : simpl nomatch.

Local Open Scope Z_scope.
Local Open Scope list_scope.

(** ** Exceptions and results *)

(** The exception classes the modelled code raises: the kinds of
    [pyvospace.core.exception], the Python built-ins, asyncpg's
    [DataError] and the stream reader's [IncompleteReadError]. *)
Inductive exn : Type :=
| InvalidArgument (msg : string)
| InvalidURI (msg : string)
| InvalidXML (msg : string)
| VOSpaceError (code : Z) (msg : string)
| NodeDoesNotExistError (msg : string)
| ContainerDoesNotExistError (msg : string)
| DuplicateNodeError (msg : string)
| PermissionDenied (msg : string)
| DataError
| NotImplementedError
| IndexError
| KeyError
| AttributeError
| TypeError
| ValueError (msg : string)
| AssertionError
| IncompleteReadError.

Inductive result (A : Type) : Type :=
| Ok (a : A)
| Raise (e : exn).
Arguments Ok {A} a.
Arguments Raise {A} e.

#[global] Instance result_bind : MBind result :=
  fun A B (k : A -> result B) (r : result A) =>
    match r with
    | Ok a => k a
    | Raise e => Raise e
    end.

#[global] Instance result_ret : MRet result := fun A a => Ok a.

(** [for x in xs: acc = f(acc, x)], stopping at the first exception. *)
Fixpoint foldM {A B : Type} (f : B -> A -> result B) (acc : B) (xs : list A)
  : result B :=
  match xs with
  | [] => Ok acc
  | x :: xs' => acc' ← f acc x; foldM f acc' xs'
  end.

Definition is_ok {A : Type} (r : result A) : bool :=
  match r with Ok _ => true | Raise _ => false end.

(** ** Python strings *)

Module PyStr.

Definition nonempty (s : string) : bool :=
  match s with EmptyString => false | String _ _ => true end.

(** [c in s] *)
Fixpoint contains (c : ascii) (s : string) : bool :=
  match s with
  | EmptyString => false
  | String a r => Ascii.eqb a c || contains c r
  end.

(** [s.split(c)]: never empty, [''.split(c) == ['']]. *)
Fixpoint split (c : ascii) (s : string) : list string :=
  match s with
  | EmptyString => [EmptyString]
  | String a r =>
      if Ascii.eqb a c then EmptyString :: split c r
      else match split c r with
           | h :: t => String a h :: t
           | [] => [String a EmptyString]
           end
  end.

(** [s.split(c, 1)] as the pair (before, after) when [c] occurs. *)
Fixpoint split1 (c : ascii) (s : string) : option (string * string) :=
  match s with
  | EmptyString => None
  | String a r =>
      if Ascii.eqb a c then Some (EmptyString, r)
      else match split1 c r with
           | Some (h, t) => Some (String a h, t)
           | None => None
           end
  end.

(** [list(filter(None, l))] on a list of strings. *)
Definition filter_nonempty (l : list string) : list string :=
  List.filter nonempty l.

(** [sep.join(l)] *)
Definition join (sep : string) (l : list string) : string :=
  String.concat sep l.

(** [s.lstrip(c)] and [s.rstrip(c)] for a one-character set. *)
Fixpoint lstrip (c : ascii) (s : string) : string :=
  match s with
  | EmptyString => EmptyString
  | String a r => if Ascii.eqb a c then lstrip c r else s
  end.

Fixpoint rstrip (c : ascii) (s : string) : string :=
  match s with
  | EmptyString => EmptyString
  | String a r =>
      let r' := rstrip c r in
      if Ascii.eqb a c && negb (nonempty r') then EmptyString
      else String a r'
  end.

(** [s.startswith(p)] *)
Definition startswith (p s : string) : bool := String.prefix p s.

(** [s[n:]] *)
Fixpoint drop (n : nat) (s : string) : string :=
  match n, s with
  | O, _ => s
  | S n', String _ r => drop n' r
  | S _, EmptyString => EmptyString
  end.

(** [all(ch == c for ch in s)] *)
Fixpoint all_char (c : ascii) (s : string) : bool :=
  match s with
  | EmptyString => true
  | String a r => Ascii.eqb a c && all_char c r
  end.

Definition lower_char (a : ascii) : ascii :=
  let n := nat_of_ascii a in
  if (Nat.leb 65 n && Nat.leb n 90)%bool then ascii_of_nat (n + 32) else a.

Fixpoint lower (s : string) : string :=
  match s with
  | EmptyString => EmptyString
  | String a r => String (lower_char a) (lower r)
  end.

Fixpoint forallb_char (p : ascii -> bool) (s : string) : bool :=
  match s with
  | EmptyString => true
  | String a r => p a && forallb_char p r
  end.

Definition is_digit (a : ascii) : bool :=
  let n := nat_of_ascii a in (Nat.leb 48 n && Nat.leb n 57)%bool.

Definition is_alpha (a : ascii) : bool :=
  let n := nat_of_ascii a in
  ((Nat.leb 65 n && Nat.leb n 90) || (Nat.leb 97 n && Nat.leb n 122))%bool.

(** The split of [s] at its last occurrence of [c]: [(s[:i+1], s[i+1:])]
    with [i = s.rfind(c)] (so the head keeps the separator, and is empty
    when [c] does not occur). *)
Fixpoint rsplit_keep (c : ascii) (s : string) : string * string :=
  match s with
  | EmptyString => (EmptyString, EmptyString)
  | String a r =>
      let '(h, t) := rsplit_keep c r in
      if nonempty h then (String a h, t)
      else if Ascii.eqb a c then (String a EmptyString, r)
      else (EmptyString, String a r)
  end.

End PyStr.

(** ** [urllib.parse.urlparse] and [os.path] (POSIX) *)

Module Url.

Record ParseResult : Type := mkParse {
  scheme : string; netloc : string; path : string;
  params : string; query : string; fragment : string }.

(** [scheme_chars]: letters, digits and [+-.]. *)
Definition scheme_char (a : ascii) : bool :=
  PyStr.is_alpha a || PyStr.is_digit a
  || Ascii.eqb a "+" || Ascii.eqb a "-" || Ascii.eqb a ".".

(** [_splitnetloc(url, 2)] once the leading [//] is removed: the netloc
    runs up to the first of [/?#]. *)
Fixpoint splitnetloc (s : string) : string * string :=
  match s with
  | EmptyString => (EmptyString, EmptyString)
  | String a r =>
      if Ascii.eqb a "/" || Ascii.eqb a "?" || Ascii.eqb a "#"
      then (EmptyString, s)
      else let '(n, u) := splitnetloc r in (String a n, u)
  end.

(** The scheme test of [urlsplit]: [url[:i]] consists of scheme characters
    and the rest is not a port number. *)
Definition split_scheme (url : string) : string * string :=
  match PyStr.split1 ":" url with
  | Some (pre, rest) =>
      if PyStr.nonempty pre then
        if String.eqb pre "http" then (PyStr.lower pre, rest)
        else if PyStr.forallb_char scheme_char pre then
          if negb (PyStr.nonempty rest)
             || negb (PyStr.forallb_char PyStr.is_digit rest)
          then (PyStr.lower pre, rest)
          else (EmptyString, url)
        else (EmptyString, url)
      else (EmptyString, url)
  | None => (EmptyString, url)
  end.

Definition urlsplit (url0 : string) : result ParseResult :=
  let '(sch, url) := split_scheme url0 in
  nl_url ←
    match url with
    | String "/" (String "/" r) =>
        let '(nl, u) := splitnetloc r in
        if (PyStr.contains "[" nl && negb (PyStr.contains "]" nl))
           || (PyStr.contains "]" nl && negb (PyStr.contains "[" nl))
        then Raise (ValueError "Invalid IPv6 URL")
        else Ok (nl, u)
    | _ => Ok (EmptyString, url)
    end;
  let '(nl, url) := nl_url in
  let '(url, frag) :=
    match PyStr.split1 "#" url with
    | Some (u, f) => (u, f)
    | None => (url, EmptyString)
    end in
  let '(url, qry) :=
    match PyStr.split1 "?" url with
    | Some (u, q) => (u, q)
    | None => (url, EmptyString)
    end in
  Ok (mkParse sch nl url EmptyString qry frag).

Definition uses_params : list string :=
  [""; "ftp"; "hdl"; "prospero"; "http"; "imap"; "https"; "shttp"; "rtsp";
   "rtspu"; "sip"; "sips"; "mms"; "sftp"; "tel"].

(** [_splitparams]: the parameters start at the first [;] of the last
    path segment. *)
Definition splitparams (url : string) : string * string :=
  let '(h, t) := PyStr.rsplit_keep "/" url in
  match PyStr.split1 ";" t with
  | Some (a, b) => (h +:+ a, b)
  | None => (url, EmptyString)
  end.

Definition urlparse (url : string) : result ParseResult :=
  r ← urlsplit url;
  if existsb (String.eqb (scheme r)) uses_params
     && PyStr.contains ";" (path r)
  then let '(u, p) := splitparams (path r) in
       Ok (mkParse (scheme r) (netloc r) u p (query r) (fragment r))
  else Ok r.

(** The body of the [for comp in comps] loop of [posixpath.normpath]. *)
Definition normpath_step (initial_slashes : nat) (new_comps : list string)
    (comp : string) : list string :=
  if String.eqb comp "" || String.eqb comp "." then new_comps
  else if negb (String.eqb comp "..")
          || (Nat.eqb initial_slashes 0 && Nat.eqb (length new_comps) 0)
          || match last new_comps with
             | Some l => String.eqb l ".."
             | None => false
             end
  then new_comps ++ [comp]
  else removelast new_comps.

Definition normpath (p : string) : string :=
  if negb (PyStr.nonempty p) then "."
  else
    let initial_slashes :=
      if PyStr.startswith "/" p then
        if PyStr.startswith "//" p && negb (PyStr.startswith "///" p)
        then 2%nat else 1%nat
      else 0%nat in
    let comps :=
      fold_left (normpath_step initial_slashes) (PyStr.split "/" p) [] in
    let joined := PyStr.join "/" comps in
    let out :=
      match initial_slashes with
      | O => joined
      | S O => "/" +:+ joined
      | _ => "//" +:+ joined
      end in
    if PyStr.nonempty out then out else ".".

(** [os.path.dirname] and [os.path.basename]. *)
Definition dirname (p : string) : string :=
  let head := fst (PyStr.rsplit_keep "/" p) in
  if PyStr.nonempty head && negb (PyStr.all_char "/" head)
  then PyStr.rstrip "/" head else head.

Definition basename (p : string) : string :=
  snd (PyStr.rsplit_keep "/" p).

End Url.

(** ** XML element trees (lxml.etree) *)

Module ET.

(** An element: its tag in Clark notation, its attributes in document
    order, its text and its children. *)
Inductive Element : Type :=
| Elem (tag : string) (attrib : list (string * string))
       (text : option string) (children : list Element).

Definition tag (e : Element) : string :=
  match e with Elem t _ _ _ => t end.
Definition attrib (e : Element) : list (string * string) :=
  match e with Elem _ a _ _ => a end.
Definition text (e : Element) : option string :=
  match e with Elem _ _ x _ => x end.
Definition children (e : Element) : list Element :=
  match e with Elem _ _ _ c => c end.

(** [attrib.get(k, None)] *)
Fixpoint get (k : string) (a : list (string * string)) : option string :=
  match a with
  | [] => None
  | (k', v) :: r => if String.eqb k' k then Some v else get k r
  end.

(** [element.set(k, v)] on the attribute list. *)
Fixpoint set (k v : string) (a : list (string * string))
  : list (string * string) :=
  match a with
  | [] => [(k, v)]
  | (k', v') :: r =>
      if String.eqb k' k then (k, v) :: r else (k', v') :: set k v r
  end.

Definition vos (l : string) : string :=
  "{http://www.ivoa.net/xml/VOSpace/v2.1}" +:+ l.
Definition uws (l : string) : string :=
  "{http://www.ivoa.net/xml/UWS/v1.0}" +:+ l.
Definition xsi (l : string) : string :=
  "{http://www.w3.org/2001/XMLSchema-instance}" +:+ l.

Definition has_tag (t : string) (e : Element) : bool := String.eqb (tag e) t.

(** The children of [e] named [t], in document order: the relative xpath
    [t] and [findall]. *)
Definition child_elems (t : string) (e : Element) : list Element :=
  List.filter (has_tag t) (children e).

(** [e.find(t)] *)
Definition find (t : string) (e : Element) : option Element :=
  head (child_elems t e).

Fixpoint xpath_from (steps : list string) (es : list Element)
  : list Element :=
  match steps with
  | [] => es
  | t :: rest => xpath_from rest (flat_map (child_elems t) es)
  end.

(** An absolute location path [/t0/t1/.../tn] evaluated in the document
    whose root element is [root]. *)
Definition xpath (root : Element) (steps : list string) : list Element :=
  match steps with
  | [] => []
  | t0 :: rest => if has_tag t0 root then xpath_from rest [root] else []
  end.

(** What [ET.fromstring(ET.tostring(e))] returns for a tree [e] built with
    [ET.Element]/[ET.SubElement]: the same tree, except that an element
    whose text is the empty string is written as an empty element and
    therefore parses back with text [None]. *)
Definition norm_text (x : option string) : option string :=
  match x with
  | Some s => if PyStr.nonempty s then Some s else None
  | None => None
  end.

Fixpoint reparse (e : Element) : Element :=
  match e with
  | Elem t a x c => Elem t a (norm_text x) (List.map reparse c)
  end.

(** A serialised document, modelled by the tree a parser reads from it. *)
Record xmlstr : Type := XmlStr { parsed : Element }.

Definition tostring (e : Element) : xmlstr := XmlStr (reparse e).
Definition fromstring (x : xmlstr) : Element := parsed x.

(** [element.set(k, v)], [ET.SubElement(parent, ...)] (the new child goes
    last) and the assignment to [element.text]. *)
Definition set_attr (k v : string) (e : Element) : Element :=
  match e with Elem t a x c => Elem t (set k v a) x c end.
Definition SubElement (parent child : Element) : Element :=
  match parent with Elem t a x c => Elem t a x (c ++ [child]) end.
Definition set_text (x : option string) (e : Element) : Element :=
  match e with Elem t a _ c => Elem t a x c end.
Definition Element_new (t : string) : Element := Elem t [] None [].

(** The checks lxml makes on the arguments of [element.set(k, v)]. A
    string must be XML compatible: no control character other than tab,
    line feed and carriage return. A name in Clark notation [{ns}local]
    is split at the closing brace ([_getNsTag]), and the local name must
    be an XML name (libxml2's [xmlValidateNameValue]) without a colon.
    Characters are code points below 256. *)
Definition xml_char (a : ascii) : bool :=
  let n := nat_of_ascii a in
  (Nat.leb 32 n || Nat.eqb n 9 || Nat.eqb n 10 || Nat.eqb n 13)%bool.

Definition xml_compatible (s : string) : bool := PyStr.forallb_char xml_char s.

Definition name_start_char (a : ascii) : bool :=
  let n := nat_of_ascii a in
  (PyStr.is_alpha a || Nat.eqb n 95 || Nat.eqb n 58
   || (Nat.leb 192 n && Nat.leb n 214) || (Nat.leb 216 n && Nat.leb n 246)
   || Nat.leb 248 n)%bool.

Definition name_char (a : ascii) : bool :=
  let n := nat_of_ascii a in
  (name_start_char a || PyStr.is_digit a || Nat.eqb n 45 || Nat.eqb n 46
   || Nat.eqb n 183)%bool.

Definition xmlValidateNameValue (s : string) : bool :=
  match s with
  | EmptyString => false
  | String a r => name_start_char a && PyStr.forallb_char name_char r
  end.

Definition _getNsTag (tag : string) : result (option string * string) :=
  match tag with
  | EmptyString => Raise (ValueError "Empty tag name")
  | String a r =>
      if Ascii.eqb a "{" then
        match PyStr.split1 "}" r with
        | None => Raise (ValueError "Invalid tag name")
        | Some (ns, local) =>
            if PyStr.nonempty local
            then Ok (if PyStr.nonempty ns then Some ns else None, local)
            else Raise (ValueError "Empty tag name")
        end
      else Ok (None, tag)
  end.

Definition not_XML_compatible : string :=
  "All strings must be XML compatible: Unicode or ASCII, no NULL bytes or control characters".

(** [element.set(k, v)] with these checks. The message for an invalid
    name is given without the name itself, which lxml appends to it. *)
Definition Element_set (k v : string) (e : Element) : result Element :=
  if negb (xml_compatible k)
  then Raise (ValueError not_XML_compatible)
  else
    '(ns, local) ← _getNsTag k;
    if negb (xmlValidateNameValue local && negb (PyStr.contains ":" local))
    then Raise (ValueError "Invalid attribute name")
    else if negb (xml_compatible v)
    then Raise (ValueError not_XML_compatible)
    else
      let key := match ns with
                 | Some ns => "{" +:+ ns +:+ "}" +:+ local
                 | None => local
                 end in
      Ok (set_attr key v e).

End ET.

(** ** The VOSpace data model (pyvospace/core/model.py) *)

Module Model.
Import ET.

(** The Python values that reach an untyped parameter of the model. *)
Inductive pyval : Type :=
| PyNone
| PyBool (b : bool)
| PyStr (s : string)
| PyEmptyList
| PyObject.

(** [bool(v)] *)
Definition truthy (v : pyval) : bool :=
  match v with
  | PyNone => false
  | PyBool b => b
  | PyStr s => PyStr.nonempty s
  | PyEmptyList => false
  | PyObject => true
  end.

(** [str(v)] for the values that have a fixed rendering. *)
Definition py_str (v : pyval) : string :=
  match v with
  | PyNone => "None"
  | PyBool true => "True"
  | PyBool false => "False"
  | PyStr s => s
  | PyEmptyList => "[]"
  | PyObject => "<object>"
  end.

Definition pyval_eqb (a b : pyval) : bool :=
  match a, b with
  | PyNone, PyNone => true
  | PyBool x, PyBool y => Bool.eqb x y
  | PyStr x, PyStr y => String.eqb x y
  | PyEmptyList, PyEmptyList => true
  | PyObject, PyObject => true
  | _, _ => false
  end.

Definition opt_str (o : option string) : pyval :=
  match o with Some s => PyStr s | None => PyNone end.

(** [v == 'literal'] for a value that is a string or [None]. *)
Definition is_str (v : option string) (s : string) : bool :=
  match v with Some x => String.eqb x s | None => false end.

Definition opt_string_eqb (a b : option string) : bool :=
  match a, b with
  | Some x, Some y => String.eqb x y
  | None, None => true
  | _, _ => false
  end.

(** [urlparse] applied to an arbitrary value: a falsy value that is not
    a string decodes to the empty URL, a truthy one has no [decode]. *)
Definition urlparse_val (v : pyval) : result Url.ParseResult :=
  match v with
  | PyStr s => Url.urlparse s
  | PyNone | PyBool false | PyEmptyList => Url.urlparse ""
  | PyBool true | PyObject => Raise AttributeError
  end.

Definition validate_property_uri (uri : pyval) : result Url.ParseResult :=
  if negb (truthy uri) then Raise (InvalidArgument "uri empty")
  else
    parsed ← urlparse_val uri;
    if negb (String.eqb (Url.scheme parsed) "ivo")
    then Raise (InvalidArgument "uri does not start with ivo")
    else if negb (PyStr.nonempty (Url.path parsed))
    then Raise (InvalidArgument "path empty")
    else if negb (PyStr.startswith "/vospace" (Url.path parsed))
    then Raise (InvalidArgument "path does not start with /vospace")
    else if negb (PyStr.nonempty (Url.fragment parsed))
    then Raise (InvalidArgument "fragment empty")
    else Ok parsed.

(** The [uri] setter shared by [Parameter], [Property], [Protocol] and
    [View]: the validated value is stored. *)
Definition set_uri (value : pyval) : result string :=
  validate_property_uri value;;
  match value with
  | PyStr s => Ok s
  | _ => Raise AttributeError
  end.

(** The class [Parameter] (a reserved word here, hence [TransferParam]). *)
Record TransferParam : Type := mkParameter {
  param_uri : string; param_value : option string }.

Definition Parameter_new (uri : pyval) (value : option string)
  : result TransferParam :=
  u ← set_uri uri; Ok (mkParameter u value).

(** The class [Property] and its subclass [DeleteProperty] ([Property]
    is a reserved word here, hence the name); a [DeleteProperty] is built
    by [Property.__init__(uri, None, False)]. *)
Inductive NodeProperty : Type :=
| Prop_ (uri : string) (value : option string) (read_only : pyval)
        (persist : bool)
| DeleteProp (uri : string).

Definition prop_uri (p : NodeProperty) : string :=
  match p with Prop_ u _ _ _ => u | DeleteProp u => u end.
Definition prop_value (p : NodeProperty) : option string :=
  match p with Prop_ _ v _ _ => v | DeleteProp _ => None end.
Definition prop_read_only (p : NodeProperty) : pyval :=
  match p with Prop_ _ _ r _ => r | DeleteProp _ => PyBool false end.
Definition prop_persist (p : NodeProperty) : bool :=
  match p with Prop_ _ _ _ b => b | DeleteProp _ => true end.
Definition is_DeleteProperty (p : NodeProperty) : bool :=
  match p with Prop_ _ _ _ _ => false | DeleteProp _ => true end.

(** [Property(uri, value, read_only)] with [persist] left at its default. *)
Definition Property_new (uri : pyval) (value : option string)
    (read_only : pyval) : result NodeProperty :=
  u ← set_uri uri; Ok (Prop_ u value read_only true).

Definition DeleteProperty_new (uri : pyval) : result NodeProperty :=
  u ← set_uri uri; Ok (DeleteProp u).

(** [Property.__eq__] *)
Definition Property_eq (a b : NodeProperty) : bool :=
  String.eqb (prop_uri a) (prop_uri b)
  && opt_string_eqb (prop_value a) (prop_value b)
  && pyval_eqb (prop_read_only a) (prop_read_only b).

Record View : Type := mkView { view_uri : string }.

Definition View_new (uri : pyval) : result View :=
  u ← set_uri uri; Ok (mkView u).

Record SecurityMethod : Type := mkSecurityMethod { security_url : string }.
Record Endpoint : Type := mkEndpoint { endpoint_url : string }.

Definition SecurityMethod_new (url : option string) : result SecurityMethod :=
  match url with
  | None => Raise (InvalidArgument "SecurityMethod URI is None.")
  | Some u => Ok (mkSecurityMethod u)
  end.

Definition Endpoint_new (url : option string) : result Endpoint :=
  match url with
  | None => Raise (InvalidArgument "Endpoint URI is None.")
  | Some u => Ok (mkEndpoint u)
  end.

(** *** Nodes *)

Record NodeBase : Type := mkBase {
  path : string;
  properties : list NodeProperty;
  owner : option string;
  group_read : list string;
  group_write : list string }.

Record DataFields : Type := mkData {
  accepts : list View; provides : list View; busy : bool }.

Inductive DataKind : Type :=
| KDataNode | KUnstructuredDataNode | KStructuredDataNode.

(** The class hierarchy as a closed variant: [Node] itself, [LinkNode],
    the three plain [DataNode] classes, and [ContainerNode] with its
    ordered dictionary of children keyed by name. *)
Inductive Node : Type :=
| BaseNode (b : NodeBase)
| LinkNode (b : NodeBase) (target : option string)
| DataNode (k : DataKind) (b : NodeBase) (d : DataFields)
| ContainerNode (b : NodeBase) (d : DataFields)
                (nodes : list (string * Node)).

Definition base (n : Node) : NodeBase :=
  match n with
  | BaseNode b | LinkNode b _ | DataNode _ b _ | ContainerNode b _ _ => b
  end.

Definition with_base (n : Node) (b : NodeBase) : Node :=
  match n with
  | BaseNode _ => BaseNode b
  | LinkNode _ t => LinkNode b t
  | DataNode k _ d => DataNode k b d
  | ContainerNode _ d c => ContainerNode b d c
  end.

Definition node_path (n : Node) : string := path (base n).
Definition node_properties (n : Node) : list NodeProperty :=
  properties (base n).

(** [self.name] and [self.dirname], computed from the path. *)
Definition name (n : Node) : string := Url.basename (node_path n).
Definition dirname (n : Node) : string := Url.dirname (node_path n).

Definition node_type_text (n : Node) : string :=
  match n with
  | BaseNode _ => "vos:Node"
  | LinkNode _ _ => "vos:LinkNode"
  | DataNode KDataNode _ _ => "vos:DataNode"
  | DataNode KUnstructuredDataNode _ _ => "vos:UnstructuredDataNode"
  | DataNode KStructuredDataNode _ _ => "vos:StructuredDataNode"
  | ContainerNode _ _ _ => "vos:ContainerNode"
  end.

(** [NodeType] *)
Definition node_type (n : Node) : Z :=
  match n with
  | BaseNode _ => 0
  | DataNode KDataNode _ _ => 1
  | DataNode KUnstructuredDataNode _ _ => 2
  | DataNode KStructuredDataNode _ _ => 3
  | ContainerNode _ _ _ => 4
  | LinkNode _ _ => 5
  end.

Definition is_ContainerNode (n : Node) : bool :=
  match n with ContainerNode _ _ _ => true | _ => false end.

Definition uri_to_path (uri : option string) : result string :=
  uri_parsed ← urlparse_val (opt_str uri);
  if negb (PyStr.nonempty (Url.path uri_parsed))
  then Raise (InvalidURI "URI does not exist.")
  else Ok (PyStr.rstrip "/" (PyStr.lstrip "/"
             (Url.normpath (Url.path uri_parsed)))).

(** The constructors with every optional argument left at its default. *)
Definition new_base (uri : option string) : result NodeBase :=
  p ← uri_to_path uri; Ok (mkBase p [] None [] []).

Definition Node_new (uri : option string) : result Node :=
  b ← new_base uri; Ok (BaseNode b).
Definition LinkNode_new (uri : option string) (uri_target : option string)
  : result Node :=
  b ← new_base uri; Ok (LinkNode b uri_target).
Definition DataNode_new (k : DataKind) (uri : option string) (busy : bool)
  : result Node :=
  b ← new_base uri; Ok (DataNode k b (mkData [] [] busy)).
Definition ContainerNode_new (uri : option string) (busy : bool)
  : result Node :=
  b ← new_base uri; Ok (ContainerNode b (mkData [] [] busy) []).

Definition create_node (node_uri node_type : option string)
    (node_busy : bool) : result Node :=
  if is_str node_type "vos:Node" then Node_new node_uri
  else if is_str node_type "vos:DataNode"
  then DataNode_new KDataNode node_uri node_busy
  else if is_str node_type "vos:UnstructuredDataNode"
  then DataNode_new KUnstructuredDataNode node_uri node_busy
  else if is_str node_type "vos:StructuredDataNode"
  then DataNode_new KStructuredDataNode node_uri node_busy
  else if is_str node_type "vos:ContainerNode"
  then ContainerNode_new node_uri node_busy
  else if is_str node_type "vos:LinkNode" then LinkNode_new node_uri None
  else Raise (InvalidURI "Unknown node type.").

(** [list.sort(key=lambda x: x.uri)]: the stable sort by URI. *)
Fixpoint insert_by_uri (p : NodeProperty) (l : list NodeProperty)
  : list NodeProperty :=
  match l with
  | [] => [p]
  | q :: r =>
      if String.leb (prop_uri p) (prop_uri q) then p :: q :: r
      else q :: insert_by_uri p r
  end.

Definition sort_properties (l : list NodeProperty) : list NodeProperty :=
  fold_right insert_by_uri [] l.

Definition to_uri (n : Node) : string :=
  "vos://icrar.org!vospace/" +:+ node_path n.

(** *** Serialisation *)

Definition property_element (prop : NodeProperty) : Element :=
  let e := Element_new (vos "property") in
  let e := set_attr "uri" (prop_uri prop) e in
  let e := set_attr "readOnly" (PyStr.lower (py_str (prop_read_only prop))) e in
  let e := set_text (prop_value prop) e in
  if is_DeleteProperty prop then set_attr (xsi "nil") "true" e else e.

(** [Node.toxml] *)
Definition toxml (n : Node) : Element :=
  let root := Element_new (vos "node") in
  let root := set_attr (xsi "type") (node_type_text n) root in
  let root := set_attr "uri" (to_uri n) root in
  match node_properties n with
  | [] => root
  | ps =>
      SubElement root
        (Elem (vos "properties") [] None (List.map property_element ps))
  end.

Definition view_element (v : View) : Element :=
  set_attr "uri" (view_uri v) (Element_new (vos "view")).

Definition views_element (t : string) (vs : list View) (root : Element)
  : Element :=
  match vs with
  | [] => root
  | _ => SubElement root (Elem (vos t) [] None (List.map view_element vs))
  end.

Definition child_reference (c : Node) : Element :=
  let e := Element_new (vos "node") in
  let e := set_attr "uri" (to_uri c) e in
  set_attr (xsi "type") (node_type_text c) e.

(** [tostring], as each class defines or inherits it. *)
Definition tostring (n : Node) : ET.xmlstr :=
  match n with
  | BaseNode _ => ET.tostring (toxml n)
  | LinkNode _ target =>
      ET.tostring
        (SubElement (toxml n) (set_text target (Element_new (vos "target"))))
  | DataNode _ _ d =>
      let root := toxml n in
      let root := set_attr "busy" (PyStr.lower (py_str (PyBool (busy d)))) root in
      let root := views_element "accepts" (accepts d) root in
      let root := views_element "provides" (provides d) root in
      ET.tostring root
  | ContainerNode _ _ nodes =>
      ET.tostring
        (SubElement (toxml n)
           (Elem (vos "nodes") [] None
              (List.map (fun kv => child_reference (snd kv)) nodes)))
  end.

(** *** Ordered dictionaries of child nodes *)

Fixpoint odict_get {A : Type} (k : string) (d : list (string * A))
  : option A :=
  match d with
  | [] => None
  | (k', v) :: r => if String.eqb k' k then Some v else odict_get k r
  end.

(** [d[k] = v]: an existing key keeps its position, a new key goes last. *)
Fixpoint odict_set {A : Type} (k : string) (v : A) (d : list (string * A))
  : list (string * A) :=
  match d with
  | [] => [(k, v)]
  | (k', v') :: r =>
      if String.eqb k' k then (k, v) :: r else (k', v') :: odict_set k v r
  end.

Definition check_path (self child : Node) : result unit :=
  if negb (String.eqb (node_path self) (dirname child))
  then Raise (InvalidArgument
                (node_path self +:+ " is not a parent of " +:+ node_path child))
  else Ok tt.

(** [ContainerNode.add_node]; the stored value is a copy of [node]. *)
Definition add_node (self node : Node) (overwrite : bool) : result Node :=
  match self with
  | ContainerNode b d nodes =>
      check_path self node;;
      (if negb overwrite then
         match odict_get (name node) nodes with
         | Some _ =>
             Raise (InvalidArgument ("duplicate node " +:+ node_path node))
         | None => Ok tt
         end
       else Ok tt);;
      Ok (ContainerNode b d (odict_set (name node) node nodes))
  | _ => Raise AttributeError
  end.

(** [ContainerNode._insert_node_into_tree]: the result is the state of
    [parent_node] after the call (the method mutates it in place and
    returns [None]). *)
Fixpoint _insert_node_into_tree (parent_node : Node)
    (path_split : list string) (node_to_insert : Node) (overwrite : bool)
  : result Node :=
  match path_split with
  | [] => Ok parent_node
  | name :: path_split =>
      match parent_node with
      | ContainerNode b d nodes =>
          match odict_get name nodes with
          | Some node =>
              if is_ContainerNode node && negb (Nat.eqb (length path_split) 0)
              then
                node' ← _insert_node_into_tree node path_split
                          node_to_insert overwrite;
                Ok (ContainerNode b d (odict_set name node' nodes))
              else if overwrite then
                parent' ← add_node parent_node node_to_insert true;
                match path_split with
                | [] => Ok parent'
                | _ :: _ => Raise AssertionError
                end
              else
                Raise (InvalidArgument
                         ("duplicate node " +:+ node_path node_to_insert))
          | None =>
              match path_split with
              | [] => add_node parent_node node_to_insert true
              | _ :: _ =>
                  Raise (InvalidArgument
                           ("no path to " +:+ node_path node_to_insert))
              end
          end
      | _ => Raise AttributeError
      end
  end.

Definition insert_node_into_tree (self node : Node) (overwrite : bool)
  : result Node :=
  if negb (PyStr.startswith (node_path self) (node_path node))
  then Raise (InvalidArgument "Invalid node path.")
  else if String.eqb (node_path node) (node_path self)
  then Raise (InvalidArgument "Can not insert over root node.")
  else
    let node_path :=
      PyStr.drop (String.length (node_path self)) (node_path node) in
    let path_split := PyStr.filter_nonempty (PyStr.split "/" node_path) in
    _insert_node_into_tree self path_split node overwrite.

(** *** Parsing *)

Definition parse_busy (root : Element) : bool :=
  match get "busy" (attrib root) with
  | Some s => String.eqb s "true"
  | None => false
  end.

(** The body of the loop of [Node.build_node] for one [vos:property]. *)
Definition parse_property (node_property : Element) : result NodeProperty :=
  match get "uri" (attrib node_property) with
  | None => Raise (InvalidXML "vos:property URI does not exist.")
  | Some prop_uri =>
      let delete_prop := get (xsi "nil") (attrib node_property) in
      let prop_ro :=
        match get "readOnly" (attrib node_property) with
        | None => PyNone
        | Some s =>
            if PyStr.nonempty s then PyBool (String.eqb s "true")
            else PyStr s
        end in
      let prop_text := text node_property in
      match delete_prop with
      | None => Property_new (PyStr prop_uri) prop_text prop_ro
      | Some _ => DeleteProperty_new (PyStr prop_uri)
      end
  end.

Definition append_parsed {A : Type} (parse : Element -> result A)
    (acc : list A) (e : Element) : result (list A) :=
  x ← parse e; Ok (acc ++ [x]).

(** [Node.build_node] *)
Definition Node_build_node (b : NodeBase) (root : Element)
  : result NodeBase :=
  props ← foldM (append_parsed parse_property) (properties b)
            (xpath root [vos "node"; vos "properties"; vos "property"]);
  Ok (mkBase (path b) (sort_properties props) (owner b)
             (group_read b) (group_write b)).

Definition parse_view (msg : string) (view : Element) : result View :=
  match get "uri" (attrib view) with
  | None => Raise (InvalidXML msg)
  | Some view_uri => View_new (PyStr view_uri)
  end.

(** [DataNode.build_node] *)
Definition DataNode_build_node (b : NodeBase) (d : DataFields)
    (root : Element) : result (NodeBase * DataFields) :=
  b' ← Node_build_node b root;
  acc ← foldM (append_parsed (parse_view "Accepts URI does not exist."))
          (accepts d) (xpath root [vos "node"; vos "accepts"; vos "view"]);
  prov ← foldM (append_parsed (parse_view "Provides URI does not exist."))
           (provides d) (xpath root [vos "node"; vos "provides"; vos "view"]);
  Ok (b', mkData acc prov (busy d)).

(** The body of the loop of [ContainerNode.build_node] for one child
    reference; the busy flag is read from the root element. *)
Definition parse_child (root : Element) (self : Node) (nodes : Element)
  : result Node :=
  let node_uri := get "uri" (attrib nodes) in
  let node_type := get (xsi "type") (attrib nodes) in
  let node_busy := parse_busy root in
  node ← create_node node_uri node_type node_busy;
  add_node self node true.

(** [build_node], as each class defines it. *)
Definition build_node (n : Node) (root : Element) : result Node :=
  match n with
  | BaseNode b => b' ← Node_build_node b root; Ok (BaseNode b')
  | LinkNode b _ =>
      b' ← Node_build_node b root;
      match find (vos "target") root with
      | None => Raise (InvalidXML "vos:target target does not exist.")
      | Some target => Ok (LinkNode b' (text target))
      end
  | DataNode k b d =>
      bd ← DataNode_build_node b d root;
      Ok (DataNode k (fst bd) (snd bd))
  | ContainerNode b d nodes =>
      bd ← DataNode_build_node b d root;
      foldM (parse_child root) (ContainerNode (fst bd) (snd bd) nodes)
        (xpath root [vos "node"; vos "nodes"; vos "node"])
  end.

(** [Node.fromstring] *)
Definition fromstring (xml : ET.xmlstr) : result Node :=
  let root := ET.fromstring xml in
  let node_uri := get "uri" (attrib root) in
  let node_type := get (xsi "type") (attrib root) in
  let node_busy := parse_busy root in
  node ← create_node node_uri node_type node_busy;
  build_node node root.

(** [l1 == l2] on lists, element by element. *)
Fixpoint list_eqb {A : Type} (eqb : A -> A -> bool) (l1 l2 : list A) : bool :=
  match l1, l2 with
  | [], [] => true
  | x :: r1, y :: r2 => eqb x y && list_eqb eqb r1 r2
  | _, _ => false
  end.

(** [d1 == d2] on ordered dictionaries: the same keys in the same order,
    with equal values. *)
Definition odict_eqb {A : Type} (eqb : A -> A -> bool)
    (d1 d2 : list (string * A)) : bool :=
  list_eqb (fun kv1 kv2 => String.eqb (fst kv1) (fst kv2)
                           && eqb (snd kv1) (snd kv2)) d1 d2.

(** [Node.__eq__], the comparison of the base class: path, type tag and
    property lists. *)
Definition Node___eq__ (self other : Node) : bool :=
  String.eqb (node_path self) (node_path other)
  && String.eqb (node_type_text self) (node_type_text other)
  && list_eqb Property_eq (node_properties self) (node_properties other).

(** [isinstance(n, DataNode)] *)
Definition is_DataNode (n : Node) : bool :=
  match n with
  | DataNode _ _ _ | ContainerNode _ _ _ => true
  | _ => false
  end.

Definition DataKind_eqb (k1 k2 : DataKind) : bool :=
  match k1, k2 with
  | KDataNode, KDataNode
  | KUnstructuredDataNode, KUnstructuredDataNode
  | KStructuredDataNode, KStructuredDataNode => true
  | _, _ => false
  end.

(** [self == other], by the [__eq__] of the class of [self]: each class
    checks the class of [other] and calls its parent's [__eq__];
    [LinkNode] also compares the targets and [ContainerNode] the
    dictionaries of children, whose values are compared by [==] in turn.
    A container is never compared with the children of a [DataNode] that
    has none: their type tags differ, and the comparison stops there.
    When the class of [other] is a proper subclass of the class of [self]
    Python asks [other] first; the answer is [False] either way, again by
    the type tags. *)
Fixpoint Node_eq (self other : Node) {struct self} : bool :=
  match self with
  | BaseNode _ => Node___eq__ self other
  | LinkNode _ target =>
      match other with
      | LinkNode _ target' =>
          Node___eq__ self other && opt_string_eqb target target'
      | _ => false
      end
  | DataNode KDataNode _ _ => is_DataNode other && Node___eq__ self other
  | DataNode k _ _ =>
      match other with
      | DataNode k' _ _ => DataKind_eqb k k' && Node___eq__ self other
      | _ => false
      end
  | ContainerNode _ _ nodes =>
      is_DataNode other && Node___eq__ self other
      && match other with
         | ContainerNode _ _ nodes' => odict_eqb Node_eq nodes nodes'
         | _ => false
         end
  end.

(** *** Protocols *)

Inductive ProtocolClass : Type :=
| CProtocol | CHTTPPut | CHTTPGet | CHTTPSPut | CHTTPSGet.

Record Protocol : Type := mkProtocol {
  protocol_class : ProtocolClass;
  protocol_uri : string;
  endpoint : option Endpoint;
  security_method : option SecurityMethod }.

(** A positional argument of [Protocol.__init__], which checks the class
    of what it is given only in the two setters. *)
Inductive arg : Type :=
| ANone
| AStr (s : string)
| AEndpoint (e : Endpoint)
| ASecurityMethod (m : SecurityMethod).

Definition arg_val (a : arg) : pyval :=
  match a with
  | ANone => PyNone
  | AStr s => PyStr s
  | AEndpoint _ | ASecurityMethod _ => PyObject
  end.

(** The [endpoint] and [security_method] setters. *)
Definition set_endpoint (value : arg) : result (option Endpoint) :=
  if truthy (arg_val value) then
    match value with
    | AEndpoint e => Ok (Some e)
    | _ => Raise (InvalidArgument "invalid Endpoint")
    end
  else Ok None.

Definition set_security_method (value : arg)
  : result (option SecurityMethod) :=
  if truthy (arg_val value) then
    match value with
    | ASecurityMethod m => Ok (Some m)
    | _ => Raise (InvalidArgument "invalid SecurityMethod")
    end
  else Ok None.

(** [Protocol.__init__(self, uri, endpoint, security_method)], run for an
    instance of class [c]. *)
Definition Protocol_init (c : ProtocolClass)
    (uri endpoint security_method : arg) : result Protocol :=
  u ← set_uri (arg_val uri);
  e ← set_endpoint endpoint;
  m ← set_security_method security_method;
  Ok (mkProtocol c u e m).

Definition Protocol_new := Protocol_init CProtocol.
Definition HTTPPut (endpoint security_method : arg) : result Protocol :=
  Protocol_init CHTTPPut (AStr "ivo://ivoa.net/vospace/core#httpput")
    endpoint security_method.
Definition HTTPGet (endpoint security_method : arg) : result Protocol :=
  Protocol_init CHTTPGet (AStr "ivo://ivoa.net/vospace/core#httpget")
    endpoint security_method.
Definition HTTPSPut (endpoint security_method : arg) : result Protocol :=
  Protocol_init CHTTPSPut (AStr "ivo://ivoa.net/vospace/core#httpsput")
    endpoint security_method.
Definition HTTPSGet (endpoint security_method : arg) : result Protocol :=
  Protocol_init CHTTPSGet (AStr "ivo://ivoa.net/vospace/core#httpsget")
    endpoint security_method.

Definition opt_arg {A : Type} (f : A -> arg) (o : option A) : arg :=
  match o with Some x => f x | None => ANone end.

(** [Protocol.create_protocol] *)
Definition create_protocol (uri : string) (security_method_uri : option string)
  : result Protocol :=
  security_obj ←
    match security_method_uri with
    | Some u => if PyStr.nonempty u
                then m ← SecurityMethod_new (Some u); Ok (ASecurityMethod m)
                else Ok ANone
    | None => Ok ANone
    end;
  if String.eqb uri "ivo://ivoa.net/vospace/core#httpput"
  then HTTPPut ANone security_obj
  else if String.eqb uri "ivo://ivoa.net/vospace/core#httpget"
  then HTTPGet ANone security_obj
  else if String.eqb uri "ivo://ivoa.net/vospace/core#httpsput"
  then HTTPSPut ANone security_obj
  else if String.eqb uri "ivo://ivoa.net/vospace/core#httpsget"
  then HTTPSGet ANone security_obj
  else Protocol_new (AStr uri) ANone security_obj.

(** *** Transfers *)

Record ProtocolFields : Type := mkProtocolFields {
  protocols : list Protocol;
  view : option View;
  parameters : list TransferParam }.

(** The concrete transfer classes: the two [ProtocolTransfer]s and the
    two [NodeTransfer]s, whose [direction] is a second node. *)
Inductive Transfer : Type :=
| PushToSpace (target : Node) (f : ProtocolFields)
| PullFromSpace (target : Node) (f : ProtocolFields) (redirect : bool)
| Copy (target direction : Node)
| Move (target direction : Node).

Definition transfer_target (t : Transfer) : Node :=
  match t with
  | PushToSpace n _ | PullFromSpace n _ _ | Copy n _ | Move n _ => n
  end.

(** [str(self.direction)] *)
Definition direction_str (t : Transfer) : string :=
  match t with
  | PushToSpace _ _ => "pushToVoSpace"
  | PullFromSpace _ _ _ => "pullFromVoSpace"
  | Copy _ d | Move _ d => node_path d
  end.

Definition keep_bytes (t : Transfer) : option bool :=
  match t with
  | Copy _ _ => Some true
  | Move _ _ => Some false
  | _ => None
  end.

Definition no_fields : ProtocolFields := mkProtocolFields [] None [].

(** [Transfer.create_transfer] *)
Definition create_transfer (target direction : option string)
    (keep_bytes : pyval) : result Transfer :=
  if is_str direction "pushToVoSpace" then
    n ← Node_new target; Ok (PushToSpace n no_fields)
  else if is_str direction "pullFromVoSpace" then
    n ← Node_new target; Ok (PullFromSpace n no_fields true)
  else if is_str direction "pushFromVoSpace" then Raise NotImplementedError
  else if is_str direction "pullToVoSpace" then Raise NotImplementedError
  else if truthy keep_bytes then
    n ← Node_new target; d ← Node_new direction; Ok (Copy n d)
  else
    n ← Node_new target; d ← Node_new direction; Ok (Move n d).

(** The body of the protocol loop of [ProtocolTransfer.build_node]. *)
Definition parse_protocol (protocol : Element) : result Protocol :=
  let protocol_uri := get "uri" (attrib protocol) in
  security_obj ←
    match child_elems (vos "securityMethod") protocol with
    | [] => Ok ANone
    | security_elem :: _ =>
        match get "uri" (attrib security_elem) with
        | None => Raise (InvalidXML "vos:securityMethod URI does not exist.")
        | Some security_uri =>
            m ← SecurityMethod_new (Some security_uri);
            Ok (ASecurityMethod m)
        end
    end;
  endpoint ←
    match child_elems (vos "endpoint") protocol with
    | [] => Ok ANone
    | endpoint_elem :: _ =>
        e ← Endpoint_new (text endpoint_elem); Ok (AEndpoint e)
    end;
  if is_str protocol_uri "ivo://ivoa.net/vospace/core#httpput"
  then HTTPPut endpoint security_obj
  else if is_str protocol_uri "ivo://ivoa.net/vospace/core#httpget"
  then HTTPGet endpoint security_obj
  else if is_str protocol_uri "ivo://ivoa.net/vospace/core#httpsput"
  then HTTPSPut endpoint security_obj
  else if is_str protocol_uri "ivo://ivoa.net/vospace/core#httpsget"
  then HTTPSGet endpoint security_obj
  else Protocol_new endpoint security_obj ANone.

Definition parse_param (param : Element) : result TransferParam :=
  Parameter_new (opt_str (get "uri" (attrib param))) (text param).

(** [ProtocolTransfer.build_node] on the fields of the transfer. *)
Definition ProtocolTransfer_build_node (f : ProtocolFields) (root : Element)
  : result ProtocolFields :=
  v ← match xpath root [vos "transfer"; vos "view"] with
      | [] => Ok (view f)
      | view_elem :: _ =>
          w ← View_new (opt_str (get "uri" (attrib view_elem))); Ok (Some w)
      end;
  ps ← foldM (append_parsed parse_protocol) (protocols f)
         (xpath root [vos "transfer"; vos "protocol"]);
  qs ← foldM (append_parsed parse_param) (parameters f)
         (xpath root [vos "transfer"; vos "param"]);
  Ok (mkProtocolFields ps v qs).

Definition Transfer_build_node (t : Transfer) (root : Element)
  : result Transfer :=
  match t with
  | PushToSpace n f =>
      f' ← ProtocolTransfer_build_node f root; Ok (PushToSpace n f')
  | PullFromSpace n f r =>
      f' ← ProtocolTransfer_build_node f root; Ok (PullFromSpace n f' r)
  | Copy _ _ | Move _ _ => Ok t
  end.

(** [Transfer.fromroot] *)
Definition fromroot (root : Element) : result Transfer :=
  match xpath root [vos "transfer"; vos "target"] with
  | [] => Raise (InvalidXML "vos:target not found")
  | target :: _ =>
      match xpath root [vos "transfer"; vos "direction"] with
      | [] => Raise (InvalidXML "vos:direction not found")
      | direction :: _ =>
          keep_bytes ←
            match xpath root [vos "transfer"; vos "keepBytes"] with
            | [] => Ok PyEmptyList
            | kb :: _ =>
                if is_str (text kb) "false" then Ok (PyBool false)
                else if is_str (text kb) "true" then Ok (PyBool true)
                else Raise (InvalidXML "keepBytes invalid")
            end;
          node ← create_transfer (text target) (text direction) keep_bytes;
          Transfer_build_node node root
      end
  end.

Definition Transfer_fromstring (xml : ET.xmlstr) : result Transfer :=
  fromroot (ET.fromstring xml).

(** [Transfer.toxml] *)
Definition Transfer_toxml (t : Transfer) : Element :=
  let root := Element_new (vos "transfer") in
  let root :=
    SubElement root
      (set_text (Some (node_path (transfer_target t)))
         (Element_new (vos "target"))) in
  SubElement root
    (set_text (Some (direction_str t)) (Element_new (vos "direction"))).

(** [tomap]: empty for the node transfers, the negotiation map for the
    protocol transfers. *)
Definition ProtocolTransfer_tomap (t : Transfer) (f : ProtocolFields)
  : result (gmap string string) :=
  first ← match protocols f with
          | [] => Raise IndexError
          | p :: _ => Ok p
          end;
  let params : gmap string string :=
    <["PROTOCOL" := protocol_uri first]>
      (<["DIRECTION" := direction_str t]>
         (<["TARGET" := node_path (transfer_target t)]> ∅)) in
  let params :=
    match view f with
    | Some v => <["VIEW" := view_uri v]> params
    | None => params
    end in
  let params :=
    match t with
    | PullFromSpace _ _ true => <["REQUEST" := "redirect"]> params
    | _ => params
    end in
  Ok params.

Definition tomap (t : Transfer) : result (gmap string string) :=
  match t with
  | PushToSpace _ f | PullFromSpace _ f _ => ProtocolTransfer_tomap t f
  | Copy _ _ | Move _ _ => Ok ∅
  end.

(** *** UWS jobs *)

Definition UWSPhaseLookup (phase : Z) : result string :=
  match phase with
  | 0 => Ok "PENDING"
  | 1 => Ok "QUEUED"
  | 2 => Ok "EXECUTING"
  | 3 => Ok "COMPLETED"
  | 4 => Ok "ERROR"
  | 5 => Ok "ABORTED"
  | 6 => Ok "UNKNOWN"
  | 7 => Ok "HELD"
  | 8 => Ok "SUSPENDED"
  | 9 => Ok "ARCHIVED"
  | _ => Raise KeyError
  end.

Record UWSResult : Type := mkUWSResult {
  result_id : string; attrs : list (string * string) }.

(** [UWSResult.toxml(self, root)]: the id and the attributes are whatever
    strings the caller gave, so each [set] is the checked one. *)
Definition UWSResult_toxml (self : UWSResult) (root : Element)
  : result Element :=
  let result_elem := Element_new (uws "result") in
  result_elem ← Element_set "id" (result_id self) result_elem;
  result_elem ← foldM (fun r kv => Element_set (fst kv) (snd kv) r)
                  result_elem (attrs self);
  Ok (SubElement root result_elem).

Record UWSJob : Type := mkUWSJob {
  job_id : string;
  phase : Z;
  destruction : string;
  job_info : option Transfer;
  results : option (list UWSResult);
  error : option string }.

(** [UWSJob.__init__]; the [results] setter keeps [None] for an empty or
    absent list. *)
Definition UWSJob_new (job_id : string) (phase : Z) (destruction : string)
    (job_info : option Transfer) (results : list UWSResult)
    (error : option string) : UWSJob :=
  mkUWSJob job_id phase destruction job_info
    (match results with [] => None | _ => Some results end) error.

Definition nil_element (t : string) : Element :=
  set_attr (xsi "nil") "true" (Element_new t).

Definition text_element (t : string) (x : option string) : Element :=
  set_text x (Element_new t).

(** [UWSJob.toxml]. In the results branch the loop variable ranges over
    the freshly created [uws:results] element, that is over its children,
    and calls [toxml] on each of them. *)
Definition UWSJob_toxml (self : UWSJob) : result Element :=
  let root := Element_new (uws "job") in
  let root := SubElement root (text_element (uws "jobId") (Some (job_id self))) in
  let root := SubElement root (nil_element (uws "ownerId")) in
  phase_text ← UWSPhaseLookup (phase self);
  let root := SubElement root (text_element (uws "phase") (Some phase_text)) in
  let root := SubElement root (text_element (uws "quote") None) in
  let root := SubElement root (nil_element (uws "startTime")) in
  let root := SubElement root (nil_element (uws "endTime")) in
  let root :=
    SubElement root (text_element (uws "executionDuration") (Some "0")) in
  let root :=
    SubElement root
      (text_element (uws "destruction") (Some (destruction self))) in
  let root :=
    match job_info self with
    | Some t =>
        SubElement root
          (SubElement (Element_new (uws "jobInfo")) (Transfer_toxml t))
    | None => root
    end in
  root ←
    match results self with
    | Some (_ :: _) =>
        let results := Element_new (uws "results") in
        results' ← foldM (fun (acc : Element) (result : Element) =>
                            Raise AttributeError)
                     results (children results);
        Ok (SubElement root results')
    | _ => Ok root
    end;
  let root :=
    match error self with
    | Some e =>
        if PyStr.nonempty e then
          SubElement root
            (SubElement (Element_new (uws "errorSummary"))
               (text_element (uws "message") (Some e)))
        else root
    | None => root
    end in
  Ok root.

Definition UWSJob_tostring (self : UWSJob) : result ET.xmlstr :=
  root ← UWSJob_toxml self; Ok (ET.tostring root).

(** [UWSJob.results_tostring] *)
Definition results_tostring (self : UWSJob) : result (option ET.xmlstr) :=
  match results self with
  | Some (r :: rs) =>
      results_elem ← foldM (fun elem r => UWSResult_toxml r elem)
                       (Element_new (uws "results")) (r :: rs);
      Ok (Some (ET.tostring results_elem))
  | _ => Ok None
  end.

(** *** Further operations of the model *)

Definition set_base_properties (b : NodeBase) (ps : list NodeProperty)
  : NodeBase :=
  mkBase (path b) ps (owner b) (group_read b) (group_write b).

(** [Node.set_properties(property_list, sort)]; [None] is the absent list. *)
Definition set_properties (n : Node)
    (property_list : option (list NodeProperty)) (sort : bool) : Node :=
  match property_list with
  | None | Some [] => n
  | Some l =>
      with_base n
        (set_base_properties (base n) (if sort then sort_properties l else l))
  end.

(** [Node.add_property(value, sort)] *)
Definition add_property (n : Node) (value : NodeProperty) (sort : bool)
  : Node :=
  let ps := node_properties n ++ [value] in
  with_base n
    (set_base_properties (base n) (if sort then sort_properties ps else ps)).

(** [Node.remove_properties] *)
Definition remove_properties (n : Node) : Node :=
  with_base n (set_base_properties (base n) []).

(** [Node.walk]: the nodes the generator yields, in order. *)
Fixpoint walk (node : Node) : list Node :=
  node ::
  match node with
  | ContainerNode _ _ nodes =>
      (fix over (l : list (string * Node)) : list Node :=
         match l with
         | [] => []
         | (_, i) :: r =>
             (if is_ContainerNode i then walk i else [i]) ++ over r
         end) nodes
  | _ => []
  end.




(** The [nodes] setter of [ContainerNode]: an empty list leaves the
    children as they are, any other list replaces them. *)
Definition nodes_setter (self : Node) (value : list Node) : result Node :=
  match value with
  | [] => Ok self
  | _ :: _ =>
      match self with
      | ContainerNode b d _ =>
          foldM (fun s node => add_node s node true) (ContainerNode b d [])
            value
      | _ => Raise AttributeError
      end
  end.

(** [del attrib[k]] *)
Fixpoint del_attr (k : string) (a : list (string * string))
  : list (string * string) :=
  match a with
  | [] => []
  | (k', v) :: r => if String.eqb k' k then r else (k', v) :: del_attr k r
  end.

(** [UWSResult.fromroot] and [UWSResult.fromstring] *)
Definition parse_result (result_elem : Element) : result UWSResult :=
  match get "id" (attrib result_elem) with
  | Some id =>
      if PyStr.nonempty id
      then Ok (mkUWSResult id (del_attr "id" (attrib result_elem)))
      else Raise (InvalidXML "id is empty")
  | None => Raise (InvalidXML "id is empty")
  end.

Definition UWSResult_fromroot (root : Element) : result (list UWSResult) :=
  foldM (append_parsed parse_result) []
    (xpath root [uws "results"; uws "result"]).

Definition UWSResult_fromstring (xml : ET.xmlstr) : result (list UWSResult) :=
  UWSResult_fromroot (ET.fromstring xml).

End Model.

(** ** The node persistence layer (pyvospace/server/database.py) *)

Module Database.
Import Model.

(** A row of the [nodes] table. *)
Record NodeRow : Type := mkNodeRow {
  row_type : Z;
  row_name : string;
  row_path : string;
  row_owner : option string;
  row_space_id : Z;
  row_link : option string;
  row_busy : bool;
  row_groupread : list string;
  row_groupwrite : list string }.

(** A row of the [properties] table under its key
    [(uri, node_path, space_id)]; [None] is SQL's NULL. *)
Record PropRow : Type := mkPropRow {
  prop_row_value : option string;
  prop_row_read_only : option bool }.

Definition PropKey : Type := string * string * Z.

(** The state of the database: the [nodes] table in heap order and the
    [properties] table under its uniqueness constraint. *)
Record DB : Type := mkDB {
  nodes : list NodeRow;
  properties : gmap PropKey PropRow }.

(** [NodeDatabase.path_to_ltree] *)
Definition path_to_ltree (path : string) : result string :=
  match PyStr.filter_nonempty (PyStr.split "/" path) with
  | [] => Raise (InvalidURI "Path is empty")
  | path_array => Ok (PyStr.join "." path_array)
  end.

(** The order of the [ltree] type: label by label, a prefix first. *)
Fixpoint labels_leb (a b : list string) : bool :=
  match a, b with
  | [], _ => true
  | _ :: _, [] => false
  | x :: a', y :: b' =>
      match String.compare x y with
      | Lt => true
      | Gt => false
      | Eq => labels_leb a' b'
      end
  end.

Definition ltree_labels (p : string) : list string :=
  PyStr.filter_nonempty (PyStr.split "." p).

Definition ltree_leb (p q : string) : bool :=
  labels_leb (ltree_labels p) (ltree_labels q).

(** [order by path asc] over the selected rows. *)
Fixpoint insert_by_path (r : NodeRow) (l : list NodeRow) : list NodeRow :=
  match l with
  | [] => [r]
  | q :: l' =>
      if ltree_leb (row_path r) (row_path q) then r :: q :: l'
      else q :: insert_by_path r l'
  end.

Definition order_by_path (l : list NodeRow) : list NodeRow :=
  fold_right insert_by_path [] l.

(** The [where] clause of the locking read of [_get_node_and_parent],
    [path=$1 or path=$2 and space_id=$3]: [and] binds tighter than [or]. *)
Definition node_or_parent_where (path_tree path_parent_tree : string)
    (space_id : Z) (r : NodeRow) : bool :=
  String.eqb (row_path r) path_tree
  || (String.eqb (row_path r) path_parent_tree
      && Z.eqb (row_space_id r) space_id).

(** [NodeDatabase._get_node_and_parent] *)
Definition _get_node_and_parent (space_id : Z) (path : string) (conn : DB)
  : result (option NodeRow * option NodeRow) :=
  match PyStr.filter_nonempty (PyStr.split "/" path) with
  | [] => Raise (VOSpaceError 400 "Invalid URI. Path is empty")
  | path_list =>
      let path_parent := removelast path_list in
      let path_parent_tree := PyStr.join "." path_parent in
      let path_tree := PyStr.join "." path_list in
      let result :=
        order_by_path
          (List.filter
             (node_or_parent_where path_tree path_parent_tree space_id)
             (nodes conn)) in
      match result with
      | [r0] =>
          if PyStr.nonempty path_parent_tree then
            if String.eqb (row_path r0) path_parent_tree
            then Ok (Some r0, None)
            else Raise AssertionError
          else Ok (None, Some r0)
      | [r0; r1] => Ok (Some r0, Some r1)
      | _ => Ok (None, None)
      end
  end.

(** [NodeDatabase._create_node] *)
Fixpoint replace_char (a b : ascii) (s : string) : string :=
  match s with
  | EmptyString => EmptyString
  | String c r =>
      String (if Ascii.eqb c a then b else c) (replace_char a b r)
  end.

Definition _create_node (node_row : NodeRow) : result Node :=
  let path := Some (replace_char "." "/" (row_path node_row)) in
  match row_type node_row with
  | 0 => Node_new path
  | 1 => DataNode_new KDataNode path (row_busy node_row)
  | 3 => DataNode_new KStructuredDataNode path (row_busy node_row)
  | 2 => DataNode_new KUnstructuredDataNode path (row_busy node_row)
  | 4 => ContainerNode_new path (row_busy node_row)
  | 5 => LinkNode_new path (row_link node_row)
  | _ => Raise (VOSpaceError 500 "Unknown type")
  end.

Definition set_owner_groups (n : Node) (r : NodeRow) : Node :=
  with_base n
    (mkBase (path (base n)) (Model.properties (base n)) (row_owner r)
            (row_groupread r) (row_groupwrite r)).

(** [NodeDatabase._resultset_to_node([row], [])], the one shape in which
    [insert] calls it. *)
Definition _resultset_to_node (root_node_row : option NodeRow)
  : result (option Node) :=
  match root_node_row with
  | None => Ok None
  | Some r => n ← _create_node r; Ok (Some (set_owner_groups n r))
  end.

(** The context a permission hook is called with. *)
Inductive Context : Type :=
| CreateNodeCtx (parent : option Node) (node : Node)
| SetNodeCtx (node : Node).

(** The conversion of a property's [read_only] to the boolean column:
    the driver rejects a value that is neither a boolean nor [None] with
    its [DataError]. *)
Definition sql_bool (v : pyval) : result (option bool) :=
  match v with
  | PyBool b => Ok (Some b)
  | PyNone => Ok None
  | _ => Raise DataError
  end.

(** SQL's [a != b]: unknown, hence not true, when either side is NULL. *)
Definition sql_neq (a b : option string) : bool :=
  match a, b with
  | Some x, Some y => negb (String.eqb x y)
  | _, _ => false
  end.

(** [read_only=False] as a condition of a [where] clause. *)
Definition not_read_only (r : PropRow) : bool :=
  match prop_row_read_only r with
  | Some false => true
  | _ => false
  end.

(** One execution of [INSERT ... on conflict (uri, node_path, space_id) do
    update set value=$2 where properties.read_only=False and
    properties.value!=$2]. *)
Definition upsert_property (node_path : string) (space_id : Z)
    (t : gmap PropKey PropRow) (row : string * option string * option bool)
  : gmap PropKey PropRow :=
  let '(uri, value, read_only) := row in
  let k : PropKey := (uri, node_path, space_id) in
  match t !! k with
  | None => <[k := mkPropRow value read_only]> t
  | Some old =>
      if not_read_only old && sql_neq (prop_row_value old) value
      then <[k := mkPropRow value (prop_row_read_only old)]> t
      else t
  end.

(** [DELETE FROM properties WHERE uri=any($1) AND node_path=$2 and
    space_id=$3 and read_only=False], one URI of the array at a time. *)
Definition delete_property (node_path : string) (space_id : Z)
    (t : gmap PropKey PropRow) (uri : string) : gmap PropKey PropRow :=
  let k : PropKey := (uri, node_path, space_id) in
  match t !! k with
  | Some old => if not_read_only old then delete k t else t
  | None => t
  end.

(** The rows [update_properties] builds from the supplied properties that
    are not delete markers, and the URIs of those that are. *)
Fixpoint props_insert (ps : list NodeProperty)
  : result (list (string * option string * option bool)) :=
  match ps with
  | [] => Ok []
  | p :: r =>
      if is_DeleteProperty p then props_insert r
      else ro ← sql_bool (prop_read_only p);
           rest ← props_insert r;
           Ok ((prop_uri p, prop_value p, ro) :: rest)
  end.

Definition props_delete (ps : list NodeProperty) : list string :=
  List.map prop_uri (List.filter is_DeleteProperty ps).

(** Modelled from the spec: [Node.properties_tolist], which [insert]
    calls and model.py does not define; the property-rows export emits a
    [(uri, value, read_only)] tuple for every stored property. *)
Fixpoint properties_tolist (ps : list NodeProperty)
  : result (list (string * option string * option bool)) :=
  match ps with
  | [] => Ok []
  | p :: r =>
      ro ← sql_bool (prop_read_only p);
      rest ← properties_tolist r;
      Ok ((prop_uri p, prop_value p, ro) :: rest)
  end.

(** One execution of the plain [INSERT INTO properties]; a violation of
    the uniqueness constraint reaches [insert]'s handler, which raises
    [DuplicateNodeError]. *)
Definition insert_property (node_name node_path : string) (space_id : Z)
    (t : gmap PropKey PropRow) (row : string * option string * option bool)
  : result (gmap PropKey PropRow) :=
  let '(uri, value, read_only) := row in
  let k : PropKey := (uri, node_path, space_id) in
  match t !! k with
  | Some _ => Raise (DuplicateNodeError (node_name +:+ " already exists."))
  | None => Ok (<[k := mkPropRow value read_only]> t)
  end.

Section WithApp.
(** [self.space_id] and [self.app.permits]. *)
Variable space_id : Z.
Variable permits : option string -> string -> Context -> result bool.

Definition node_where (path_tree : string) (type : Z) (r : NodeRow)
  : bool :=
  String.eqb (row_path r) path_tree && Z.eqb (row_type r) type
  && Z.eqb (row_space_id r) space_id.

(** [NodeDatabase.update_properties]: the database after the call. *)
Definition update_properties (node : Node) (conn : DB)
    (identity : option string) : result DB :=
  node_path_tree ← path_to_ltree (node_path node);
  match List.filter (node_where node_path_tree (node_type node))
          (nodes conn) with
  | [] => Raise (NodeDoesNotExistError (node_path node +:+ " not found."))
  | results :: _ =>
      let node := set_owner_groups node results in
      allowed ← permits identity "setNode" (SetNodeCtx node);
      if negb allowed then Raise (PermissionDenied "setNode denied.")
      else
        node_props_insert ← props_insert (node_properties node);
        let node_props_delete := props_delete (node_properties node) in
        let t := fold_left (upsert_property node_path_tree space_id)
                   node_props_insert (properties conn) in
        let t := fold_left (delete_property node_path_tree space_id)
                   node_props_delete t in
        Ok (mkDB (nodes conn) t)
  end.

(** The uniqueness constraint of [nodes] on [(path, space_id)]. *)
Definition node_exists (path_tree : string) (conn : DB) : bool :=
  existsb (fun r => String.eqb (row_path r) path_tree
                    && Z.eqb (row_space_id r) space_id) (nodes conn).

(** [NodeDatabase.insert]: the returned pair of rows and the database
    after the call. The columns the statement does not name ([busy] and
    the two group arrays) take their defaults. *)
Definition insert (node : Node) (conn : DB) (identity : option string)
  : result (option NodeRow * option NodeRow * DB) :=
  target ←
    match node with
    | LinkNode _ None =>
        Raise (VOSpaceError 400
                 ("Type Not Supported. " +:+ node_type_text node
                  +:+ " does not have a target."))
    | LinkNode _ (Some t) => Ok (Some t)
    | _ => Ok None
    end;
  match PyStr.filter_nonempty (PyStr.split "/" (node_path node)) with
  | [] => Raise (InvalidURI "Path is empty")
  | path =>
      let path_parent := removelast path in
      let node_name := List.last path EmptyString in
      let path_tree := PyStr.join "." path in
      rows ← _get_node_and_parent space_id (node_path node) conn;
      let '(parent_row, child_row) := rows in
      (match parent_row, path_parent with
       | None, _ :: _ =>
           Raise (ContainerDoesNotExistError
                    (PyStr.join "/" path_parent +:+ " not found."))
       | _, _ => Ok tt
       end);;
      (match parent_row with
       | Some r =>
           if Z.eqb (row_type r) 5
           then Raise (VOSpaceError 400
                         ("Link Found. " +:+ row_name r +:+ " found in path."))
           else if negb (Z.eqb (row_type r) 4)
           then Raise (ContainerDoesNotExistError
                         (row_name r +:+ " is not a container."))
           else Ok tt
       | None => Ok tt
       end);;
      parent_node ← _resultset_to_node parent_row;
      allowed ← permits identity "createNode"
                  (CreateNodeCtx parent_node node);
      if negb allowed then Raise (PermissionDenied "createNode denied.")
      else if node_exists path_tree conn
      then Raise (DuplicateNodeError (node_name +:+ " already exists."))
      else
        props ← properties_tolist (node_properties node);
        let row := mkNodeRow (node_type node) node_name path_tree
                     identity space_id target false [] [] in
        t ← foldM (insert_property node_name path_tree space_id)
              (properties conn) props;
        Ok (parent_row, child_row, mkDB (nodes conn ++ [row]) t)
  end.

End WithApp.

End Database.

(** ** The POSIX authorization policy (server/spaces/posix/auth.py) *)

Module Auth.
Import Model.

Definition PROTECTED_URI : list string :=
  ["ivo://ivoa.net/vospace/core#creator";
   "ivo://ivoa.net/vospace/core#type";
   "ivo://ivoa.net/vospace/core#format";
   "ivo://ivoa.net/vospace/core#identifier";
   "ivo://ivoa.net/vospace/core#source";
   "ivo://ivoa.net/vospace/core#language";
   "ivo://ivoa.net/vospace/core#relation";
   "ivo://ivoa.net/vospace/core#coverage";
   "ivo://ivoa.net/vospace/core#rights";
   "ivo://ivoa.net/vospace/core#availableSpace";
   "ivo://ivoa.net/vospace/core#groupread";
   "ivo://ivoa.net/vospace/core#groupwrite";
   "ivo://ivoa.net/vospace/core#publicread";
   "ivo://ivoa.net/vospace/core#quota";
   "ivo://ivoa.net/vospace/core#length";
   "ivo://ivoa.net/vospace/core#mtime";
   "ivo://ivoa.net/vospace/core#ctime";
   "ivo://ivoa.net/vospace/core#btime"].

(** A row of the [users] table. *)
Record UserRow : Type := mkUser {
  username : string;
  space_name : string;
  password : string;
  admin : bool;
  groupread : list string;
  groupwrite : list string }.

(** [node.properties.values()]: the nodes a context carries are model.py's,
    whose [properties] is the node's list of properties, and a list has no
    attribute [values]. *)
Definition values {A : Type} (l : list A) : result (list A) :=
  Raise AttributeError.

(** The job a [dataTransfer], [runJob] or [abortJob] context carries:
    its owner, its transfer's target and whether the transfer is a
    [PushToSpace]. *)
Record CtxJob : Type := mkCtxJob {
  job_owner : option string;
  transfer_is_PushToSpace : bool;
  transfer_target : Node }.

(** The [context] argument of [permits]. *)
Inductive Context : Type :=
| CtxNone
| CtxOne (node : Node)
| CtxPair (first : option Node) (second : Node)
| CtxOfJob (job : CtxJob).

Definition in_list (x : string) (l : list string) : bool :=
  existsb (String.eqb x) l.

(** [_any_value_in_lists(a, b)]: [any(i in a for i in b)] *)
Definition _any_value_in_lists (a b : list string) : bool :=
  existsb (fun i => in_list i a) b.

(** [_any_property_in_protected(a)] *)
Definition _any_property_in_protected (a : list NodeProperty) : bool :=
  existsb (fun i => in_list (prop_uri i) PROTECTED_URI) a.

(** [a == b] on an owner column and an identity. *)
Definition owner_eqb (a b : option string) : bool := opt_string_eqb a b.

Section Policy.
(** [self.space_name] and the [users] table behind [self.db_pool]. *)
Variable space_name : string.
Variable users : list UserRow.

(** [select * from users where username=$1 and space_name=$2]; an
    absent identity compares equal to no row. *)
Definition fetch_user (identity : option string) : option UserRow :=
  match identity with
  | None => None
  | Some i =>
      List.find (fun u => String.eqb (username u) i
                          && String.eqb (Auth.space_name u) space_name)
        users
  end.

(** [DBUserNodeAuthorizationPolicy.permits]. For an identity without a
    user row the code builds [web.HTTPForbidden] with the message as a
    positional argument; the constructor takes keyword arguments only, so
    the call itself raises [TypeError]. The [getNode] branch also stats
    the node's file and adds the results to the node's properties; its
    decision is [True]. *)
Definition permits (identity : option string) (permission : string)
    (context : Context) : result bool :=
  match fetch_user identity with
  | None => Raise TypeError
  | Some user =>
      if String.eqb permission "createNode" then
        match context with
        | CtxPair parent node =>
            vs ← values (node_properties node);
            let modify_properties := _any_property_in_protected vs in
            if modify_properties then Ok false
            else
              match parent with
              | None => Raise AttributeError
              | Some parent =>
                  if String.eqb (node_path parent) "/" && admin user
                  then Ok true
                  else if owner_eqb (owner (base parent)) identity
                  then Ok true
                  else Ok (_any_value_in_lists (group_write (base parent))
                             (groupwrite user))
              end
        | _ => Raise TypeError
        end
      else if String.eqb permission "setNode" then
        match context with
        | CtxOne node =>
            vs ← values (node_properties node);
            let modify_properties := _any_property_in_protected vs in
            if modify_properties then Ok false
            else if owner_eqb (owner (base node)) identity then Ok true
            else Ok (_any_value_in_lists (group_write (base node))
                       (groupwrite user))
        | _ => Raise AttributeError
        end
      else if String.eqb permission "getNode" then
        match context with
        | CtxOne node => Ok true
        | _ => Raise AttributeError
        end
      else if String.eqb permission "moveNode"
              || String.eqb permission "copyNode" then
        match context with
        | CtxPair (Some src) dest =>
            if String.eqb (node_path dest) "/" && admin user then Ok true
            else if owner_eqb (owner (base src)) identity
                    && owner_eqb (owner (base dest)) identity then Ok true
            else if _any_value_in_lists (group_write (base src))
                      (groupwrite user)
                    && _any_value_in_lists (group_write (base dest))
                         (groupwrite user)
            then Ok true
            else Ok false
        | CtxPair None dest =>
            if String.eqb (node_path dest) "/" && admin user then Ok true
            else Raise AttributeError
        | _ => Raise TypeError
        end
      else if String.eqb permission "createTransfer" then Ok true
      else if String.eqb permission "deleteNode" then
        match context with
        | CtxOne node =>
            if owner_eqb (owner (base node)) identity then Ok true
            else Ok (_any_value_in_lists (group_write (base node))
                       (groupwrite user))
        | _ => Raise AttributeError
        end
      else if String.eqb permission "dataTransfer" then
        match context with
        | CtxOfJob job =>
            let target := base (transfer_target job) in
            if owner_eqb (owner target) identity then Ok true
            else if transfer_is_PushToSpace job
            then Ok (_any_value_in_lists (group_write target)
                       (groupwrite user))
            else Ok (_any_value_in_lists (group_read target)
                       (groupread user)
                     || _any_value_in_lists (group_write target)
                          (groupwrite user))
        | _ => Raise AttributeError
        end
      else if String.eqb permission "runJob"
              || String.eqb permission "abortJob" then
        match context with
        | CtxOfJob job =>
            if owner_eqb (job_owner job) identity then Ok true
            else Ok false
        | _ => Raise AttributeError
        end
      else Ok false
  end.

End Policy.

End Auth.

(** ** The NGAS stream readers (server/spaces/ngas/utils.py) *)

Module Ngas.

(** [io.DEFAULT_BUFFER_SIZE] *)
Definition DEFAULT_BUFFER_SIZE : Z := 8192.

(** A [ControlledReader]: [_content] is the sequence of bytes the wrapped
    stream has yet to deliver. *)
Record ControlledReader : Type := mkReader {
  _content : list Byte.byte;
  _content_length : Z;
  _bytes_read : Z }.

Definition ControlledReader_new (content : list Byte.byte)
    (content_length : Z) : ControlledReader :=
  mkReader content content_length 0.

(** [StreamReader.readexactly(n)]: exactly [n] bytes, or
    [IncompleteReadError] when the stream ends before. *)
Definition readexactly (n : Z) (content : list Byte.byte)
  : result (list Byte.byte * list Byte.byte) :=
  if Z.of_nat (length content) <? n then Raise IncompleteReadError
  else Ok (firstn (Z.to_nat n) content, skipn (Z.to_nat n) content).

(** What one call of [__anext__] does. *)
Inductive Next : Type :=
| Yield (buffer : list Byte.byte) (self : ControlledReader)
| StopAsyncIteration
| Failed (e : exn).

(** [ControlledReader.__anext__] *)
Definition __anext__ (self : ControlledReader) : Next :=
  let bytes_to_read :=
    Z.min DEFAULT_BUFFER_SIZE (_content_length self - _bytes_read self) in
  if bytes_to_read <=? 0 then StopAsyncIteration
  else
    match readexactly bytes_to_read (_content self) with
    | Raise e => Failed e
    | Ok (buffer, rest) =>
        Yield buffer
          (mkReader rest (_content_length self)
             (_bytes_read self + bytes_to_read))
    end.

(** [async for chunk in reader]: the chunks produced and the reader left
    when the iteration ends, or the exception that ended it. [None] when
    the fuel runs out before the iteration ends. *)
Fixpoint iterate (fuel : nat) (self : ControlledReader)
  : option (result (list (list Byte.byte) * ControlledReader)) :=
  match fuel with
  | O => None
  | S fuel' =>
      match __anext__ self with
      | StopAsyncIteration => Some (Ok ([], self))
      | Failed e => Some (Raise e)
      | Yield buffer self' =>
          match iterate fuel' self' with
          | Some (Ok (chunks, final)) => Some (Ok (buffer :: chunks, final))
          | other => other
          end
      end
  end.

(** A [CountedReader]: [_content] is the sequence of chunks the wrapped
    stream's [iter_chunked] has yet to deliver, [_iter] whether [__aiter__]
    has created that iterator. *)
Module Counted.

Record CountedReader : Type := mkCounted {
  _content : list (list Byte.byte);
  _size : Z;
  _iter : bool }.

Definition CountedReader_new (content : list (list Byte.byte))
  : CountedReader :=
  mkCounted content 0 false.

Definition __aiter__ (self : CountedReader) : CountedReader :=
  mkCounted (_content self) (_size self) true.

Inductive Next : Type :=
| Yield (buffer : list Byte.byte) (self : CountedReader)
| StopAsyncIteration
| Failed (e : exn).

(** [CountedReader.__anext__] *)
Definition __anext__ (self : CountedReader) : Next :=
  if negb (_iter self) then Failed AttributeError
  else
    match _content self with
    | [] => StopAsyncIteration
    | buffer :: rest =>
        Yield buffer
          (mkCounted rest (_size self + Z.of_nat (length buffer)) true)
    end.

(** [async for chunk in reader]: [__aiter__], then [__anext__] until it
    stops. [None] when the fuel runs out before the iteration ends. *)
Fixpoint next_all (fuel : nat) (self : CountedReader)
  : option (result (list (list Byte.byte) * CountedReader)) :=
  match fuel with
  | O => None
  | S fuel' =>
      match __anext__ self with
      | StopAsyncIteration => Some (Ok ([], self))
      | Failed e => Some (Raise e)
      | Yield buffer self' =>
          match next_all fuel' self' with
          | Some (Ok (chunks, final)) => Some (Ok (buffer :: chunks, final))
          | other => other
          end
      end
  end.

Definition iterate (fuel : nat) (self : CountedReader)
  : option (result (list (list Byte.byte) * CountedReader)) :=
  next_all fuel (__aiter__ self).

End Counted.

End Ngas.

(** * Properties *)

(** ** Strings, URLs and paths *)

Module StrFacts.

Example split_abc : PyStr.split "/" "/a/b/c/" = [""; "a"; "b"; "c"; ""].
Proof. reflexivity. Qed.

Example normpath_dots : Url.normpath "/a/./b/../c//d/" = "/a/c/d".
Proof. reflexivity. Qed.

Example normpath_root : Url.normpath "/" = "/".
Proof. reflexivity. Qed.

Example dirname_ab : Url.dirname "a/b/c" = "a/b" /\ Url.basename "a/b/c" = "c"
/\ Url.dirname "c" = "" /\ Url.basename "c" = "c".
Proof. repeat split; reflexivity. Qed.

Example urlparse_vos :
Url.urlparse "vos://icrar.org!vospace/a/b?x#y"
= Ok (Url.mkParse "vos" "icrar.org!vospace" "/a/b" "" "x" "y").
Proof. reflexivity. Qed.

(** *** Splitting and joining on a separator *)

Lemma append_nil_r (s : string) : s +:+ "" = s.
Proof. induction s as [|a s IH]; [done | simpl; by rewrite IH]. Qed.

Lemma append_assoc (a b c : string) : (a +:+ b) +:+ c = a +:+ b +:+ c.
Proof. induction a as [|x a IH]; [done | simpl; by rewrite IH]. Qed.

Lemma append_same_l (a b : string) : a +:+ b = a -> b = "".
Proof. induction a as [|x a IH]; simpl; [done | intros H; inversion H; auto]. Qed.

Lemma contains_app (c : ascii) (a b : string) :
  PyStr.contains c (a +:+ b) = PyStr.contains c a || PyStr.contains c b.
Proof.
  induction a as [|x a IH]; cbn; [done|]. rewrite IH. by rewrite orb_assoc.
Qed.

Lemma split_without (c : ascii) (s : string) :
  PyStr.contains c s = false -> PyStr.split c s = [s].
Proof.
  induction s as [|a s IH]; cbn; [done|]. intros H.
  apply orb_false_elim in H as [Ha Hs]. rewrite Ha, (IH Hs). done.
Qed.

Lemma split_app (c : ascii) (a b : string) :
  PyStr.contains c a = false ->
  PyStr.split c (a +:+ String c b) = a :: PyStr.split c b.
Proof.
  induction a as [|x a IH]; cbn.
  - intros _. by rewrite Ascii.eqb_refl.
  - intros H. apply orb_false_elim in H as [Hx Ha]. rewrite Hx, (IH Ha). done.
Qed.

Lemma split1_without (c : ascii) (s : string) :
  PyStr.contains c s = false -> PyStr.split1 c s = None.
Proof.
  induction s as [|a s IH]; cbn; [done|]. intros H.
  apply orb_false_elim in H as [Ha Hs]. rewrite Ha, (IH Hs). done.
Qed.

Lemma rsplit_keep_without (c : ascii) (s : string) :
  PyStr.contains c s = false -> PyStr.rsplit_keep c s = ("", s).
Proof.
  induction s as [|a s IH]; cbn; [done|]. intros H.
  apply orb_false_elim in H as [Ha Hs]. rewrite (IH Hs), Ha. done.
Qed.

Lemma rsplit_keep_app (c : ascii) (a b : string) :
  PyStr.contains c b = false ->
  PyStr.rsplit_keep c (a +:+ String c b) = (a +:+ String c "", b).
Proof.
  intros Hb. induction a as [|x a IH]; cbn.
  - rewrite (rsplit_keep_without c b Hb). cbn. by rewrite Ascii.eqb_refl.
  - rewrite IH. by destruct a.
Qed.

Lemma rstrip_without (c : ascii) (s : string) :
  PyStr.contains c s = false -> PyStr.rstrip c s = s.
Proof.
  induction s as [|a s IH]; cbn; [done|]. intros H.
  apply orb_false_elim in H as [Ha Hs]. rewrite (IH Hs), Ha. done.
Qed.

Lemma rstrip_app (c : ascii) (a b : string) :
  PyStr.rstrip c b = b -> PyStr.nonempty b = true ->
  PyStr.rstrip c (a +:+ b) = a +:+ b.
Proof.
  intros Hb Hne. induction a as [|x a IH]; cbn; [done|]. rewrite IH.
  assert (PyStr.nonempty (a +:+ b) = true) as ->.
  { destruct a; [done|reflexivity]. }
  by rewrite andb_false_r.
Qed.

Lemma rstrip_app_sep (c : ascii) (s : string) :
  PyStr.rstrip c (s +:+ String c "") = PyStr.rstrip c s.
Proof.
  induction s as [|x s IH]; cbn.
  - by rewrite Ascii.eqb_refl.
  - by rewrite IH.
Qed.

Lemma lstrip_without (c : ascii) (s : string) :
  PyStr.contains c s = false -> PyStr.lstrip c s = s.
Proof.
  destruct s as [|a s]; cbn; [done|]. intros H.
  apply orb_false_elim in H as [Ha _]. by rewrite Ha.
Qed.

Lemma lstrip_fixed_head (c x : ascii) (tl : string) :
  PyStr.lstrip c (String x tl) = String x tl -> Ascii.eqb x c = false.
Proof.
  cbn. destruct (Ascii.eqb x c); [|done]. intros H. exfalso.
  assert (Hlen : forall t, (String.length (PyStr.lstrip c t)
                            <= String.length t)%nat).
  { induction t as [|y t IH]; cbn; [lia|].
    destruct (Ascii.eqb y c); cbn; lia. }
  specialize (Hlen tl). rewrite H in Hlen. cbn in Hlen. lia.
Qed.

Lemma prefix_app (a b : string) : PyStr.startswith a (a +:+ b) = true.
Proof.
  unfold PyStr.startswith. induction a as [|x a IH]; cbn.
  - by destruct b.
  - destruct (ascii_dec x x); [assumption | done].
Qed.

Lemma drop_length_app (a b : string) :
  PyStr.drop (String.length a) (a +:+ b) = b.
Proof. induction a as [|x a IH]; cbn; [done | exact IH]. Qed.

(** *** Paths as lists of segments *)

(** A path segment: not empty and without a slash. *)
Definition seg_ok (s : string) : bool :=
  PyStr.nonempty s && negb (PyStr.contains "/" s).

(** The path with the given segments. *)
Definition path_of (segs : list string) : string := PyStr.join "/" segs.

Lemma path_of_cons (s : string) (segs : list string) :
  segs <> [] -> path_of (s :: segs) = s +:+ "/" +:+ path_of segs.
Proof. destruct segs; [done | reflexivity]. Qed.

Lemma path_of_snoc (segs : list string) (k : string) :
  segs <> [] -> path_of (segs ++ [k]) = path_of segs +:+ String "/" k.
Proof.
  induction segs as [|s segs IH]; [done|]. intros _.
  destruct segs as [|s' segs]; [reflexivity|].
  change ((s :: s' :: segs) ++ [k]) with (s :: ((s' :: segs) ++ [k])).
  rewrite (path_of_cons s ((s' :: segs) ++ [k])) by discriminate.
  rewrite IH by discriminate.
  rewrite (path_of_cons s (s' :: segs)) by discriminate.
  by rewrite !append_assoc.
Qed.

Lemma path_of_app (rs rel : list string) :
  rs <> [] -> rel <> [] ->
  path_of (rs ++ rel) = path_of rs +:+ String "/" (path_of rel).
Proof.
  intros Hrs. revert rs Hrs. induction rel as [|k rel IH]; [done|].
  intros rs Hrs _. destruct rel as [|k' rel].
  - by apply path_of_snoc.
  - replace (rs ++ k :: k' :: rel) with ((rs ++ [k]) ++ k' :: rel)
      by (by rewrite <- app_assoc).
    rewrite IH; [|by destruct rs|discriminate]. rewrite path_of_snoc by done.
    rewrite (path_of_cons k (k' :: rel)) by discriminate.
    by rewrite !append_assoc.
Qed.

Lemma contains_path_of_false (c : ascii) (segs : list string) :
  Ascii.eqb "/" c = false ->
  Forall (fun s => PyStr.contains c s = false) segs ->
  PyStr.contains c (path_of segs) = false.
Proof.
  intros Hc. induction 1 as [|s segs Hs Hall IH]; [done|].
  destruct segs as [|s' segs]; [exact Hs|].
  rewrite path_of_cons by done. rewrite contains_app, Hs.
  change ("/" +:+ path_of (s' :: segs)) with (String "/" (path_of (s' :: segs))).
  cbn [PyStr.contains orb]. rewrite Hc. exact IH.
Qed.

Lemma seg_ok_spec (s : string) :
  seg_ok s = true <-> PyStr.nonempty s = true /\ PyStr.contains "/" s = false.
Proof.
  unfold seg_ok. rewrite andb_true_iff, negb_true_iff. done.
Qed.

Lemma split_path_of (segs : list string) :
  segs <> [] -> Forall (fun s => seg_ok s = true) segs ->
  PyStr.split "/" (path_of segs) = segs.
Proof.
  intros Hne Hall. induction Hall as [|s segs Hs Hall IH]; [done|].
  apply seg_ok_spec in Hs as [_ Hs].
  destruct segs as [|s' segs].
  - cbn. by apply split_without.
  - rewrite path_of_cons by done.
    change (s +:+ "/" +:+ path_of (s' :: segs))
      with (s +:+ String "/" (path_of (s' :: segs))).
    rewrite split_app by done. by rewrite IH.
Qed.

Lemma filter_nonempty_segs (segs : list string) :
  Forall (fun s => seg_ok s = true) segs ->
  PyStr.filter_nonempty segs = segs.
Proof.
  induction 1 as [|s segs Hs Hall IH]; [done|].
  unfold PyStr.filter_nonempty in *. cbn.
  apply seg_ok_spec in Hs as [-> _]. by rewrite IH.
Qed.

Lemma rstrip_path_of (segs : list string) :
  segs <> [] -> Forall (fun s => seg_ok s = true) segs ->
  PyStr.rstrip "/" (path_of segs) = path_of segs
  /\ PyStr.nonempty (path_of segs) = true.
Proof.
  intros Hne Hall. induction Hall as [|s segs Hs Hall IH]; [done|].
  apply seg_ok_spec in Hs as [Hs1 Hs2].
  destruct segs as [|s' segs].
  - split; [by apply rstrip_without | exact Hs1].
  - destruct IH as [IH1 IH2]; [done|].
    rewrite path_of_cons by done. rewrite <- append_assoc. split.
    + by apply rstrip_app.
    + by destruct s.
Qed.

Lemma path_of_nonempty (segs : list string) :
  segs <> [] -> Forall (fun s => seg_ok s = true) segs ->
  PyStr.nonempty (path_of segs) = true
  /\ PyStr.all_char "/" (path_of segs) = false
  /\ PyStr.rstrip "/" (path_of segs) = path_of segs
  /\ PyStr.lstrip "/" (path_of segs) = path_of segs.
Proof.
  intros Hne Hall.
  destruct (rstrip_path_of segs Hne Hall) as [Hr Hn].
  destruct segs as [|s segs]; [done|].
  inversion Hall as [|? ? Hs Hrest]; subst.
  apply seg_ok_spec in Hs as [Hs1 Hs2].
  destruct s as [|x s]; [done|]. cbn in Hs2.
  apply orb_false_elim in Hs2 as [Hx Hs2].
  assert (Hhead : exists tl, path_of (String x s :: segs) = String x tl).
  { destruct segs; [by exists s|]. rewrite path_of_cons by done. cbn. eauto. }
  destruct Hhead as (tl & Htl). repeat split; try done.
  - rewrite Htl. cbn. by rewrite Hx.
  - rewrite Htl. cbn. by rewrite Hx.
Qed.

(** The directory and the name of the path [segs/k]. *)
Lemma dirname_basename_snoc (segs : list string) (k : string) :
  Forall (fun s => seg_ok s = true) segs -> seg_ok k = true ->
  Url.dirname (path_of (segs ++ [k])) = path_of segs
  /\ Url.basename (path_of (segs ++ [k])) = k.
Proof.
  intros Hall Hk. apply seg_ok_spec in Hk as [Hk1 Hk2].
  unfold Url.dirname, Url.basename.
  destruct segs as [|s segs].
  - cbn [app path_of PyStr.join String.concat].
    rewrite (rsplit_keep_without "/" k Hk2). done.
  - rewrite path_of_snoc by done. rewrite rsplit_keep_app by done.
    cbn [fst snd].
    destruct (path_of_nonempty (s :: segs)) as (Hn & Hall' & Hr & _);
      [done|done|].
    split; [|done].
    assert (PyStr.nonempty (path_of (s :: segs) +:+ "/") = true) as ->.
    { by destruct (path_of (s :: segs)). }
    assert (PyStr.all_char "/" (path_of (s :: segs) +:+ "/") = false) as ->.
    { destruct (path_of (s :: segs)) as [|x tl]; [done|]. cbn in Hall'.
      cbn [String.append PyStr.all_char].
      apply andb_false_iff in Hall' as [Hx|Htl]; [by rewrite Hx|].
      clear -Htl. destruct (Ascii.eqb x "/"); [cbn [andb]|done].
      induction tl as [|y tl IH]; [done|]. cbn in *.
      apply andb_false_iff in Htl as [->|Htl]; [done|].
      rewrite (IH Htl). by rewrite andb_false_r. }
    cbn [andb negb]. by rewrite rstrip_app_sep.
Qed.

(** *** Canonical paths and node URIs *)

Lemma join_split (c : ascii) (s : string) :
  PyStr.join (String c "") (PyStr.split c s) = s.
Proof.
  unfold PyStr.join. induction s as [|a s IH]; [reflexivity|].
  cbn [PyStr.split]. destruct (Ascii.eqb_spec a c) as [->|Hne].
  - destruct (PyStr.split c s) as [|h t] eqn:E; [by destruct s|].
    cbn [String.concat] in *. by rewrite IH.
  - destruct (PyStr.split c s) as [|h t] eqn:E.
    + cbn in IH. by subst.
    + destruct t; cbn [String.concat] in *; by rewrite <- IH.
Qed.

Lemma split_slash_free (c : ascii) (s : string) :
  Forall (fun x => PyStr.contains c x = false) (PyStr.split c s).
Proof.
  induction s as [|a s IH]; cbn [PyStr.split]; [by repeat constructor|].
  destruct (Ascii.eqb a c) eqn:E; [by constructor|].
  destruct (PyStr.split c s) as [|h t]; [repeat constructor; cbn; by rewrite E|].
  inversion IH; subst. constructor; [|done]. cbn. by rewrite E.
Qed.

(** A segment that survives the URL parser and [normpath] unchanged. *)
Definition canonical_seg (s : string) : bool :=
  seg_ok s && negb (String.eqb s ".") && negb (String.eqb s "..")
  && negb (PyStr.contains "?" s) && negb (PyStr.contains "#" s).

(** A path as [Node] stores it that contains no dot segment: empty, or
    canonical segments joined by slashes. *)
Definition canonical_path (p : string) : bool :=
  negb (PyStr.nonempty p) || forallb canonical_seg (PyStr.split "/" p).

Lemma canonical_seg_spec (s : string) :
  canonical_seg s = true ->
  seg_ok s = true /\ s <> "." /\ s <> ".."
  /\ PyStr.contains "?" s = false /\ PyStr.contains "#" s = false.
Proof.
  unfold canonical_seg. rewrite !andb_true_iff, !negb_true_iff.
  intros ((((H1 & H2) & H3) & H4) & H5).
  apply String.eqb_neq in H2, H3. done.
Qed.

Lemma canonical_path_segs (p : string) :
  canonical_path p = true ->
  exists segs, p = path_of segs
               /\ Forall (fun s => canonical_seg s = true) segs.
Proof.
  unfold canonical_path. intros H. apply orb_true_iff in H as [H|H].
  - exists []. destruct p; [done|discriminate].
  - exists (PyStr.split "/" p). split.
    + symmetry. apply (join_split "/").
    + apply List.Forall_forall. by apply forallb_forall.
Qed.

Lemma canonical_segs_ok (segs : list string) :
  Forall (fun s => canonical_seg s = true) segs ->
  Forall (fun s => seg_ok s = true) segs.
Proof.
  intros H. eapply Forall_impl; [exact H|].
  intros s Hs. by apply canonical_seg_spec in Hs as [? _].
Qed.






End StrFacts.

(** ** Transfers and protocols *)

Module TransferFacts.
Import ET Model.

Definition protocol_fields (t : Transfer) : option ProtocolFields :=
  match t with
  | PushToSpace _ f | PullFromSpace _ f _ => Some f
  | Copy _ _ | Move _ _ => None
  end.

Lemma ProtocolTransfer_tomap_empty t f :
  protocols f = [] -> ProtocolTransfer_tomap t f = Raise IndexError.
Proof. intros H. unfold ProtocolTransfer_tomap. now rewrite H. Qed.

Lemma ProtocolTransfer_tomap_first t f p ps :
  protocols f = p :: ps ->
  exists m, ProtocolTransfer_tomap t f = Ok m
            /\ m !! "PROTOCOL" = Some (protocol_uri p)
            /\ m !! "TARGET" = Some (node_path (transfer_target t))
            /\ m !! "DIRECTION" = Some (direction_str t).
Proof.
  intros H. unfold ProtocolTransfer_tomap. rewrite H. cbn.
  eexists. split; [reflexivity|].
  destruct (view f); destruct t as [| ? ? [] | |];
    repeat split; by simplify_map_eq.
Qed.

(** C10. [ProtocolTransfer.tomap] reads [self.protocols[0]]
    unconditionally: on a protocol transfer it raises [IndexError]
    exactly when the list of candidate protocols is empty, and it returns
    a map (whose [PROTOCOL] entry is the first candidate's URI) exactly
    when at least one candidate is present. *)
Theorem tomap_total_iff_protocol_present (t : Transfer) (f : ProtocolFields) :
  protocol_fields t = Some f ->
  (protocols f = [] <-> tomap t = Raise IndexError)
  /\ (protocols f <> [] <->
      exists m p, tomap t = Ok m /\ head (protocols f) = Some p
                  /\ m !! "PROTOCOL" = Some (protocol_uri p)).
Proof.
  intros Hf.
  assert (Ht : tomap t = ProtocolTransfer_tomap t f).
  { destruct t; cbn in Hf; inversion Hf; subst; reflexivity. }
  rewrite Ht. destruct (protocols f) as [|p ps] eqn:Hp.
  - split.
    + split; [intros _; by apply ProtocolTransfer_tomap_empty | done].
    + split; [done|]. intros (m & q & Hm & _).
      rewrite (ProtocolTransfer_tomap_empty t f Hp) in Hm. discriminate.
  - destruct (ProtocolTransfer_tomap_first t f p ps Hp) as (m & Hm & Hp' & _).
    split.
    + split; [done|]. rewrite Hm. discriminate.
    + split; [|done]. intros _. exists m, p. by rewrite Hm.
Qed.

Lemma tomap_total_iff_protocol_present_witness :
  let t := PushToSpace (BaseNode (mkBase "a" [] None [] [])) no_fields in
  protocol_fields t = Some no_fields
  /\ tomap t = Raise IndexError.
Proof.
  intros t. split; [reflexivity|].
  apply (tomap_total_iff_protocol_present t no_fields eq_refl). reflexivity.
Defined.

(** [Transfer.create_transfer] on the two directions that are not
    implemented. *)
Lemma create_transfer_not_implemented target keep_bytes :
  create_transfer target (Some "pushFromVoSpace") keep_bytes
  = Raise NotImplementedError
  /\ create_transfer target (Some "pullToVoSpace") keep_bytes
     = Raise NotImplementedError.
Proof. split; reflexivity. Qed.

Definition is_VOSpaceError (e : exn) : bool :=
  match e with VOSpaceError _ _ => true | _ => false end.

Definition raised {A : Type} (r : result A) : option exn :=
  match r with Raise e => Some e | Ok _ => None end.

(** The four direction names [create_transfer] tests for. *)
Definition named_direction (direction : option string) : bool :=
  existsb (is_str direction)
    ["pushToVoSpace"; "pullFromVoSpace"; "pushFromVoSpace"; "pullToVoSpace"].

Lemma create_transfer_other target direction keep_bytes :
  named_direction direction = false ->
  create_transfer target direction keep_bytes
  = if truthy keep_bytes
    then n ← Node_new target; d ← Node_new direction; Ok (Copy n d)
    else n ← Node_new target; d ← Node_new direction; Ok (Move n d).
Proof.
  intros H. unfold named_direction in H. cbn in H.
  repeat (apply orb_false_elim in H; destruct H as [? H]).
  unfold create_transfer.
  repeat match goal with Hq : is_str _ _ = false |- _ => rewrite Hq; clear Hq end.
  reflexivity.
Qed.

(** C7, as the code has it. [create_transfer] maps [pushToVoSpace] to a
    [PushToSpace] and [pullFromVoSpace] to a [PullFromSpace] of the target
    node; any direction that is none of the four names is read as a second
    node and yields a [Copy] when [keep_bytes] is truthy and a [Move] when it
    is false or absent (the target and, for these two, the direction being
    URIs [Node] accepts); and [pushFromVoSpace] and [pullToVoSpace] fail for
    every target and every [keep_bytes], with Python's built-in
    [NotImplementedError], which is not a [VOSpaceError]. *)
Theorem create_transfer_dispatch
  (target direction : option string) (keep_bytes : pyval) (n d : Node) :
  Node_new target = Ok n ->
  Node_new direction = Ok d ->
  named_direction direction = false ->
  create_transfer target (Some "pushToVoSpace") keep_bytes
  = Ok (PushToSpace n no_fields)
  /\ create_transfer target (Some "pullFromVoSpace") keep_bytes
     = Ok (PullFromSpace n no_fields true)
  /\ create_transfer target direction (PyBool true) = Ok (Copy n d)
  /\ create_transfer target direction (PyBool false) = Ok (Move n d)
  /\ create_transfer target direction PyEmptyList = Ok (Move n d)
  /\ create_transfer target direction keep_bytes
     = Ok (if truthy keep_bytes then Copy n d else Move n d)
  /\ (forall target' keep_bytes',
        raised (create_transfer target' (Some "pushFromVoSpace") keep_bytes')
        = Some NotImplementedError
        /\ raised (create_transfer target' (Some "pullToVoSpace") keep_bytes')
           = Some NotImplementedError)
  /\ is_VOSpaceError NotImplementedError = false.
Proof.
  intros Hn Hd Hdir.
  assert (Hother : forall kb, create_transfer target direction kb
                   = Ok (if truthy kb then Copy n d else Move n d)).
  { intros kb. rewrite (create_transfer_other _ _ _ Hdir), Hn, Hd.
    destruct (truthy kb); reflexivity. }
  repeat split.
  - cbn. now rewrite Hn.
  - cbn. now rewrite Hn.
  - apply (Hother (PyBool true)).
  - apply (Hother (PyBool false)).
  - apply (Hother PyEmptyList).
  - apply Hother.
Qed.

Lemma create_transfer_dispatch_witness :
  create_transfer (Some "vos://icrar.org!vospace/a/b") (Some "/other/path")
    (PyBool true)
  = Ok (Copy (BaseNode (mkBase "a/b" [] None [] []))
             (BaseNode (mkBase "other/path" [] None [] []))).
Proof.
  apply (create_transfer_dispatch
           (Some "vos://icrar.org!vospace/a/b") (Some "/other/path")
           (PyBool true)
           (BaseNode (mkBase "a/b" [] None [] []))
           (BaseNode (mkBase "other/path" [] None [] []))
           eq_refl eq_refl eq_refl).
Defined.

(** C7, as stated, fails: the failure of [pushFromVoSpace] is a
    [NotImplementedError], not a [VOSpaceError]. *)
Lemma create_transfer_failure_is_not_VOSpaceError :
  raised (create_transfer (Some "vos://icrar.org!vospace/a")
            (Some "pushFromVoSpace") (PyBool true))
  = Some NotImplementedError
  /\ raised (create_transfer (Some "vos://icrar.org!vospace/a")
               (Some "pullToVoSpace") (PyBool false))
     = Some NotImplementedError
  /\ is_VOSpaceError NotImplementedError = false.
Proof. repeat split. Qed.

(** *** Protocol elements of a transfer document *)

Definition well_known_protocol (uri : option string) : bool :=
  existsb (is_str uri)
    ["ivo://ivoa.net/vospace/core#httpput";
     "ivo://ivoa.net/vospace/core#httpget";
     "ivo://ivoa.net/vospace/core#httpsput";
     "ivo://ivoa.net/vospace/core#httpsget"].

(** The constructor call of the last branch of the protocol loop hands the
    endpoint to the [uri] parameter: whatever the endpoint, the URI check
    rejects it. *)
Lemma Protocol_new_of_endpoint_fails (endpoint : arg) (security_obj : arg) :
  match endpoint with ANone | AEndpoint _ => True | _ => False end ->
  exists e, Protocol_new endpoint security_obj ANone = Raise e
            /\ (endpoint = ANone -> e = InvalidArgument "uri empty")
            /\ (endpoint <> ANone -> e = AttributeError).
Proof.
  destruct endpoint; intros H; try contradiction.
  - exists (InvalidArgument "uri empty"). repeat split. congruence.
  - exists AttributeError. repeat split. congruence.
Qed.

(** A [vos:protocol] element whose URI is none of the four well-known ones
    never yields a protocol: [parse_protocol] raises. *)
Lemma parse_protocol_other_uri_fails (protocol : Element) :
  well_known_protocol (get "uri" (attrib protocol)) = false ->
  exists e, parse_protocol protocol = Raise e.
Proof.
  intros H. unfold well_known_protocol in H. cbn in H.
  repeat (apply orb_false_elim in H; destruct H as [? H]).
  unfold parse_protocol.
  repeat match goal with Hq : is_str _ _ = false |- _ => rewrite Hq; clear Hq end.
  destruct (child_elems (vos "securityMethod") protocol) as [|se ?];
    destruct (child_elems (vos "endpoint") protocol) as [|ee ?];
    try destruct (get "uri" (attrib se)); try destruct (text ee);
    cbn; eauto.
Qed.

(** For the four well-known URIs the loop builds the matching class, with
    the parsed endpoint and security method attached. *)
Lemma parse_protocol_well_known (protocol : Element) :
  child_elems (vos "securityMethod") protocol = [] ->
  child_elems (vos "endpoint") protocol = [] ->
  (get "uri" (attrib protocol) = Some "ivo://ivoa.net/vospace/core#httpput" ->
   parse_protocol protocol
   = Ok (mkProtocol CHTTPPut "ivo://ivoa.net/vospace/core#httpput" None None))
  /\ (get "uri" (attrib protocol) = Some "ivo://ivoa.net/vospace/core#httpget" ->
      parse_protocol protocol
      = Ok (mkProtocol CHTTPGet "ivo://ivoa.net/vospace/core#httpget" None None))
  /\ (get "uri" (attrib protocol) = Some "ivo://ivoa.net/vospace/core#httpsput" ->
      parse_protocol protocol
      = Ok (mkProtocol CHTTPSPut "ivo://ivoa.net/vospace/core#httpsput" None None))
  /\ (get "uri" (attrib protocol) = Some "ivo://ivoa.net/vospace/core#httpsget" ->
      parse_protocol protocol
      = Ok (mkProtocol CHTTPSGet "ivo://ivoa.net/vospace/core#httpsget" None None)).
Proof.
  intros Hs He. unfold parse_protocol. rewrite Hs, He.
  repeat split; intros ->; reflexivity.
Qed.

(** A [vos:transfer] document that pushes to node [a] and offers one
    protocol, with an endpoint when [endpoint] is given. *)
Definition push_document (protocol_uri : string) (endpoint : option string)
  : ET.xmlstr :=
  XmlStr
    (Elem (vos "transfer") [] None
       [Elem (vos "target") [] (Some "vos://icrar.org!vospace/a") [];
        Elem (vos "direction") [] (Some "pushToVoSpace") [];
        Elem (vos "protocol") [("uri", protocol_uri)] None
          match endpoint with
          | Some url => [Elem (vos "endpoint") [] (Some url) []]
          | None => []
          end]).

(** C8 at its failing input. A transfer document whose protocol has a URI
    other than the four well-known ones does not parse: the constructor
    receives the endpoint where the URI belongs, so the URI check raises
    [InvalidArgument] when the element has no endpoint and the URL parser
    raises [AttributeError] when it has one. [Protocol.create_protocol]
    builds the generic protocol for the same URI, and the same document
    with a well-known URI parses to the specialised class. *)
Theorem generic_protocol_element_does_not_parse :
  Transfer_fromstring
    (push_document "ivo://ivoa.net/vospace/core#ftpput" None)
  = Raise (InvalidArgument "uri empty")
  /\ Transfer_fromstring
       (push_document "ivo://ivoa.net/vospace/core#ftpput"
          (Some "ftp://example.org/a"))
     = Raise AttributeError
  /\ create_protocol "ivo://ivoa.net/vospace/core#ftpput" None
     = Ok (mkProtocol CProtocol "ivo://ivoa.net/vospace/core#ftpput" None None)
  /\ Transfer_fromstring
       (push_document "ivo://ivoa.net/vospace/core#httpput"
          (Some "http://example.org/a"))
     = Ok (PushToSpace (BaseNode (mkBase "a" [] None [] []))
             (mkProtocolFields
                [mkProtocol CHTTPPut "ivo://ivoa.net/vospace/core#httpput"
                   (Some (mkEndpoint "http://example.org/a")) None]
                None [])).
Proof. repeat split; vm_compute; reflexivity. Qed.

End TransferFacts.

(** ** UWS jobs *)

Module JobFacts.
Import ET Model.

(** [xlink:href] in Clark notation. *)
Definition xlink_href : string := "{http://www.w3.org/1999/xlink}href".

(** A completed job with one result. *)
Definition completed_job : UWSJob :=
  UWSJob_new "job-1" 3 "2018-01-01 00:05:00" None
    [mkUWSResult "transferDetails" [(xlink_href, "/vospace/transfers/job-1")]]
    None.

(** The [uws:result] children of the [uws:results] elements of a job
    document. *)
Definition result_elements (root : Element) : list Element :=
  xpath root [uws "job"; uws "results"; uws "result"].

(** Whatever the job, its document has no [uws:result] element. *)
Lemma toxml_never_writes_a_result (job : UWSJob) (root : Element) :
  UWSJob_toxml job = Ok root -> result_elements root = [].
Proof.
  unfold UWSJob_toxml. destruct (UWSPhaseLookup (phase job)) as [ph|]; [|done].
  cbn. intros H.
  destruct (job_info job), (results job) as [[|r rs]|], (error job) as [[|c e]|];
    cbn in H; inversion H; subst; reflexivity.
Qed.

(** C4 at its failing input. The document of a job with one result has a
    [uws:results] element and no [uws:result] in it: the loop of [toxml]
    ranges over the new element instead of [self.results].
    [results_tostring], which ranges over [self.results], writes the
    result with its id and attributes. *)
Theorem job_document_has_no_result_elements :
  (exists root,
      UWSJob_toxml completed_job = Ok root
      /\ xpath root [uws "job"; uws "results"]
         = [Elem (uws "results") [] None []]
      /\ result_elements root = [])
  /\ results_tostring completed_job
     = Ok (Some (XmlStr
                   (Elem (uws "results") [] None
                      [Elem (uws "result")
                         [("id", "transferDetails");
                          (xlink_href, "/vospace/transfers/job-1")]
                         None []]))).
Proof.
  split.
  - eexists. split; [vm_compute; reflexivity|]. split; vm_compute; reflexivity.
  - vm_compute. reflexivity.
Qed.

End JobFacts.


(** ** The locking read of the persistence layer *)

Module LockingReadFacts.
Import Model Database.

Definition rows_of_space (space_id : Z) (conn : DB) : list NodeRow :=
  List.filter (fun r => Z.eqb (row_space_id r) space_id) (nodes conn).

(** Container [a] of space 1, and a node [a/b] that lives in space 2. *)
Definition container_a : NodeRow :=
  mkNodeRow 4 "a" "a" (Some "alice") 1 None false [] [].
Definition foreign_a_b : NodeRow :=
  mkNodeRow 1 "b" "a.b" (Some "mallory") 2 None false [] [].

Definition db_own : DB := mkDB [container_a] ∅.
Definition db_with_foreign : DB := mkDB [container_a; foreign_a_b] ∅.

Definition permit_all (identity : option string) (permission : string)
    (context : Context) : result bool := Ok true.

Definition new_a_b : Node :=
  DataNode KDataNode (mkBase "a/b" [] None [] []) (mkData [] [] false).

(** C2 at its failing input. The two databases hold the same rows of
    space 1 and differ in one row of space 2. Read for path [a/b] in
    space 1, the first gives the parent and no node, the second gives the
    parent and the row of space 2: in [path=$1 or path=$2 and space_id=$3]
    the space test covers the parent's path only. [insert] in space 1
    returns that foreign row as the child row. *)
Theorem locking_read_returns_row_of_other_space :
  rows_of_space 1 db_own = rows_of_space 1 db_with_foreign
  /\ _get_node_and_parent 1 "a/b" db_own = Ok (Some container_a, None)
  /\ _get_node_and_parent 1 "a/b" db_with_foreign
     = Ok (Some container_a, Some foreign_a_b)
  /\ row_space_id foreign_a_b = 2
  /\ (exists db', insert 1 permit_all new_a_b db_own (Some "alice")
                  = Ok (Some container_a, None, db'))
  /\ (exists db', insert 1 permit_all new_a_b db_with_foreign (Some "alice")
                  = Ok (Some container_a, Some foreign_a_b, db')).
Proof.
  repeat split; try (vm_compute; reflexivity);
    eexists; vm_compute; reflexivity.
Qed.

(** The read of [update_properties], [path=$1 and type=$2 and space_id=$3],
    selects rows of its own space only. *)
Lemma node_where_scoped space_id path_tree type r :
  node_where space_id path_tree type r = true -> row_space_id r = space_id.
Proof.
  unfold node_where. intros H.
  apply andb_true_iff in H as [_ H]. by apply Z.eqb_eq.
Qed.

End LockingReadFacts.

(** ** The authorization policy *)

Module AuthFacts.
Import Model Auth.

Lemma in_list_In x l : in_list x l = true <-> In x l.
Proof.
  unfold in_list. rewrite existsb_exists. split.
  - intros (y & Hy & Heq). apply String.eqb_eq in Heq. by subst.
  - intros H. exists x. split; [done | apply String.eqb_refl].
Qed.

Lemma any_property_in_protected_spec (a : list NodeProperty) :
  _any_property_in_protected a = true
  <-> exists p, In p a /\ In (prop_uri p) PROTECTED_URI.
Proof.
  unfold _any_property_in_protected. rewrite existsb_exists.
  split; intros (p & Hp & H); exists p; (split; [done|]); by apply in_list_In.
Qed.

(** Whatever the node, its owner and its properties, a known identity's
    [createNode] and [setNode] requests end in [AttributeError]: the
    decision is never reached. *)
Lemma node_context_raises (space_name : string) (users : list UserRow)
    (identity : option string) (user : UserRow) (parent : option Node)
    (node : Node) :
  fetch_user space_name users identity = Some user ->
  permits space_name users identity "createNode" (CtxPair parent node)
  = Raise AttributeError
  /\ permits space_name users identity "setNode" (CtxOne node)
     = Raise AttributeError.
Proof. intros Hu. unfold permits. rewrite Hu. split; reflexivity. Qed.

(** An identity without a user row gets [TypeError] for every permission
    and context. *)
Lemma unknown_identity_raises (space_name : string) (users : list UserRow)
    (identity : option string) (permission : string) (context : Context) :
  fetch_user space_name users identity = None ->
  permits space_name users identity permission context = Raise TypeError.
Proof. intros Hu. unfold permits. by rewrite Hu. Qed.

Definition alice : UserRow :=
  mkUser "alice" "space" "$pbkdf2-sha256$hash" true ["g1"] ["g1"].

Definition creator_property : NodeProperty :=
  Prop_ "ivo://ivoa.net/vospace/core#creator" (Some "alice") (PyBool false) true.

(** The root container and a data node [a] that carries the protected
    creator property, both owned by alice. *)
Definition owned_root : Node :=
  ContainerNode (mkBase "/" [] (Some "alice") ["g1"] ["g1"])
    (mkData [] [] false) [].

Definition node_with_creator : Node :=
  DataNode KDataNode
    (mkBase "a" [creator_property] (Some "alice") ["g1"] ["g1"])
    (mkData [] [] false).

(** C1 at a node of the data model. The node [a] carries the creator
    property, whose URI is in the protected list, and alice has a user
    row; her [createNode] request on (root, a) and her [setNode] request
    on [a] do not return [False]: both raise [AttributeError], at
    [node.properties.values()]. *)
Theorem protected_property_raises_AttributeError :
  fetch_user "space" [alice] (Some "alice") = Some alice
  /\ _any_property_in_protected (node_properties node_with_creator) = true
  /\ permits "space" [alice] (Some "alice") "createNode"
       (CtxPair (Some owned_root) node_with_creator) = Raise AttributeError
  /\ permits "space" [alice] (Some "alice") "setNode"
       (CtxOne node_with_creator) = Raise AttributeError.
Proof. repeat split; reflexivity. Qed.

End AuthFacts.

(** ** The controlled reader *)

Module NgasFacts.
Import Ngas.

Definition remaining (r : ControlledReader) : Z :=
  _content_length r - _bytes_read r.

Lemma anext_stop (r : ControlledReader) :
  remaining r <= 0 -> __anext__ r = StopAsyncIteration.
Proof.
  unfold __anext__, remaining, DEFAULT_BUFFER_SIZE. intros H.
  destruct (Z.leb_spec (Z.min 8192 (_content_length r - _bytes_read r)) 0);
    [done | lia].
Qed.

Lemma anext_yield (r : ControlledReader) :
  0 < remaining r ->
  remaining r <= Z.of_nat (length (_content r)) ->
  let n := Z.min DEFAULT_BUFFER_SIZE (remaining r) in
  __anext__ r
  = Yield (firstn (Z.to_nat n) (_content r))
      (mkReader (skipn (Z.to_nat n) (_content r)) (_content_length r)
         (_bytes_read r + n)).
Proof.
  unfold __anext__, remaining, readexactly, DEFAULT_BUFFER_SIZE. intros H1 H2.
  cbn zeta.
  destruct (Z.leb_spec (Z.min 8192 (_content_length r - _bytes_read r)) 0);
    [lia|].
  destruct (Z.ltb_spec (Z.of_nat (length (_content r)))
              (Z.min 8192 (_content_length r - _bytes_read r))); [lia|].
  reflexivity.
Qed.

(** The iteration over a reader that still has [remaining r] bytes to
    produce and a source holding at least as many. *)
Lemma iterate_exact (fuel : nat) :
  forall r : ControlledReader,
    0 <= remaining r ->
    remaining r <= Z.of_nat (length (_content r)) ->
    (Z.to_nat (remaining r) < fuel)%nat ->
    exists chunks final,
      iterate fuel r = Some (Ok (chunks, final))
      /\ Forall (fun c => 0 < Z.of_nat (length c) <= DEFAULT_BUFFER_SIZE) chunks
      /\ concat chunks = firstn (Z.to_nat (remaining r)) (_content r)
      /\ _content final = skipn (Z.to_nat (remaining r)) (_content r)
      /\ _bytes_read final = _content_length r
      /\ _content_length final = _content_length r.
Proof.
  induction fuel as [|fuel IH]; intros r Hrem Hlen Hfuel; [lia|].
  destruct (Z.eq_dec (remaining r) 0) as [Hz|Hnz].
  - exists [], r. cbn [iterate]. rewrite anext_stop by lia.
    rewrite Hz. cbn. repeat split; try done.
    unfold remaining in Hz. lia.
  - assert (Hpos : 0 < remaining r) by lia.
    cbn [iterate]. rewrite (anext_yield r Hpos Hlen). cbn zeta.
    set (n := Z.min DEFAULT_BUFFER_SIZE (remaining r)).
    assert (Hn : 0 < n <= remaining r /\ n <= DEFAULT_BUFFER_SIZE).
    { unfold n, DEFAULT_BUFFER_SIZE. lia. }
    set (r' := mkReader (skipn (Z.to_nat n) (_content r)) (_content_length r)
                 (_bytes_read r + n)).
    assert (Hrem' : remaining r' = remaining r - n).
    { unfold remaining, r'. cbn. lia. }
    destruct (IH r') as (chunks & final & Hit & Hall & Hcat & Hrest & Hbr & Hcl).
    + lia.
    + rewrite Hrem'. unfold r'. cbn. rewrite length_skipn. lia.
    + lia.
    + exists (firstn (Z.to_nat n) (_content r) :: chunks), final.
      rewrite Hit. split; [reflexivity|].
      assert (Hsplit : Z.to_nat (remaining r)
                       = (Z.to_nat n + Z.to_nat (remaining r'))%nat) by lia.
      repeat split.
      * constructor; [|done]. rewrite length_firstn. lia.
      * cbn [concat]. rewrite Hcat. unfold r' at 2. cbn [_content].
        rewrite Hsplit. apply take_take_drop.
      * rewrite Hrest. unfold r' at 2. cbn [_content].
        rewrite Hsplit, drop_drop. reflexivity.
      * rewrite Hbr. reflexivity.
      * rewrite Hcl. reflexivity.
Qed.

(** Once the iteration has ended, more fuel changes nothing. *)
Lemma iterate_fuel_irrelevant (f1 : nat) :
  forall (f2 : nat) (r : ControlledReader) x y,
    iterate f1 r = Some x -> iterate f2 r = Some y -> x = y.
Proof.
  induction f1 as [|f1 IH]; intros f2 r x y H1 H2; [discriminate|].
  destruct f2 as [|f2]; [discriminate|].
  cbn [iterate] in H1, H2.
  destruct (__anext__ r) as [buffer r'| |e]; [|congruence|congruence].
  destruct (iterate f1 r') as [x1|] eqn:E1; [|discriminate].
  destruct (iterate f2 r') as [y1|] eqn:E2; [|discriminate].
  pose proof (IH _ _ _ _ E1 E2) as ->.
  destruct y1 as [[c fin]|e]; congruence.
Qed.

(** C9. For every [content_length] N > 0 and every source that holds at
    least N bytes, the iteration over a [ControlledReader] ends (any fuel
    above N suffices): it produces chunks that are non-empty and at most
    [DEFAULT_BUFFER_SIZE] long, that add up to exactly the first N bytes of
    the source, and the next call on the reader it leaves raises
    [StopAsyncIteration]; whatever the source holds beyond N stays in it. *)
Theorem controlled_reader_yields_exactly_content_length
  (content : list Byte.byte) (N : Z) :
  0 < N ->
  N <= Z.of_nat (length content) ->
  exists chunks final,
    (forall fuel : nat,
        (Z.to_nat N < fuel)%nat ->
        iterate fuel (ControlledReader_new content N)
        = Some (Ok (chunks, final)))
    /\ Forall (fun c => Z.of_nat (length c) <= DEFAULT_BUFFER_SIZE) chunks
    /\ Z.of_nat (length (concat chunks)) = N
    /\ concat chunks = firstn (Z.to_nat N) content
    /\ __anext__ final = StopAsyncIteration
    /\ _content final = skipn (Z.to_nat N) content.
Proof.
  intros HN Hlen.
  set (r := ControlledReader_new content N).
  assert (Hr : remaining r = N) by (unfold remaining, r; cbn; lia).
  destruct (iterate_exact (S (Z.to_nat N)) r) as
    (chunks & final & Hit & Hall & Hcat & Hrest & Hbr & Hcl);
    [rewrite Hr; lia | rewrite Hr; exact Hlen | rewrite Hr; lia |].
  rewrite Hr in Hcat, Hrest. cbn [_content r ControlledReader_new] in Hcat, Hrest.
  exists chunks, final. repeat split.
  - intros fuel Hfuel.
    destruct (iterate_exact fuel r) as (chunks' & final' & Hit' & _);
      [rewrite Hr; lia | rewrite Hr; exact Hlen | rewrite Hr; lia |].
    rewrite Hit'. f_equal.
    exact (iterate_fuel_irrelevant _ _ _ _ _ Hit' Hit).
  - eapply Forall_impl; [exact Hall|]. cbn. intros c Hc. lia.
  - rewrite Hcat, length_firstn. lia.
  - exact Hcat.
  - apply anext_stop. unfold remaining. lia.
  - exact Hrest.
Qed.

Lemma controlled_reader_yields_exactly_content_length_witness :
  exists chunks final,
    (forall fuel : nat,
        (Z.to_nat 2 < fuel)%nat ->
        iterate fuel (ControlledReader_new [Byte.x61; Byte.x62; Byte.x63] 2)
        = Some (Ok (chunks, final)))
    /\ Forall (fun c => Z.of_nat (length c) <= DEFAULT_BUFFER_SIZE) chunks
    /\ Z.of_nat (length (concat chunks)) = 2
    /\ concat chunks = firstn (Z.to_nat 2) [Byte.x61; Byte.x62; Byte.x63]
    /\ __anext__ final = StopAsyncIteration
    /\ _content final = skipn (Z.to_nat 2) [Byte.x61; Byte.x62; Byte.x63].
Proof.
  apply (controlled_reader_yields_exactly_content_length
           [Byte.x61; Byte.x62; Byte.x63] 2); cbn; lia.
Defined.

End NgasFacts.

(** ** Property updates *)

Module UpdateFacts.
Import Model Database.

Section Table.
Variable node_path : string.
Variable space_id : Z.

Abbreviation key u := ((u, node_path, space_id) : PropKey).

Definition row_uri (row : string * option string * option bool) : string :=
  row.1.1.
Definition row_value (row : string * option string * option bool)
  : option string := row.1.2.

Lemma upsert_property_other (t : gmap PropKey PropRow) row (k : PropKey) :
  k <> key (row_uri row) ->
  upsert_property node_path space_id t row !! k = t !! k.
Proof.
  destruct row as [[u v] ro]. cbn. intros Hk. unfold upsert_property.
  destruct (t !! key u) as [old|].
  - destruct (not_read_only old && sql_neq (prop_row_value old) v); [|done].
    by rewrite lookup_insert_ne.
  - by rewrite lookup_insert_ne.
Qed.

(** One upsert on an existing row: the value changes exactly when the row is
    not read-only and the values differ; the flag never changes. *)
Lemma upsert_property_existing (t : gmap PropKey PropRow) u v ro old :
  t !! key u = Some old ->
  upsert_property node_path space_id t (u, v, ro) !! key u
  = Some (if not_read_only old && sql_neq (prop_row_value old) v
          then mkPropRow v (prop_row_read_only old) else old).
Proof.
  intros H. unfold upsert_property. rewrite H.
  destruct (not_read_only old && sql_neq (prop_row_value old) v); [|done].
  by rewrite lookup_insert_eq.
Qed.

Lemma upsert_property_new (t : gmap PropKey PropRow) u v ro :
  t !! key u = None ->
  upsert_property node_path space_id t (u, v, ro) !! key u
  = Some (mkPropRow v ro).
Proof.
  intros H. unfold upsert_property. rewrite H. by rewrite lookup_insert_eq.
Qed.

Lemma delete_property_other (t : gmap PropKey PropRow) u (k : PropKey) :
  k <> key u ->
  delete_property node_path space_id t u !! k = t !! k.
Proof.
  intros Hk. unfold delete_property.
  destruct (t !! key u) as [old|]; [|done].
  destruct (not_read_only old); [|done]. by rewrite lookup_delete_ne.
Qed.

(** One delete marker on an existing row: the row goes exactly when it is
    not read-only. *)
Lemma delete_property_existing (t : gmap PropKey PropRow) u old :
  t !! key u = Some old ->
  delete_property node_path space_id t u !! key u
  = if not_read_only old then None else Some old.
Proof.
  intros H. unfold delete_property. rewrite H.
  destruct (not_read_only old); [|done]. by rewrite lookup_delete_eq.
Qed.

Lemma delete_property_absent (t : gmap PropKey PropRow) u u' :
  t !! key u = None ->
  delete_property node_path space_id t u' !! key u = None.
Proof.
  intros H. destruct (decide (key u = key u')) as [Heq|Hne].
  - inversion Heq; subst. unfold delete_property. rewrite H. done.
  - by rewrite delete_property_other.
Qed.

Lemma key_inj u u' : key u = key u' -> u = u'.
Proof. by inversion 1. Qed.

(** A read-only row survives every sequence of upserts and deletes. *)
Lemma upserts_keep_read_only rows :
  forall (t : gmap PropKey PropRow) u old,
    t !! key u = Some old -> not_read_only old = false ->
    fold_left (upsert_property node_path space_id) rows t !! key u = Some old.
Proof.
  induction rows as [|[[u' v] ro] rows IH]; intros t u old Ht Hro; [done|].
  cbn [fold_left]. apply IH; [|done].
  destruct (decide (u = u')) as [<-|Hne].
  - rewrite (upsert_property_existing _ _ _ _ _ Ht), Hro. done.
  - rewrite upsert_property_other; [done|]. cbn. intros Hk.
    by apply key_inj in Hk.
Qed.

Lemma deletes_keep_read_only uris :
  forall (t : gmap PropKey PropRow) u old,
    t !! key u = Some old -> not_read_only old = false ->
    fold_left (delete_property node_path space_id) uris t !! key u = Some old.
Proof.
  induction uris as [|u' uris IH]; intros t u old Ht Hro; [done|].
  cbn [fold_left]. apply IH; [|done].
  destruct (decide (u = u')) as [<-|Hne].
  - rewrite (delete_property_existing _ _ _ Ht), Hro. done.
  - rewrite delete_property_other; [done|]. intros Hk. by apply key_inj in Hk.
Qed.

(** Upserts never change the flag of an existing row, nor remove it. *)
Lemma upserts_keep_flag rows :
  forall (t : gmap PropKey PropRow) u old,
    t !! key u = Some old ->
    exists r,
      fold_left (upsert_property node_path space_id) rows t !! key u = Some r
      /\ prop_row_read_only r = prop_row_read_only old.
Proof.
  induction rows as [|[[u' v] ro] rows IH]; intros t u old Ht; [eauto|].
  cbn [fold_left].
  destruct (decide (u = u')) as [<-|Hne].
  - pose proof (upsert_property_existing t u v ro old Ht) as H.
    destruct (IH _ _ _ H) as (r & Hr & Hflag). exists r. split; [done|].
    rewrite Hflag.
    by destruct (not_read_only old && sql_neq (prop_row_value old) v).
  - apply IH. rewrite upsert_property_other; [done|]. cbn. intros Hk.
    by apply key_inj in Hk.
Qed.

(** A delete marker removes a row that is not read-only. *)
Lemma deletes_remove uris :
  forall (t : gmap PropKey PropRow) u,
    In u uris ->
    match t !! key u with
    | Some r => not_read_only r = true
    | None => True
    end ->
    fold_left (delete_property node_path space_id) uris t !! key u = None.
Proof.
  induction uris as [|u' uris IH]; intros t u Hin Ht; [done|].
  cbn [fold_left].
  assert (Hgone : forall t' : gmap PropKey PropRow,
             t' !! key u = None ->
             fold_left (delete_property node_path space_id) uris t' !! key u
             = None).
  { clear. induction uris as [|u'' uris IH]; intros t' Ht'; [done|].
    cbn [fold_left]. apply IH. by apply delete_property_absent. }
  destruct (decide (u = u')) as [<-|Hne].
  - apply Hgone. destruct (t !! key u) as [r|] eqn:E.
    + rewrite (delete_property_existing _ _ _ E), Ht. done.
    + by apply delete_property_absent.
  - destruct Hin as [->|Hin]; [done|]. apply IH; [done|].
    rewrite delete_property_other; [done|]. intros Hk. by apply key_inj in Hk.
Qed.

Lemma deletes_other uris :
  forall (t : gmap PropKey PropRow) u,
    ~ In u uris ->
    fold_left (delete_property node_path space_id) uris t !! key u
    = t !! key u.
Proof.
  induction uris as [|u' uris IH]; intros t u Hin; [done|].
  cbn [fold_left]. rewrite IH by (intros H; apply Hin; by right).
  apply delete_property_other. intros Hk. apply key_inj in Hk.
  apply Hin. by left.
Qed.

(** When every supplied row for [u] carries the value [v], a row that is not
    read-only and whose value differs from [v] ends with the value [v]. *)
Lemma upserts_set_value rows :
  forall (t : gmap PropKey PropRow) u v r,
    t !! key u = Some r ->
    not_read_only r = true ->
    (forall row, In row rows -> row_uri row = u -> row_value row = v) ->
    fold_left (upsert_property node_path space_id) rows t !! key u
    = Some (if existsb (fun row => String.eqb (row_uri row) u) rows
               && sql_neq (prop_row_value r) v
            then mkPropRow v (prop_row_read_only r) else r).
Proof.
  induction rows as [|[[u' v'] ro] rows IH]; intros t u v r Ht Hro Hrows;
    [done|].
  cbn [fold_left existsb]. cbn [row_uri fst].
  destruct (String.eqb_spec u' u) as [->|Hne].
  - assert (v' = v) as -> by (apply (Hrows (u, v', ro)); [by left | done]).
    pose proof (upsert_property_existing t u v ro r Ht) as H.
    rewrite Hro in H. cbn [andb orb] in *.
    destruct (sql_neq (prop_row_value r) v) eqn:Hneq.
    + rewrite (IH _ u v _ H); [| done | intros; apply Hrows; [by right|done]].
      cbn [prop_row_value prop_row_read_only].
      assert (sql_neq v v = false) as ->.
      { destruct v as [x|]; [|done]. cbn. by rewrite String.eqb_refl. }
      by rewrite andb_false_r.
    + rewrite (IH _ u v _ H); [| done | intros; apply Hrows; [by right|done]].
      rewrite Hneq. by rewrite !andb_false_r.
  - cbn [orb]. apply IH; [|done|intros; apply Hrows; [by right|done]].
    rewrite upsert_property_other; [done|]. cbn. intros Hk.
    apply key_inj in Hk. congruence.
Qed.

(** A sequence of upserts changes an existing row only through a supplied
    row of the same URI whose value differs, and only if the row is not
    read-only. *)
Lemma upserts_change_only_when rows :
  forall (t : gmap PropKey PropRow) u old,
    t !! key u = Some old ->
    fold_left (upsert_property node_path space_id) rows t !! key u = Some old
    \/ (not_read_only old = true
        /\ exists row, In row rows /\ row_uri row = u
                       /\ sql_neq (prop_row_value old) (row_value row) = true).
Proof.
  induction rows as [|[[u' v] ro] rows IH]; intros t u old Ht; [by left|].
  cbn [fold_left].
  destruct (decide (u = u')) as [<-|Hne].
  - pose proof (upsert_property_existing t u v ro old Ht) as H.
    destruct (not_read_only old) eqn:Hro;
      destruct (sql_neq (prop_row_value old) v) eqn:Hneq; cbn [andb] in H.
    + right. split; [done|]. exists (u, v, ro). repeat split; try done. by left.
    + destruct (IH _ _ _ H) as [Hsame|(Hr & row & Hin & Hu & Hd)];
        [by left|]. right. split; [done|]. exists row. split; [by right|done].
    + left. by apply upserts_keep_read_only.
    + left. by apply upserts_keep_read_only.
  - assert (H : upsert_property node_path space_id t (u', v, ro) !! key u
                = Some old).
    { rewrite upsert_property_other; [done|]. cbn. intros Hk.
      by apply key_inj in Hk. }
    destruct (IH _ _ _ H) as [Hsame|(Hr & row & Hin & Hu & Hd)]; [by left|].
    right. split; [done|]. exists row. split; [by right|done].
Qed.

(** A sequence of deletes leaves a row as it is, or removes it through a
    marker of its URI, and only if the row is not read-only. *)
Lemma deletes_change_only_when uris :
  forall (t : gmap PropKey PropRow) u,
    fold_left (delete_property node_path space_id) uris t !! key u
    = t !! key u
    \/ (fold_left (delete_property node_path space_id) uris t !! key u = None
        /\ In u uris
        /\ exists r, t !! key u = Some r /\ not_read_only r = true).
Proof.
  induction uris as [|u' uris IH]; intros t u; [by left|].
  cbn [fold_left].
  destruct (decide (u = u')) as [<-|Hne].
  - destruct (t !! key u) as [r|] eqn:E.
    + pose proof (delete_property_existing t u r E) as H.
      destruct (not_read_only r) eqn:Hro.
      * right. split; [|split; [by left | eauto]].
        destruct (IH (delete_property node_path space_id t u) u)
          as [Hs|(Hn & _)]; [by rewrite Hs | done].
      * left. by apply deletes_keep_read_only.
    + left.
      destruct (IH (delete_property node_path space_id t u) u)
        as [Hs|(_ & _ & r & Hr & _)].
      * rewrite Hs. by apply delete_property_absent.
      * rewrite (delete_property_absent t u u E) in Hr. discriminate.
  - assert (H : delete_property node_path space_id t u' !! key u = t !! key u).
    { apply delete_property_other. intros Hk. by apply key_inj in Hk. }
    destruct (IH (delete_property node_path space_id t u') u)
      as [Hs|(Hn & Hin & r & Hr & Hro)].
    + left. by rewrite Hs.
    + right. split; [done|]. split; [by right|]. exists r. by rewrite <- H.
Qed.

End Table.

(** The partition of the supplied properties. *)
Lemma props_delete_In (ps : list NodeProperty) (u : string) :
  In u (props_delete ps) <-> In (DeleteProp u) ps.
Proof.
  unfold props_delete. rewrite in_map_iff. split.
  - intros (p & <- & Hp). apply filter_In in Hp as [Hin Hd].
    destruct p; [discriminate | exact Hin].
  - intros H. exists (DeleteProp u). split; [done|].
    apply filter_In. by split.
Qed.

Lemma props_insert_sound (ps : list NodeProperty) :
  forall rows,
    props_insert ps = Ok rows ->
    forall row, In row rows ->
      exists p, In p ps /\ is_DeleteProperty p = false
                /\ row_uri row = prop_uri p /\ row_value row = prop_value p
                /\ sql_bool (prop_read_only p) = Ok row.2.
Proof.
  induction ps as [|p ps IH]; intros rows H row Hin.
  - inversion H; subst. destruct Hin.
  - cbn [props_insert] in H. destruct (is_DeleteProperty p) eqn:Hd.
    + destruct (IH _ H _ Hin) as (q & Hq & Hrest). exists q.
      split; [by right | exact Hrest].
    + destruct (sql_bool (prop_read_only p)) as [ro|] eqn:Hro; [|discriminate].
      destruct (props_insert ps) as [rest|]; [|discriminate].
      cbn in H. inversion H; subst. destruct Hin as [<-|Hin].
      * exists p. repeat split; try done. by left.
      * destruct (IH _ eq_refl _ Hin) as (q & Hq & Hrest). exists q.
        split; [by right | exact Hrest].
Qed.

Lemma props_insert_complete (ps : list NodeProperty) :
  forall rows,
    props_insert ps = Ok rows ->
    forall p, In p ps -> is_DeleteProperty p = false ->
      exists ro, In (prop_uri p, prop_value p, ro) rows.
Proof.
  induction ps as [|q ps IH]; intros rows H p Hin Hd; [destruct Hin|].
  cbn [props_insert] in H. destruct (is_DeleteProperty q) eqn:Hq.
  - destruct Hin as [->|Hin]; [congruence|]. by apply IH.
  - destruct (sql_bool (prop_read_only q)) as [ro|]; [|discriminate].
    destruct (props_insert ps) as [rest|] eqn:Hrest; [|discriminate].
    cbn in H. inversion H; subst. destruct Hin as [->|Hin].
    + exists ro. by left.
    + destruct (IH _ eq_refl _ Hin Hd) as (ro' & Hro'). exists ro'. by right.
Qed.

Lemma partition_length (ps : list NodeProperty) rows :
  props_insert ps = Ok rows ->
  (length rows + length (props_delete ps) = length ps)%nat.
Proof.
  revert rows. induction ps as [|p ps IH]; intros rows H.
  - by inversion H.
  - cbn [props_insert] in H. unfold props_delete in *. cbn [List.filter].
    destruct (is_DeleteProperty p).
    + cbn. rewrite <- (IH _ H). lia.
    + destruct (sql_bool (prop_read_only p)); [|discriminate].
      destruct (props_insert ps) as [rest|]; [|discriminate].
      cbn in H. inversion H; subst. cbn. by rewrite (IH _ eq_refl).
Qed.

Lemma set_owner_groups_properties (n : Node) (r : NodeRow) :
  node_properties (set_owner_groups n r) = node_properties n
  /\ Model.node_path (set_owner_groups n r) = Model.node_path n.
Proof. by destruct n. Qed.

Section Operation.
Variable space_id : Z.
Variable permits : option string -> string -> Context -> result bool.

(** The table [update_properties] leaves, when it gets that far. *)
Definition updated_table (node : Node) (path_tree : string)
    (rows : list (string * option string * option bool))
    (t : gmap PropKey PropRow) : gmap PropKey PropRow :=
  fold_left (delete_property path_tree space_id)
    (props_delete (node_properties node))
    (fold_left (upsert_property path_tree space_id) rows t).

(** [update_properties] consults the hook once, on the node with the
    owner and the groups of the row [fetchrow] returned. *)
Lemma update_properties_result node conn identity path_tree rows r rest :
  path_to_ltree (Model.node_path node) = Ok path_tree ->
  List.filter (node_where space_id path_tree (node_type node)) (nodes conn)
  = r :: rest ->
  permits identity "setNode" (SetNodeCtx (set_owner_groups node r)) = Ok true ->
  props_insert (node_properties node) = Ok rows ->
  update_properties space_id permits node conn identity
  = Ok (mkDB (nodes conn)
          (updated_table node path_tree rows (properties conn))).
Proof.
  intros Hpath Hf Hperm Hrows. unfold update_properties.
  rewrite Hpath. cbn. rewrite Hf, Hperm. cbn.
  destruct (set_owner_groups_properties node r) as [-> _].
  rewrite Hrows. reflexivity.
Qed.

Lemma update_properties_returns node conn identity path_tree rows r :
  path_to_ltree (Model.node_path node) = Ok path_tree ->
  In r (nodes conn) ->
  node_where space_id path_tree (node_type node) r = true ->
  (forall ctx, permits identity "setNode" ctx = Ok true) ->
  props_insert (node_properties node) = Ok rows ->
  update_properties space_id permits node conn identity
  = Ok (mkDB (nodes conn)
          (updated_table node path_tree rows (properties conn))).
Proof.
  intros Hpath Hin Hwhere Hperm Hrows.
  destruct (List.filter (node_where space_id path_tree (node_type node))
              (nodes conn)) as [|r0 rest] eqn:Hf.
  - assert (In r (List.filter
                    (node_where space_id path_tree (node_type node))
                    (nodes conn))) as H by (apply filter_In; by split).
    rewrite Hf in H. destruct H.
  - exact (update_properties_result node conn identity path_tree rows r0 rest
             Hpath Hf (Hperm _) Hrows).
Qed.

(** C5, as the code has it. [update_properties], on a node whose row
    exists and which the [setNode] hook admits, returns, and
    - it partitions the supplied properties: each delete marker gives its
      URI to the delete statement, each other property gives one row to the
      upsert statement, and nothing else is written;
    - a stored row of the node whose flag is not [False] (it is [True], or
      the row was stored without a flag) is left as it is, with its value,
      whatever upserts and delete markers are supplied for it;
    - a stored row ends with another value only if its flag is [False] and
      a supplied value differs from the stored one, and it is removed only
      if its flag is [False] and a delete marker names it;
    - a stored row whose flag is [False] is removed by a delete marker, and
      takes the supplied value when that value differs from the stored one.
    "Differs" is the statement's own test [properties.value != $2], which
    holds of two values that are both present and distinct. *)
Theorem update_properties_respects_read_only
  (node : Node) (conn : DB) (identity : option string)
  (path_tree : string)
  (rows : list (string * option string * option bool))
  (r : NodeRow) (rest : list NodeRow) :
  path_to_ltree (Model.node_path node) = Ok path_tree ->
  List.filter (node_where space_id path_tree (node_type node)) (nodes conn)
  = r :: rest ->
  permits identity "setNode" (SetNodeCtx (set_owner_groups node r)) = Ok true ->
  props_insert (node_properties node) = Ok rows ->
  exists db',
    update_properties space_id permits node conn identity = Ok db'
    /\ properties db'
       = fold_left (delete_property path_tree space_id)
           (props_delete (node_properties node))
           (fold_left (upsert_property path_tree space_id) rows
              (properties conn))
    /\ (forall p, In p (node_properties node) ->
          if is_DeleteProperty p
          then In (prop_uri p) (props_delete (node_properties node))
          else exists ro, In (prop_uri p, prop_value p, ro) rows)
    /\ (length rows + length (props_delete (node_properties node))
        = length (node_properties node))%nat
    /\ (forall u old,
          properties conn !! (u, path_tree, space_id) = Some old ->
          not_read_only old = false ->
          properties db' !! (u, path_tree, space_id) = Some old)
    /\ (forall u old new,
          properties conn !! (u, path_tree, space_id) = Some old ->
          properties db' !! (u, path_tree, space_id) = Some new ->
          new <> old ->
          not_read_only old = true
          /\ exists p, In p (node_properties node)
                       /\ is_DeleteProperty p = false /\ prop_uri p = u
                       /\ sql_neq (prop_row_value old) (prop_value p) = true)
    /\ (forall u old,
          properties conn !! (u, path_tree, space_id) = Some old ->
          properties db' !! (u, path_tree, space_id) = None ->
          not_read_only old = true /\ In (DeleteProp u) (node_properties node))
    /\ (forall u old,
          properties conn !! (u, path_tree, space_id) = Some old ->
          not_read_only old = true ->
          In (DeleteProp u) (node_properties node) ->
          properties db' !! (u, path_tree, space_id) = None)
    /\ (forall u v ro persist old,
          properties conn !! (u, path_tree, space_id) = Some old ->
          not_read_only old = true ->
          In (Prop_ u v ro persist) (node_properties node) ->
          (forall q, In q (node_properties node) -> prop_uri q = u ->
                     q = Prop_ u v ro persist) ->
          sql_neq (prop_row_value old) v = true ->
          properties db' !! (u, path_tree, space_id)
          = Some (mkPropRow v (Some false))).
Proof.
  intros Hpath Hfetch Hperm Hrows.
  eexists. split;
    [exact (update_properties_result node conn identity path_tree rows r rest
              Hpath Hfetch Hperm Hrows)|].
  cbn [properties]. unfold updated_table.
  split; [reflexivity|].
  set (t1 := fold_left (upsert_property path_tree space_id) rows
               (properties conn)).
  assert (Hdel : forall u,
             fold_left (delete_property path_tree space_id)
               (props_delete (node_properties node)) t1
               !! (u, path_tree, space_id)
             = t1 !! (u, path_tree, space_id)
             \/ (fold_left (delete_property path_tree space_id)
                   (props_delete (node_properties node)) t1
                   !! (u, path_tree, space_id) = None
                 /\ In (DeleteProp u) (node_properties node)
                 /\ exists r1, t1 !! (u, path_tree, space_id) = Some r1
                               /\ not_read_only r1 = true)).
  { intros u.
    destruct (deletes_change_only_when path_tree space_id
                (props_delete (node_properties node)) t1 u)
      as [Hs|(Hn & Hd & Hr)]; [by left|].
    right. split; [done|]. split; [by apply props_delete_In | done]. }
  assert (Hflag : forall u old,
             properties conn !! (u, path_tree, space_id) = Some old ->
             exists r1, t1 !! (u, path_tree, space_id) = Some r1
                        /\ not_read_only r1 = not_read_only old).
  { intros u old Hold.
    destruct (upserts_keep_flag path_tree space_id rows _ u old Hold)
      as (r1 & Hr1 & Hf).
    exists r1. split; [done|]. unfold not_read_only. by rewrite Hf. }
  assert (Hups : forall u old,
             properties conn !! (u, path_tree, space_id) = Some old ->
             t1 !! (u, path_tree, space_id) = Some old
             \/ (not_read_only old = true
                 /\ exists p, In p (node_properties node)
                      /\ is_DeleteProperty p = false /\ prop_uri p = u
                      /\ sql_neq (prop_row_value old) (prop_value p) = true)).
  { intros u old Hold.
    destruct (upserts_change_only_when path_tree space_id rows _ u old Hold)
      as [Hsame|(Hro & row & Hrow & Hu & Hd)]; [by left|].
    right. split; [done|].
    destruct (props_insert_sound _ _ Hrows _ Hrow)
      as (p & Hp & Hpd & Hpu & Hpv & _).
    exists p. repeat split; try done; congruence. }
  split; [|split; [|split; [|split; [|split; [|split]]]]].
  - intros p Hp. destruct p as [u v ro pe|u]; cbn [is_DeleteProperty].
    + apply (props_insert_complete _ _ Hrows _ Hp eq_refl).
    + by apply props_delete_In.
  - by apply partition_length.
  - intros u old Hold Hro.
    apply deletes_keep_read_only; [|done]. by apply upserts_keep_read_only.
  - intros u old new Hold Hnew Hne.
    destruct (Hups u old Hold) as [Hsame|Hchanged]; [|done].
    destruct (Hdel u) as [Hs|(Hn & _)]; congruence.
  - intros u old Hold Hnone.
    destruct (Hflag u old Hold) as (r1 & Hr1 & Hf).
    destruct (Hdel u) as [Hs|(_ & Hd & r2 & Hr2 & Hro2)]; [congruence|].
    split; [congruence | done].
  - intros u old Hold Hro Hd.
    apply deletes_remove; [by apply props_delete_In|].
    destruct (Hflag u old Hold) as (r1 & Hr1 & Hf). fold t1.
    match goal with
    | |- match ?x with _ => _ end => replace x with (Some r1) by (symmetry; exact Hr1)
    end. congruence.
  - intros u v ro pe old Hold Hro Hp Huniq Hneq.
    rewrite deletes_other.
    + unfold t1. rewrite (upserts_set_value path_tree space_id rows _ u v old);
        try done.
      * rewrite Hneq, andb_true_r.
        destruct (props_insert_complete _ _ Hrows _ Hp eq_refl) as (ro' & Hro').
        assert (existsb (fun row => String.eqb (row_uri row) u) rows = true)
          as ->.
        { apply existsb_exists. exists (u, v, ro'). split; [done|].
          apply String.eqb_refl. }
        unfold not_read_only in Hro.
        destruct old as [ov [[]|]]; cbn in *; done.
      * intros row Hrow Hu.
        destruct (props_insert_sound _ _ Hrows _ Hrow)
          as (q & Hq & _ & Hqu & Hqv & _).
        rewrite Hqv. rewrite (Huniq q Hq); [done | congruence].
    + intros Hd. apply props_delete_In in Hd.
      specialize (Huniq _ Hd eq_refl). discriminate.
Qed.

End Operation.

(** A node [a/b] of space 1 with a read-only and a writable property. *)
Definition stored_db : DB :=
  mkDB [mkNodeRow 1 "b" "a.b" (Some "alice") 1 None false [] []]
    (<[("ivo://ivoa.net/vospace/core#title", "a.b", 1)
       := mkPropRow (Some "Old title") (Some false)]>
       (<[("ivo://ivoa.net/vospace/core#date", "a.b", 1)
          := mkPropRow (Some "2018") (Some true)]> ∅)).

Definition update_request : Node :=
  DataNode KDataNode
    (mkBase "a/b"
       [Prop_ "ivo://ivoa.net/vospace/core#date" (Some "2019") (PyBool false) true;
        DeleteProp "ivo://ivoa.net/vospace/core#date";
        Prop_ "ivo://ivoa.net/vospace/core#title" (Some "New title")
          (PyBool false) true]
       None [] [])
    (mkData [] [] false).

Definition admit_all (identity : option string) (permission : string)
    (context : Context) : result bool := Ok true.

Lemma update_properties_respects_read_only_witness :
  exists db',
    update_properties 1 admit_all update_request stored_db (Some "alice")
    = Ok db'
    /\ properties db' !! ("ivo://ivoa.net/vospace/core#date", "a.b", 1)
       = Some (mkPropRow (Some "2018") (Some true))
    /\ properties db' !! ("ivo://ivoa.net/vospace/core#title", "a.b", 1)
       = Some (mkPropRow (Some "New title") (Some false)).
Proof.
  destruct (update_properties_respects_read_only 1 admit_all
              update_request stored_db (Some "alice") "a.b"
              [("ivo://ivoa.net/vospace/core#date", Some "2019", Some false);
               ("ivo://ivoa.net/vospace/core#title", Some "New title",
                Some false)]
              (mkNodeRow 1 "b" "a.b" (Some "alice") 1 None false [] []) []
              eq_refl eq_refl eq_refl eq_refl)
    as (db' & Hdb & _ & _ & _ & Hro & _ & _ & _ & Hup).
  exists db'. split; [exact Hdb|]. split.
  - apply Hro; vm_compute; reflexivity.
  - apply (Hup _ _ (PyBool false) true (mkPropRow (Some "Old title") (Some false)));
      try (vm_compute; reflexivity).
    + cbn. right. right. left. reflexivity.
    + intros q [<-|[<-|[<-|[]]]]; cbn; intros Hq; try discriminate. reflexivity.
Defined.

(** The node [a/b] of space 1, with no property stored yet. *)
Definition bare_db : DB :=
  mkDB [mkNodeRow 1 "b" "a.b" (Some "alice") 1 None false [] []] ∅.

(** A first request stores four properties: a title without a value and
    a description, both with [readOnly] false, and a date and a subject
    without a [readOnly] flag, as a document that omits the attribute is
    parsed. *)
Definition first_request : Node :=
  DataNode KDataNode
    (mkBase "a/b"
       [Prop_ "ivo://ivoa.net/vospace/core#title" None (PyBool false) true;
        Prop_ "ivo://ivoa.net/vospace/core#description" (Some "Old")
          (PyBool false) true;
        Prop_ "ivo://ivoa.net/vospace/core#date" (Some "2018") PyNone true;
        Prop_ "ivo://ivoa.net/vospace/core#subject" (Some "Stars") PyNone true]
       None [] [])
    (mkData [] [] false).

(** A second request gives the title a value, takes the value of the
    description away, changes the date and deletes the subject. *)
Definition second_request : Node :=
  DataNode KDataNode
    (mkBase "a/b"
       [Prop_ "ivo://ivoa.net/vospace/core#title" (Some "New") (PyBool false)
          true;
        Prop_ "ivo://ivoa.net/vospace/core#description" None (PyBool false)
          true;
        Prop_ "ivo://ivoa.net/vospace/core#date" (Some "2019") (PyBool false)
          true;
        DeleteProp "ivo://ivoa.net/vospace/core#subject"]
       None [] [])
    (mkData [] [] false).

(** C5, as stated, fails. None of the four properties the first request
    stored is read-only, and the second request changes none of them:
    the title and the description have [readOnly] false and keep their
    values, because the comparison with an absent value is not true; the
    date and the subject, stored without a flag, do not pass
    [read_only=False] and are neither updated nor deleted. *)
Lemma update_properties_leaves_writable_rows :
  exists db1 db2,
    update_properties 1 admit_all first_request bare_db (Some "alice")
    = Ok db1
    /\ update_properties 1 admit_all second_request db1 (Some "alice")
       = Ok db2
    /\ properties db1 !! ("ivo://ivoa.net/vospace/core#title", "a.b", 1)
       = Some (mkPropRow None (Some false))
    /\ properties db2 !! ("ivo://ivoa.net/vospace/core#title", "a.b", 1)
       = Some (mkPropRow None (Some false))
    /\ properties db1 !! ("ivo://ivoa.net/vospace/core#description", "a.b", 1)
       = Some (mkPropRow (Some "Old") (Some false))
    /\ properties db2 !! ("ivo://ivoa.net/vospace/core#description", "a.b", 1)
       = Some (mkPropRow (Some "Old") (Some false))
    /\ properties db1 !! ("ivo://ivoa.net/vospace/core#date", "a.b", 1)
       = Some (mkPropRow (Some "2018") None)
    /\ properties db2 !! ("ivo://ivoa.net/vospace/core#date", "a.b", 1)
       = Some (mkPropRow (Some "2018") None)
    /\ properties db1 !! ("ivo://ivoa.net/vospace/core#subject", "a.b", 1)
       = Some (mkPropRow (Some "Stars") None)
    /\ properties db2 !! ("ivo://ivoa.net/vospace/core#subject", "a.b", 1)
       = Some (mkPropRow (Some "Stars") None).
Proof.
  do 2 eexists. split; [reflexivity|]. split; [reflexivity|].
  repeat split; vm_compute; reflexivity.
Qed.

End UpdateFacts.


(** ** Guided insertion into a container tree *)

Module TreeFacts.
Import Model StrFacts.

(** The children of a container, the child under a name, and the container
    with the child under a name replaced. *)
Definition children_of (n : Node) : list (string * Node) :=
  match n with ContainerNode _ _ nodes => nodes | _ => [] end.

Definition child (n : Node) (k : string) : option Node :=
  odict_get k (children_of n).

Definition set_child (n : Node) (k : string) (c : Node) : Node :=
  match n with
  | ContainerNode b d nodes => ContainerNode b d (odict_set k c nodes)
  | _ => n
  end.

Definition attach (n : Node) (k : string) (c : Node) : Node :=
  match n with
  | ContainerNode b d nodes => ContainerNode b d (nodes ++ [(k, c)])
  | _ => n
  end.

(** A container whose path has the segments [segs] and whose children sit
    under their names: what [add_node] maintains. *)
Definition container_at (segs : list string) (n : Node) : Prop :=
  is_ContainerNode n = true
  /\ node_path n = path_of segs
  /\ Forall (fun s => seg_ok s = true) segs
  /\ forall k c, child n k = Some c -> node_path c = path_of (segs ++ [k]).

(** A node whose path lies [rel] below the path with segments [segs]. *)
Definition descendant_at (segs rel : list string) (node : Node) : Prop :=
  node_path node = path_of (segs ++ rel)
  /\ rel <> []
  /\ Forall (fun s => seg_ok s = true) rel.

Lemma odict_set_fresh {A : Type} (k : string) (v : A) (d : list (string * A)) :
  odict_get k d = None -> odict_set k v d = d ++ [(k, v)].
Proof.
  induction d as [|[k' v'] d IH]; cbn; [done|].
  destruct (String.eqb k' k); [done|]. intros H. by rewrite IH.
Qed.

Lemma odict_get_set {A : Type} (k : string) (v : A) (d : list (string * A)) :
  odict_get k (odict_set k v d) = Some v.
Proof.
  induction d as [|[k' v'] d IH]; cbn.
  - by rewrite String.eqb_refl.
  - destruct (String.eqb k' k) eqn:E; cbn.
    + by rewrite String.eqb_refl.
    + by rewrite E.
Qed.

(** The segments [insert_node_into_tree] walks are those of the node's path
    below the container's. *)
Lemma relative_segments (segs rel : list string) :
  Forall (fun s => seg_ok s = true) segs ->
  rel <> [] -> Forall (fun s => seg_ok s = true) rel ->
  PyStr.startswith (path_of segs) (path_of (segs ++ rel)) = true
  /\ String.eqb (path_of (segs ++ rel)) (path_of segs) = false
  /\ PyStr.filter_nonempty
       (PyStr.split "/"
          (PyStr.drop (String.length (path_of segs)) (path_of (segs ++ rel))))
     = rel.
Proof.
  intros Hsegs Hne Hrel.
  destruct (path_of_nonempty rel Hne Hrel) as (Hn & _).
  destruct segs as [|s segs].
  - change (path_of ([] ++ rel)) with (path_of rel).
    change (path_of []) with "". cbn [String.length PyStr.drop].
    repeat split.
    + unfold PyStr.startswith. destruct (path_of rel); reflexivity.
    + apply String.eqb_neq. intros E. by rewrite E in Hn.
    + rewrite split_path_of by done. by apply filter_nonempty_segs.
  - rewrite path_of_app by done. repeat split.
    + apply prefix_app.
    + apply String.eqb_neq. intros E. apply append_same_l in E. discriminate.
    + rewrite drop_length_app. cbn [PyStr.split]. rewrite Ascii.eqb_refl.
      rewrite split_path_of by done.
      unfold PyStr.filter_nonempty. cbn [List.filter PyStr.nonempty].
      by apply filter_nonempty_segs.
Qed.

Lemma insert_node_into_tree_walks segs rel self node overwrite :
  container_at segs self -> descendant_at segs rel node ->
  insert_node_into_tree self node overwrite
  = _insert_node_into_tree self rel node overwrite.
Proof.
  intros (_ & Hpath & Hsegs & _) (Hnode & Hne & Hrel).
  destruct (relative_segments segs rel Hsegs Hne Hrel) as (H1 & H2 & H3).
  unfold insert_node_into_tree. rewrite Hpath, Hnode, H1, H2. cbn [negb].
  by rewrite H3.
Qed.

(** [add_node] accepts a node that lies one segment below the container. *)
Lemma add_node_child segs k self node :
  container_at segs self -> descendant_at segs [k] node ->
  add_node self node true = Ok (set_child self k node).
Proof.
  intros (Hc & Hpath & Hsegs & _) (Hnode & _ & Hrel).
  inversion Hrel as [|? ? Hk _]; subst.
  destruct (dirname_basename_snoc segs k Hsegs Hk) as [Hd Hb].
  destruct self as [| | |b d nodes]; try discriminate.
  unfold add_node, check_path, dirname, name. rewrite Hnode, Hd, Hb.
  cbn in Hpath. cbn [node_path base]. rewrite Hpath, String.eqb_refl.
  reflexivity.
Qed.

(** C6. Let [self] be a container whose path has the segments [segs] and
    [node] a node whose path lies the segments [name :: rest] below it.
    [insert_node_into_tree self node overwrite] looks [name] up among the
    children of [self]:
    - a child that is a container, with segments remaining: the result is
      that of the insertion into the child, put back under [name];
    - a child, no segment remaining: with [overwrite] the node replaces
      the child; without, [InvalidArgument('duplicate node <path>')];
    - no child, segments remaining: [InvalidArgument('no path to <path>')]
      (nothing is created);
    - no child, no segment remaining: the node is attached as the last
      child, under its name. *)
Theorem insert_node_into_tree_cases
  (segs : list string) (name : string) (rest : list string)
  (self node : Node) (overwrite : bool) :
  container_at segs self ->
  descendant_at segs (name :: rest) node ->
  (forall c,
      child self name = Some c -> is_ContainerNode c = true -> rest <> [] ->
      container_at (segs ++ [name]) c ->
      insert_node_into_tree self node overwrite
      = c' ← insert_node_into_tree c node overwrite;
        Ok (set_child self name c'))
  /\ (forall c,
        child self name = Some c -> rest = [] ->
        insert_node_into_tree self node true = Ok (set_child self name node)
        /\ child (set_child self name node) name = Some node
        /\ insert_node_into_tree self node false
           = Raise (InvalidArgument ("duplicate node " +:+ node_path node)))
  /\ (child self name = None -> rest <> [] ->
      insert_node_into_tree self node overwrite
      = Raise (InvalidArgument ("no path to " +:+ node_path node)))
  /\ (child self name = None -> rest = [] ->
      insert_node_into_tree self node overwrite = Ok (attach self name node)
      /\ child (attach self name node) name = Some node).
Proof.
  intros Hself Hnode.
  rewrite !(insert_node_into_tree_walks segs (name :: rest) self node)
    by assumption.
  pose proof Hself as (Hc & Hpath & Hsegs & Hchildren).
  pose proof Hnode as (Hnp & _ & Hrel).
  destruct self as [| | |b d nodes]; try discriminate.
  unfold child in *. cbn [children_of] in *.
  split; [|split; [|split]].
  - intros c Hlook Hcc Hrest Hcat.
    rewrite (insert_node_into_tree_walks (segs ++ [name]) rest c node);
      [|assumption|].
    + cbn [_insert_node_into_tree]. rewrite Hlook, Hcc.
      destruct rest as [|r rest]; [done|]. reflexivity.
    + split; [by rewrite <- app_assoc|]. split; [done|]. by inversion Hrel.
  - intros c Hlook ->. cbn [_insert_node_into_tree]. rewrite Hlook.
    rewrite andb_false_r.
    rewrite (add_node_child segs name _ node Hself Hnode).
    cbn [set_child children_of]. repeat split. apply odict_get_set.
  - intros Hlook Hrest. cbn [_insert_node_into_tree]. rewrite Hlook.
    destruct rest; [done|reflexivity].
  - intros Hlook ->. cbn [_insert_node_into_tree]. rewrite Hlook.
    rewrite (add_node_child segs name _ node Hself Hnode).
    cbn [set_child attach children_of]. rewrite (odict_set_fresh _ _ _ Hlook).
    split; [done|]. rewrite <- (odict_set_fresh _ _ _ Hlook).
    apply odict_get_set.
Qed.

(** The tree of the specification's example: root [a] with the container
    [a/b]. *)
Definition container (path : string) (nodes : list (string * Node)) : Node :=
  ContainerNode (mkBase path [] None [] []) (mkData [] [] false) nodes.

Definition leaf (path : string) : Node :=
  DataNode KDataNode (mkBase path [] None [] []) (mkData [] [] false).

Definition tree_a : Node := container "a" [("b", container "a/b" [])].

Lemma container_at_tree_a : container_at ["a"] tree_a.
Proof.
  repeat split; [by repeat constructor|].
  intros k c H. unfold child in H. cbn [children_of tree_a container odict_get] in H.
  destruct (String.eqb_spec "b" k) as [<-|]; [|discriminate H].
  inversion H. reflexivity.
Defined.

Lemma insert_node_into_tree_cases_witness :
  insert_node_into_tree tree_a (leaf "a/b/c") false
  = c' ← insert_node_into_tree (container "a/b" []) (leaf "a/b/c") false;
    Ok (set_child tree_a "b" c').
Proof.
  apply (insert_node_into_tree_cases ["a"] "b" ["c"] tree_a (leaf "a/b/c")
           false container_at_tree_a).
  - repeat split; [discriminate | by repeat constructor].
  - reflexivity.
  - reflexivity.
  - discriminate.
  - repeat split; [by repeat constructor|].
    intros k c H. unfold child in H. cbn in H. discriminate.
Defined.

(** The example of the specification, run. *)
Example insert_example :
  insert_node_into_tree tree_a (leaf "a/b/c") false
  = Ok (container "a" [("b", container "a/b" [("c", leaf "a/b/c")])])
  /\ insert_node_into_tree tree_a (leaf "a/x/y") false
     = Raise (InvalidArgument "no path to a/x/y")
  /\ insert_node_into_tree
       (container "a" [("b", container "a/b" [("c", leaf "a/b/c")])])
       (leaf "a/b/c") false
     = Raise (InvalidArgument "duplicate node a/b/c")
  /\ insert_node_into_tree
       (container "a" [("b", container "a/b" [("c", leaf "a/b/c")])])
       (BaseNode (mkBase "a/b/c" [] None [] [])) true
     = Ok (container "a"
             [("b", container "a/b"
                      [("c", BaseNode (mkBase "a/b/c" [] None [] []))])]).
Proof. repeat split; vm_compute; reflexivity. Qed.

End TreeFacts.


(** ** Serialising and parsing a node *)

Module RoundTripFacts.
Import ET Model StrFacts.

(** What the constructors of [Property], [View] and friends have checked. *)
Definition valid_uri (u : string) : bool :=
  is_ok (validate_property_uri (PyStr u)).






Lemma set_uri_valid (u : string) :
  valid_uri u = true -> set_uri (PyStr u) = Ok u.
Proof.
  unfold valid_uri, set_uri. destruct (validate_property_uri (PyStr u)); done.
Qed.


Lemma foldM_append_parsed {A : Type} (parse : Element -> result A)
    (f : Element -> A) (es : list Element) :
  Forall (fun e => parse e = Ok (f e)) es ->
  forall acc, foldM (append_parsed parse) acc es = Ok (acc ++ List.map f es).
Proof.
  induction 1 as [|e es He Hes IH]; intros acc; cbn [foldM List.map].
  - by rewrite app_nil_r.
  - assert (append_parsed parse acc e = Ok (acc ++ [f e])) as ->.
    { unfold append_parsed. by rewrite He. }
    cbn [mbind result_bind]. rewrite IH. by rewrite <- app_assoc.
Qed.






(** *** The shape of a serialised node *)

























(** *** The round trip, class by class *)












(** *** The comparison of the parsed node with the original *)

(** A child as a parser rebuilds it from its reference: the reference
    carries the URI and the type only, so the child has no properties, no
    link target and no children of its own. *)
Definition blank (c : Node) : bool :=
  match node_properties c with [] => true | _ => false end
  && match c with
     | LinkNode _ (Some _) => false
     | ContainerNode _ _ (_ :: _) => false
     | _ => true
     end.






(** Nodes that are [==] are equal by the base comparison, so they are of
    the same class. *)
Lemma Node_eq_base (a b : Node) :
  Node_eq a b = true ->
  Node___eq__ a b = true /\ node_type_text a = node_type_text b.
Proof.
  intros H. assert (Hb : Node___eq__ a b = true).
  { destruct a as [ba|ba ta|[] ba da|ba da na]; cbn [Node_eq] in H;
      try exact H; destruct b as [bb|bb tb|kb bb db|bb db nb];
      try discriminate; cbn [is_DataNode andb] in H;
      rewrite ?andb_true_iff in H; tauto. }
  split; [exact Hb|]. unfold Node___eq__ in Hb.
  rewrite !andb_true_iff in Hb. destruct Hb as [[_ Ht] _].
  by apply String.eqb_eq.
Qed.






Definition sample_node : Node :=
  DataNode KUnstructuredDataNode
    (mkBase "a/b"
       [Prop_ "ivo://ivoa.net/vospace/core#title" (Some "Title") (PyBool true)
          false;
        DeleteProp "ivo://ivoa.net/vospace/core#description"]
       (Some "alice") ["g1"] ["g2"])
    (mkData [mkView "ivo://ivoa.net/vospace/core#anyview"] [] true).










End RoundTripFacts.

(** ** Property lists *)

Module PropertyListFacts.
Import Model.

(** The order [sort_properties] sorts by, and the properties of one URI. *)
Definition uri_le (a b : NodeProperty) : Prop :=
  String.leb (prop_uri a) (prop_uri b) = true.

Definition has_uri (u : string) (p : NodeProperty) : bool :=
  String.eqb (prop_uri p) u.

Lemma leb_refl (s : string) : String.leb s s = true.
Proof. by destruct (String.leb_total s s). Qed.

Lemma leb_false_flip (a b : string) :
  String.leb a b = false -> String.leb b a = true.
Proof. intros H. destruct (String.leb_total a b); congruence. Qed.

Lemma insert_by_uri_perm (p : NodeProperty) (l : list NodeProperty) :
  insert_by_uri p l ≡ₚ p :: l.
Proof.
  induction l as [|q l IH]; cbn; [done|].
  destruct (String.leb (prop_uri p) (prop_uri q)); [done|].
  rewrite IH. apply Permutation_swap.
Qed.

Lemma insert_by_uri_sorted (p : NodeProperty) (l : list NodeProperty) :
  Sorted uri_le l -> Sorted uri_le (insert_by_uri p l).
Proof.
  induction l as [|q l IH]; cbn; intros Hs.
  - by repeat constructor.
  - destruct (String.leb (prop_uri p) (prop_uri q)) eqn:E.
    + constructor; [done|]. by constructor.
    + inversion Hs as [|? ? Hl Hq]; subst. constructor; [by apply IH|].
      destruct l as [|r l]; cbn.
      * constructor. by apply leb_false_flip.
      * destruct (String.leb (prop_uri p) (prop_uri r)).
        -- constructor. by apply leb_false_flip.
        -- constructor. by inversion Hq.
Qed.

Lemma insert_by_uri_stable (u : string) (p : NodeProperty)
    (l : list NodeProperty) :
  List.filter (has_uri u) (insert_by_uri p l)
  = List.filter (has_uri u) (p :: l).
Proof.
  induction l as [|q l IH]; [done|].
  cbn [insert_by_uri].
  destruct (String.leb (prop_uri p) (prop_uri q)) eqn:E; [done|].
  cbn [List.filter] in *. rewrite IH.
  unfold has_uri.
  destruct (String.eqb_spec (prop_uri p) u) as [Hp|Hp]; [|done].
  destruct (String.eqb_spec (prop_uri q) u) as [Hq|Hq]; [|done].
  rewrite Hp, Hq, leb_refl in E. discriminate.
Qed.

Lemma sort_properties_spec (l : list NodeProperty) :
  sort_properties l ≡ₚ l
  /\ Sorted uri_le (sort_properties l)
  /\ forall u : string,
       List.filter (has_uri u) (sort_properties l)
       = List.filter (has_uri u) l.
Proof.
  unfold sort_properties. induction l as [|p l (IH1 & IH2 & IH3)].
  - repeat split; constructor.
  - cbn [fold_right]. split; [|split].
    + rewrite insert_by_uri_perm. by constructor.
    + by apply insert_by_uri_sorted.
    + intros u. rewrite insert_by_uri_stable. cbn [List.filter].
      by rewrite IH3.
Qed.

(** X1. [sort_properties] returns the same properties in ascending order of
    URI, and the properties of one URI keep the order they had: the sort is
    stable. *)
Theorem sort_properties_is_stable_sort (l : list NodeProperty) :
  sort_properties l ≡ₚ l
  /\ Sorted uri_le (sort_properties l)
  /\ forall u : string,
       List.filter (has_uri u) (sort_properties l)
       = List.filter (has_uri u) l.
Proof. exact (sort_properties_spec l). Qed.

End PropertyListFacts.

(** ** Containers and their children *)

Module ContainerFacts.
Import Model StrFacts TreeFacts.

Lemma odict_get_set_other {A : Type} (k k' : string) (v : A)
    (d : list (string * A)) :
  k' <> k -> odict_get k' (odict_set k v d) = odict_get k' d.
Proof.
  intros Hk. induction d as [|[k0 v0] d IH]; cbn.
  - destruct (String.eqb_spec k k'); [congruence|done].
  - destruct (String.eqb_spec k0 k) as [->|Hk0]; cbn.
    + destruct (String.eqb_spec k k'); [congruence|done].
    + destruct (String.eqb k0 k'); [done|exact IH].
Qed.

(** What a successful [add_node] has checked and done. *)
Lemma add_node_inv (self node : Node) (overwrite : bool) (self' : Node) :
  add_node self node overwrite = Ok self' ->
  exists b d nodes,
    self = ContainerNode b d nodes
    /\ path b = dirname node
    /\ (overwrite = false -> odict_get (name node) nodes = None)
    /\ self' = ContainerNode b d (odict_set (name node) node nodes).
Proof.
  destruct self as [| | |b d nodes]; try discriminate.
  unfold add_node, check_path.
  change (node_path (ContainerNode b d nodes)) with (path b).
  destruct (String.eqb_spec (path b) (dirname node)) as [Hp|];
    cbn [negb mbind result_bind]; [|discriminate].
  destruct overwrite; cbn [negb].
  - intros [= <-]. exists b, d, nodes. done.
  - destruct (odict_get (name node) nodes) eqn:E; [discriminate|].
    intros [= <-]. exists b, d, nodes. done.
Qed.

(** X2. After a successful [add_node] the container holds the node under
    the node's name, every other name leads to the child it led to before,
    and the container's own fields are unchanged; the call can only succeed
    for a node whose [dirname] is the container's path and, without
    [overwrite], whose name was free. *)
Theorem add_node_then_lookup (self node : Node) (overwrite : bool)
    (self' : Node) :
  add_node self node overwrite = Ok self' ->
  child self' (name node) = Some node
  /\ (forall k, k <> name node -> child self' k = child self k)
  /\ base self' = base self
  /\ dirname node = node_path self
  /\ (overwrite = false -> child self (name node) = None).
Proof.
  intros H. apply add_node_inv in H as (b & d & nodes & -> & Hp & Hfree & ->).
  unfold child. cbn [children_of base node_path].
  split; [apply odict_get_set|]. split; [|done].
  intros k Hk. by apply odict_get_set_other.
Qed.

Lemma add_node_then_lookup_witness :
  child (container "a" [("b", leaf "a/b")]) (name (leaf "a/b"))
  = Some (leaf "a/b")
  /\ (forall k, k <> name (leaf "a/b") ->
        child (container "a" [("b", leaf "a/b")]) k
        = child (container "a" []) k)
  /\ base (container "a" [("b", leaf "a/b")]) = base (container "a" [])
  /\ dirname (leaf "a/b") = node_path (container "a" [])
  /\ (false = false -> child (container "a" []) (name (leaf "a/b")) = None).
Proof.
  apply (add_node_then_lookup (container "a" []) (leaf "a/b") false).
  reflexivity.
Defined.

(** The last node of [value] named [k]. *)
Definition last_named (k : string) (value : list Node) : option Node :=
  List.find (fun n => String.eqb (name n) k) (rev value).

Lemma last_named_snoc (k : string) (value : list Node) (n : Node) :
  last_named k (value ++ [n])
  = if String.eqb (name n) k then Some n else last_named k value.
Proof. unfold last_named. by rewrite rev_unit. Qed.

Lemma add_all_lookup (b : NodeBase) (d : DataFields) (value : list Node) :
  forall acc : list (string * Node),
    Forall (fun n => dirname n = path b) value ->
    exists nodes,
      foldM (fun s node => add_node s node true) (ContainerNode b d acc) value
      = Ok (ContainerNode b d nodes)
      /\ forall k, odict_get k nodes
                   = match last_named k value with
                     | Some n => Some n
                     | None => odict_get k acc
                     end.
Proof.
  induction value as [|n value IH] using rev_ind; intros acc Hall.
  - exists acc. done.
  - apply Forall_app in Hall as [Hall Hn]. inversion Hn as [|? ? Hd _]; subst.
    destruct (IH acc Hall) as (nodes & Hfold & Hlook).
    exists (odict_set (name n) n nodes). split.
    + clear IH Hlook. revert acc Hfold.
      induction value as [|m value IHv]; intros acc Hfold.
      * cbn in Hfold. injection Hfold as <-. cbn.
        unfold add_node, check_path. cbn [node_path base].
        by rewrite Hd, String.eqb_refl.
      * cbn [foldM app] in *.
        destruct (add_node (ContainerNode b d acc) m true) as [s|e] eqn:E;
          [|discriminate].
        apply add_node_inv in E as (b0 & d0 & nodes0 & [= <- <- <-] & _ & _ & ->).
        cbn [mbind result_bind] in *. inversion Hall; subst.
        by apply IHv.
    + intros k. rewrite last_named_snoc.
      destruct (String.eqb_spec (name n) k) as [<-|Hk].
      * apply odict_get_set.
      * rewrite odict_get_set_other by done. apply Hlook.
Qed.

Lemma add_all_fails (b : NodeBase) (d : DataFields) (value : list Node) :
  forall acc : list (string * Node),
    Exists (fun n => dirname n <> path b) value ->
    is_ok (foldM (fun s node => add_node s node true) (ContainerNode b d acc)
             value) = false.
Proof.
  induction value as [|n value IH]; intros acc Hex; [by inversion Hex|].
  cbn [foldM].
  destruct (add_node (ContainerNode b d acc) n true) as [s|e] eqn:E; [|done].
  apply add_node_inv in E as (b0 & d0 & nodes0 & [= <- <- <-] & Hp & _ & ->).
  cbn [mbind result_bind]. inversion Hex as [? ? Hn|? ? Hrest]; subst.
  - by rewrite Hp in Hn.
  - by apply IH.
Qed.

(** X3. The [nodes] setter with a non-empty list discards the children the
    container had and adds the listed nodes in order: it succeeds when every
    listed node's [dirname] is the container's path, and then each name leads
    to the last listed node of that name; it fails when some listed node lies
    elsewhere. With an empty list it leaves the children as they are. *)
Theorem nodes_setter_replaces_children (b : NodeBase) (d : DataFields)
    (old : list (string * Node)) (value : list Node) :
  value <> [] ->
  (Forall (fun n => dirname n = path b) value ->
   exists nodes,
     nodes_setter (ContainerNode b d old) value = Ok (ContainerNode b d nodes)
     /\ forall k, odict_get k nodes = last_named k value)
  /\ (Exists (fun n => dirname n <> path b) value ->
      is_ok (nodes_setter (ContainerNode b d old) value) = false)
  /\ nodes_setter (ContainerNode b d old) [] = Ok (ContainerNode b d old).
Proof.
  intros Hne. destruct value as [|n value]; [done|].
  cbn [nodes_setter]. split; [|split; [|done]].
  - intros Hall. destruct (add_all_lookup b d (n :: value) [] Hall)
      as (nodes & Hfold & Hlook).
    exists nodes. split; [exact Hfold|]. intros k. rewrite Hlook.
    by destruct (last_named k (n :: value)).
  - apply add_all_fails.
Qed.

Lemma nodes_setter_replaces_children_witness :
  (Forall (fun n => dirname n = "a") [leaf "a/b"; leaf "a/c"] ->
   exists nodes,
     nodes_setter (container "a" [("x", leaf "a/x")]) [leaf "a/b"; leaf "a/c"]
     = Ok (container "a" nodes)
     /\ forall k, odict_get k nodes = last_named k [leaf "a/b"; leaf "a/c"])
  /\ (Exists (fun n => dirname n <> "a") [leaf "a/b"; leaf "a/c"] ->
      is_ok (nodes_setter (container "a" [("x", leaf "a/x")])
               [leaf "a/b"; leaf "a/c"]) = false)
  /\ nodes_setter (container "a" [("x", leaf "a/x")]) []
     = Ok (container "a" [("x", leaf "a/x")]).
Proof.
  apply (nodes_setter_replaces_children (mkBase "a" [] None [] [])
           (mkData [] [] false) [("x", leaf "a/x")] [leaf "a/b"; leaf "a/c"]).
  discriminate.
Defined.

(** A tree in which every child sits under its own name and directly below
    its container. *)
Fixpoint well_formed (n : Node) : bool :=
  match n with
  | ContainerNode b _ nodes =>
      (fix all (l : list (string * Node)) : bool :=
         match l with
         | [] => true
         | (k, c) :: r =>
             String.eqb k (name c) && String.eqb (dirname c) (path b)
             && well_formed c && all r
         end) nodes
  | _ => true
  end.

Definition child_well_formed (b : NodeBase) (kc : string * Node) : bool :=
  String.eqb (fst kc) (name (snd kc))
  && String.eqb (dirname (snd kc)) (path b)
  && well_formed (snd kc).

Lemma well_formed_container (b : NodeBase) (d : DataFields)
    (nodes : list (string * Node)) :
  well_formed (ContainerNode b d nodes)
  = forallb (child_well_formed b) nodes.
Proof.
  induction nodes as [|[k c] nodes IH]; [done|].
  cbn [forallb]. rewrite <- IH. reflexivity.
Qed.

Lemma forallb_odict_get {A : Type} (P : string * A -> bool) (k : string)
    (c : A) (d : list (string * A)) :
  forallb P d = true -> odict_get k d = Some c -> P (k, c) = true.
Proof.
  induction d as [|[k0 v0] d IH]; cbn; [done|].
  intros [H0 Hd]%andb_true_iff.
  destruct (String.eqb_spec k0 k) as [<-|]; [|by apply IH].
  by intros [= <-].
Qed.

Lemma forallb_odict_set {A : Type} (P : string * A -> bool) (k : string)
    (v : A) (d : list (string * A)) :
  forallb P d = true -> P (k, v) = true -> forallb P (odict_set k v d) = true.
Proof.
  intros Hd Hv. induction d as [|[k0 v0] d IH]; cbn in *.
  - by rewrite Hv.
  - apply andb_true_iff in Hd as [H0 Hd].
    destruct (String.eqb k0 k); cbn; [by rewrite Hv|]. rewrite H0. by apply IH.
Qed.

(** The insertion changes the children of a container only. *)
Lemma _insert_node_into_tree_base (node : Node) (overwrite : bool)
    (path_split : list string) :
  forall parent r,
    _insert_node_into_tree parent path_split node overwrite = Ok r ->
    base r = base parent /\ is_ContainerNode r = is_ContainerNode parent.
Proof.
  induction path_split as [|k ps IH]; intros parent r H.
  - cbn in H. by injection H as <-.
  - cbn [_insert_node_into_tree] in H.
    destruct parent as [| | |b d nodes]; try discriminate.
    destruct (odict_get k nodes) as [c|] eqn:E.
    + destruct (is_ContainerNode c && negb (Nat.eqb (length ps) 0)).
      * destruct (_insert_node_into_tree c ps node overwrite); [|discriminate].
        cbn in H. by injection H as <-.
      * destruct overwrite; [|discriminate].
        destruct (add_node (ContainerNode b d nodes) node true) as [p'|] eqn:Ea;
          [|discriminate].
        cbn [mbind result_bind] in H. destruct ps; [|discriminate].
        injection H as <-.
        by apply add_node_inv in Ea as (? & ? & ? & [= <- <- <-] & _ & _ & ->).
    + destruct ps; [|discriminate].
      by apply add_node_inv in H as (? & ? & ? & [= <- <- <-] & _ & _ & ->).
Qed.

Lemma add_node_well_formed (parent node r : Node) (overwrite : bool) :
  well_formed parent = true -> well_formed node = true ->
  add_node parent node overwrite = Ok r -> well_formed r = true.
Proof.
  intros Hp Hn H.
  apply add_node_inv in H as (b & d & nodes & -> & Hd & _ & ->).
  rewrite well_formed_container in *. apply forallb_odict_set; [done|].
  unfold child_well_formed. cbn [fst snd].
  by rewrite String.eqb_refl, Hd, String.eqb_refl, Hn.
Qed.

Lemma _insert_node_into_tree_well_formed (node : Node) (overwrite : bool)
    (path_split : list string) :
  well_formed node = true ->
  forall parent r,
    well_formed parent = true ->
    _insert_node_into_tree parent path_split node overwrite = Ok r ->
    well_formed r = true.
Proof.
  intros Hn. induction path_split as [|k ps IH]; intros parent r Hp H.
  - cbn in H. by injection H as <-.
  - cbn [_insert_node_into_tree] in H.
    destruct parent as [| | |b d nodes]; try discriminate.
    destruct (odict_get k nodes) as [c|] eqn:E.
    + destruct (is_ContainerNode c && negb (Nat.eqb (length ps) 0)).
      * destruct (_insert_node_into_tree c ps node overwrite) as [c'|] eqn:Ec;
          [|discriminate].
        cbn in H. injection H as <-.
        rewrite well_formed_container in *.
        pose proof (forallb_odict_get _ _ _ _ Hp E) as Hc.
        unfold child_well_formed in Hc. cbn [fst snd] in Hc.
        apply andb_true_iff in Hc as [[Hk Hd]%andb_true_iff Hwc].
        destruct (_insert_node_into_tree_base _ _ _ _ _ Ec) as [Hb _].
        apply forallb_odict_set; [done|].
        unfold child_well_formed, name, dirname, node_path in *.
        cbn [fst snd]. rewrite Hb, Hk, Hd. cbn [andb].
        by apply (IH c).
      * destruct overwrite; [|discriminate].
        destruct (add_node (ContainerNode b d nodes) node true) as [p'|] eqn:Ea;
          [|discriminate].
        cbn [mbind result_bind] in H. destruct ps; [|discriminate].
        injection H as <-. by apply (add_node_well_formed _ _ _ _ Hp Hn Ea).
    + destruct ps; [|discriminate].
      by apply (add_node_well_formed _ _ _ _ Hp Hn H).
Qed.

(** X4. [insert_node_into_tree] keeps a tree well formed: when every child
    of the tree (and of the inserted node) sits under its own name in the
    container whose path is its [dirname], the same holds of the tree after
    a successful insertion, and the root's own fields are unchanged. *)
Theorem insert_node_into_tree_keeps_well_formed (self node : Node)
    (overwrite : bool) (self' : Node) :
  well_formed self = true -> well_formed node = true ->
  insert_node_into_tree self node overwrite = Ok self' ->
  well_formed self' = true /\ base self' = base self.
Proof.
  unfold insert_node_into_tree. intros Hs Hn H.
  destruct (negb (PyStr.startswith (node_path self) (node_path node)));
    [discriminate|].
  destruct (String.eqb (node_path node) (node_path self)); [discriminate|].
  split.
  - by apply (_insert_node_into_tree_well_formed _ _ _ Hn _ _ Hs H).
  - by apply (_insert_node_into_tree_base _ _ _ _ _ H).
Qed.

Lemma insert_node_into_tree_keeps_well_formed_witness :
  well_formed
    (container "a" [("b", container "a/b" [("c", leaf "a/b/c")])]) = true
  /\ base (container "a" [("b", container "a/b" [("c", leaf "a/b/c")])])
     = base tree_a.
Proof.
  apply (insert_node_into_tree_keeps_well_formed tree_a (leaf "a/b/c") false);
    reflexivity.
Defined.

(** The segments of the node's path below the container's, as
    [insert_node_into_tree] computes them. *)
Definition path_below (self node : Node) : list string :=
  PyStr.filter_nonempty
    (PyStr.split "/"
       (PyStr.drop (String.length (node_path self)) (node_path node))).

Definition walk_child (i : Node) : list Node :=
  if is_ContainerNode i then walk i else [i].

Lemma walk_container (b : NodeBase) (d : DataFields)
    (nodes : list (string * Node)) :
  walk (ContainerNode b d nodes)
  = ContainerNode b d nodes
    :: flat_map (fun kc => walk_child (snd kc)) nodes.
Proof.
  cbn [walk]. f_equal.
  induction nodes as [|[k c] nodes IH]; [done|].
  cbn [flat_map snd]. by rewrite <- IH.
Qed.

Lemma walk_head (n : Node) : head (walk n) = Some n.
Proof. by destruct n. Qed.

Lemma walk_child_self (i : Node) : In i (walk_child i).
Proof.
  unfold walk_child. destruct (is_ContainerNode i).
  - destruct i; cbn; by left.
  - by left.
Qed.

Lemma walk_below (b : NodeBase) (d : DataFields)
    (nodes : list (string * Node)) (k : string) (c x : Node) :
  odict_get k nodes = Some c -> In x (walk_child c) ->
  In x (walk (ContainerNode b d nodes)).
Proof.
  intros Hk Hx. rewrite walk_container. right.
  apply in_flat_map. exists (k, c). split; [|done].
  clear Hx. induction nodes as [|[k0 c0] nodes IH]; [done|].
  cbn in Hk. destruct (String.eqb_spec k0 k) as [->|].
  - injection Hk as ->. by left.
  - right. by apply IH.
Qed.

Lemma _insert_node_into_tree_walk (node : Node) (overwrite : bool)
    (path_split : list string) :
  forall parent r,
    path_split <> [] ->
    _insert_node_into_tree parent path_split node overwrite = Ok r ->
    In node (walk r).
Proof.
  induction path_split as [|k ps IH]; intros parent r Hne H; [done|].
  cbn [_insert_node_into_tree] in H.
  destruct parent as [| | |b d nodes]; try discriminate.
  assert (Hadd : forall p', add_node (ContainerNode b d nodes) node true = Ok p'
                            -> In node (walk p')).
  { intros p' Ea.
    apply add_node_inv in Ea as (? & ? & ? & [= <- <- <-] & _ & _ & ->).
    eapply walk_below; [apply odict_get_set|apply walk_child_self]. }
  destruct (odict_get k nodes) as [c|] eqn:E.
  - destruct (is_ContainerNode c) eqn:Hc; cbn [andb] in H.
    + destruct ps as [|k' ps']; cbn [length Nat.eqb negb] in H.
      * destruct overwrite; [|discriminate].
        destruct (add_node (ContainerNode b d nodes) node true) as [p'|] eqn:Ea;
          [|discriminate].
        cbn in H. injection H as <-. by apply Hadd.
      * destruct (_insert_node_into_tree c (k' :: ps') node overwrite)
          as [c'|] eqn:Ec; [|discriminate].
        cbn in H. injection H as <-.
        destruct (_insert_node_into_tree_base _ _ _ _ _ Ec) as [_ Hcc].
        eapply walk_below; [apply odict_get_set|].
        unfold walk_child. rewrite Hcc, Hc. by apply (IH c).
    + destruct overwrite; [|discriminate].
      destruct (add_node (ContainerNode b d nodes) node true) as [p'|] eqn:Ea;
        [|discriminate].
      cbn [mbind result_bind] in H. destruct ps; [|discriminate].
      injection H as <-. by apply Hadd.
  - destruct ps; [|discriminate]. by apply Hadd.
Qed.

(** X5. After a successful [insert_node_into_tree] of a node whose path has
    at least one segment below the container's, [Node.walk] over the
    container yields the container first and the inserted node among the
    nodes that follow. *)
Theorem walk_yields_inserted_node (self node : Node) (overwrite : bool)
    (self' : Node) :
  path_below self node <> [] ->
  insert_node_into_tree self node overwrite = Ok self' ->
  head (walk self') = Some self' /\ In node (tail (walk self')).
Proof.
  unfold insert_node_into_tree, path_below. intros Hne H.
  destruct (negb (PyStr.startswith (node_path self) (node_path node)));
    [discriminate|].
  destruct (String.eqb (node_path node) (node_path self)) eqn:Eq;
    [discriminate|].
  split; [apply walk_head|].
  pose proof (_insert_node_into_tree_walk _ _ _ _ _ Hne H) as Hin.
  destruct (_insert_node_into_tree_base _ _ _ _ _ H) as [Hb _].
  destruct self' as [| | |b d nodes]; cbn in Hin |- *;
    destruct Hin as [Hin|Hin]; try done;
    subst node; unfold node_path in Eq; cbn [base] in *;
    rewrite Hb, String.eqb_refl in Eq; discriminate.
Qed.

Lemma walk_yields_inserted_node_witness :
  head (walk (container "a" [("b", container "a/b" [("c", leaf "a/b/c")])]))
  = Some (container "a" [("b", container "a/b" [("c", leaf "a/b/c")])])
  /\ In (leaf "a/b/c")
       (tail (walk (container "a"
                      [("b", container "a/b" [("c", leaf "a/b/c")])]))).
Proof.
  apply (walk_yields_inserted_node tree_a (leaf "a/b/c") false);
    [discriminate | reflexivity].
Defined.

End ContainerFacts.

(** ** Bare paths *)

Module PlainPathFacts.
Import Model StrFacts.

(** A non-empty path of canonical segments without a colon or a semicolon:
    the URL parser reads it as a path and nothing else. *)
Definition plain_path (p : string) : bool :=
  PyStr.nonempty p && canonical_path p
  && negb (PyStr.contains ":" p) && negb (PyStr.contains ";" p).

Lemma plain_path_spec (p : string) :
  plain_path p = true ->
  exists s segs,
    p = path_of (s :: segs)
    /\ Forall (fun s => canonical_seg s = true) (s :: segs)
    /\ PyStr.contains ":" p = false /\ PyStr.contains ";" p = false.
Proof.
  unfold plain_path. rewrite !andb_true_iff, !negb_true_iff.
  intros (((Hn & Hc) & H1) & H2).
  destruct (canonical_path_segs p Hc) as ([|s segs] & -> & Hsegs);
    [discriminate|].
  by exists s, segs.
Qed.

Lemma no_scheme_no_netloc (x : ascii) (tl : string) :
  Ascii.eqb x "/" = false ->
  match String x tl with
  | String "/" (String "/" r) =>
      let '(nl, u) := Url.splitnetloc r in
      if (PyStr.contains "[" nl && negb (PyStr.contains "]" nl))
         || (PyStr.contains "]" nl && negb (PyStr.contains "[" nl))
      then Raise (ValueError "Invalid IPv6 URL")
      else Ok (nl, u)
  | _ => Ok (EmptyString, String x tl)
  end = Ok (EmptyString, String x tl).
Proof.
  intros Hx.
  destruct x as [[] [] [] [] [] [] [] []]; try reflexivity; discriminate Hx.
Qed.

Lemma urlparse_plain_path (p : string) :
  plain_path p = true ->
  Url.urlparse p = Ok (Url.mkParse "" "" p "" "" "").
Proof.
  intros H. destruct (plain_path_spec p H) as (s & segs & Hp & Hsegs & Hc & Hs).
  assert (Hq : PyStr.contains "?" p = false).
  { rewrite Hp. apply contains_path_of_false; [done|].
    eapply Forall_impl; [exact Hsegs|]. intros s0 Hs0.
    by apply canonical_seg_spec in Hs0 as (_ & _ & _ & ? & _). }
  assert (Hh : PyStr.contains "#" p = false).
  { rewrite Hp. apply contains_path_of_false; [done|].
    eapply Forall_impl; [exact Hsegs|]. intros s0 Hs0.
    by apply canonical_seg_spec in Hs0 as (_ & _ & _ & _ & ?). }
  destruct (path_of_nonempty (s :: segs)) as (_ & _ & _ & Hl);
    [done | by apply canonical_segs_ok |].
  rewrite <- Hp in Hl. clear Hp Hsegs.
  destruct p as [|x tl]; [discriminate|].
  apply lstrip_fixed_head in Hl.
  unfold Url.urlparse, Url.urlsplit, Url.split_scheme.
  rewrite (split1_without _ _ Hc).
  rewrite (no_scheme_no_netloc x tl Hl).
  cbn [mbind result_bind].
  rewrite (split1_without _ _ Hh), (split1_without _ _ Hq).
  cbn [mbind result_bind Url.scheme Url.path].
  rewrite Hs. reflexivity.
Qed.

Lemma normpath_steps_relative (comps : list string) :
  forall acc,
    Forall (fun s => canonical_seg s = true) comps ->
    fold_left (Url.normpath_step 0) comps acc = acc ++ comps.
Proof.
  induction comps as [|c comps IH]; intros acc H; [by rewrite app_nil_r|].
  inversion H as [|? ? Hc Hrest]; subst.
  apply canonical_seg_spec in Hc as (Hok & Hdot & Hdots & _).
  apply seg_ok_spec in Hok as [Hne _].
  cbn [fold_left]. unfold Url.normpath_step at 2.
  assert (String.eqb c "" = false) as ->.
  { apply String.eqb_neq. by destruct c. }
  apply String.eqb_neq in Hdot as ->. apply String.eqb_neq in Hdots as ->.
  cbn [orb negb]. rewrite IH by done. by rewrite <- app_assoc.
Qed.

(** [Node.uri_to_path] leaves a plain path as it is. *)
Lemma uri_to_path_plain_path (p : string) :
  plain_path p = true -> uri_to_path (Some p) = Ok p.
Proof.
  intros H. unfold uri_to_path. cbn [opt_str urlparse_val].
  rewrite (urlparse_plain_path p H). cbn [mbind result_bind Url.path].
  destruct (plain_path_spec p H) as (s & segs & -> & Hsegs & _ & _).
  destruct (path_of_nonempty (s :: segs)) as (Hn & _ & Hr & Hl);
    [done | by apply canonical_segs_ok |].
  rewrite Hn. cbn [negb].
  assert (Url.normpath (path_of (s :: segs)) = path_of (s :: segs)) as ->.
  { unfold Url.normpath. rewrite Hn. cbn [negb].
    assert (PyStr.startswith "/" (path_of (s :: segs)) = false) as ->.
    { destruct (path_of (s :: segs)) as [|x tl]; [done|].
      apply lstrip_fixed_head in Hl. unfold PyStr.startswith.
      cbn [String.prefix]. destruct (ascii_dec "/" x) as [<-|]; [discriminate|done]. }
    rewrite split_path_of by (done || by apply canonical_segs_ok).
    rewrite normpath_steps_relative by done. cbn [app].
    fold (path_of (s :: segs)). by rewrite Hn. }
  by rewrite Hl, Hr.
Qed.


End PlainPathFacts.

(** ** Serialising and parsing a transfer *)

Module TransferRoundTripFacts.
Import ET Model StrFacts PlainPathFacts RoundTripFacts.











(** *** Protocol transfers *)
























End TransferRoundTripFacts.

(** ** UWS job documents and result lists *)

Module ResultFacts.
Import ET Model.


(** Everything [UWSJob.toxml] does after the phase lookup succeeds. *)
Lemma UWSJob_toxml_after_lookup (job : UWSJob) (phase_text : string) :
  UWSPhaseLookup (phase job) = Ok phase_text ->
  exists kids, UWSJob_toxml job = Ok (Elem (uws "job") [] None kids).
Proof.
  intros H. unfold UWSJob_toxml. rewrite H. cbn [mbind result_bind].
  destruct job as [id ph de ji rs er]. cbn [job_info results error].
  destruct ji as [t|], rs as [[|r rs]|], er as [[|c e]|];
    cbn; eexists; reflexivity.
Qed.


(** An attribute that [element.set] accepts and that a parser reads back
    as it was set: the name is an XML name without a prefix or a
    namespace, and is not [xmlns]; the value is XML compatible. *)
Definition plain_name (k : string) : bool :=
  xmlValidateNameValue k && negb (PyStr.contains ":" k)
  && negb (String.eqb k "xmlns").

Definition attribute_ok (kv : string * string) : bool :=
  plain_name (fst kv) && xml_compatible (snd kv).

(** A result as [UWSResult.fromroot] builds it: the id is not empty, and
    the attributes form a dictionary that has no [id] key. *)
Definition result_ok (r : UWSResult) : Prop :=
  PyStr.nonempty (result_id r) = true
  /\ xml_compatible (result_id r) = true
  /\ forallb attribute_ok (attrs r) = true
  /\ List.NoDup ("id" :: List.map fst (attrs r)).

Definition result_element (r : UWSResult) : Element :=
  Elem (uws "result") (("id", result_id r) :: attrs r) None [].

Lemma name_char_xml_char (a : ascii) : name_char a = true -> xml_char a = true.
Proof. destruct a as [[] [] [] [] [] [] [] []]; vm_compute; congruence. Qed.

Lemma name_start_char_not_brace (a : ascii) :
  name_start_char a = true -> Ascii.eqb a "{" = false.
Proof. destruct a as [[] [] [] [] [] [] [] []]; vm_compute; congruence. Qed.

Lemma name_start_char_name_char (a : ascii) :
  name_start_char a = true -> name_char a = true.
Proof. unfold name_char. by intros ->. Qed.

Lemma name_xml_compatible (k : string) :
  xmlValidateNameValue k = true -> xml_compatible k = true.
Proof.
  destruct k as [|a r]; [done|]. cbn [xmlValidateNameValue].
  intros [Ha Hr]%andb_true_iff. unfold xml_compatible.
  cbn [PyStr.forallb_char].
  rewrite (name_char_xml_char a (name_start_char_name_char a Ha)).
  cbn [andb]. induction r as [|c r IH]; [done|].
  cbn [PyStr.forallb_char] in Hr |- *.
  apply andb_true_iff in Hr as [Hc Hr].
  by rewrite (name_char_xml_char c Hc), IH.
Qed.

Lemma Element_set_plain (k v : string) (e : Element) :
  plain_name k = true -> xml_compatible v = true ->
  Element_set k v e = Ok (set_attr k v e).
Proof.
  unfold plain_name. intros [[Hname Hcolon]%andb_true_iff _]%andb_true_iff Hv.
  unfold Element_set. rewrite (name_xml_compatible k Hname). cbn [negb].
  destruct k as [|a r]; [done|].
  assert (Hb : Ascii.eqb a "{" = false).
  { apply name_start_char_not_brace.
    cbn [xmlValidateNameValue] in Hname. by apply andb_true_iff in Hname as []. }
  unfold _getNsTag. rewrite Hb. cbn [mbind result_bind].
  by rewrite Hname, Hcolon, Hv.
Qed.

Lemma set_fresh (k v : string) (a : list (string * string)) :
  ~ In k (List.map fst a) -> ET.set k v a = a ++ [(k, v)].
Proof.
  induction a as [|[k0 v0] a IH]; cbn; [done|]. intros H.
  destruct (String.eqb_spec k0 k) as [->|]; [by destruct H; left|].
  rewrite IH; [done|]. intros Hin. apply H. by right.
Qed.

Lemma set_all_fresh (t : string) (x : option string) (c : list Element)
    (kvs : list (string * string)) :
  forallb attribute_ok kvs = true ->
  forall acc,
    List.NoDup (List.map fst (acc ++ kvs)) ->
    foldM (fun r kv => Element_set (fst kv) (snd kv) r) (Elem t acc x c) kvs
    = Ok (Elem t (acc ++ kvs) x c).
Proof.
  induction kvs as [|[k v] kvs IH]; intros Hok acc Hnd; cbn [foldM].
  - by rewrite app_nil_r.
  - cbn [forallb] in Hok. apply andb_true_iff in Hok as [Hkv Hok].
    unfold attribute_ok in Hkv. apply andb_true_iff in Hkv as [Hk Hv].
    cbn [fst snd] in Hk, Hv |- *.
    rewrite (Element_set_plain k v _ Hk Hv). cbn [mbind result_bind set_attr].
    rewrite set_fresh.
    + rewrite (IH Hok); rewrite <- app_assoc; [done|exact Hnd].
    + rewrite List.map_app in Hnd. cbn in Hnd.
      apply List.NoDup_remove_2 in Hnd. intros Hin. apply Hnd.
      apply in_or_app. by left.
Qed.

Lemma UWSResult_toxml_adds (r : UWSResult) (root : Element) :
  result_ok r ->
  UWSResult_toxml r root = Ok (SubElement root (result_element r)).
Proof.
  intros (_ & Hid & Hattrs & Hnd). unfold UWSResult_toxml, result_element.
  rewrite (Element_set_plain "id" (result_id r) _ eq_refl Hid).
  cbn [mbind result_bind Element_new set_attr ET.set].
  by rewrite (set_all_fresh _ _ _ (attrs r) Hattrs [("id", result_id r)]).
Qed.

Lemma results_document (rs : list UWSResult) :
  Forall result_ok rs ->
  forall t a x c,
    foldM (fun elem r => UWSResult_toxml r elem) (Elem t a x c) rs
    = Ok (Elem t a x (c ++ List.map result_element rs)).
Proof.
  induction 1 as [|r rs Hr Hrs IH]; intros t a x c; cbn [foldM List.map].
  - by rewrite app_nil_r.
  - rewrite (UWSResult_toxml_adds r _ Hr). cbn [mbind result_bind SubElement].
    rewrite IH. by rewrite <- app_assoc.
Qed.

Lemma parse_result_element (r : UWSResult) :
  result_ok r -> parse_result (reparse (result_element r)) = Ok r.
Proof.
  intros [Hid _]. unfold parse_result, result_element.
  cbn [reparse attrib get del_attr]. rewrite String.eqb_refl, Hid.
  by destruct r.
Qed.

Lemma parse_result_elements (rs : list UWSResult) :
  Forall result_ok rs ->
  forall acc,
    foldM (append_parsed parse_result) acc
      (List.map (fun r => reparse (result_element r)) rs)
    = Ok (acc ++ rs).
Proof.
  induction 1 as [|r rs Hr Hrs IH]; intros acc; cbn [foldM List.map].
  - by rewrite app_nil_r.
  - assert (append_parsed parse_result acc (reparse (result_element r))
            = Ok (acc ++ [r])) as ->.
    { unfold append_parsed. by rewrite (parse_result_element r Hr). }
    cbn [mbind result_bind]. rewrite IH. by rewrite <- app_assoc.
Qed.

(** X9. The result list of a job survives [results_tostring] followed by
    [UWSResult.fromstring]: when every result has a non-empty id, its
    attributes have distinct keys other than [id], the keys are XML names
    without a prefix or a namespace and other than [xmlns], and the id
    and the values are XML compatible, [results_tostring] returns a
    document and parsing it gives the same results in the same order. *)
Theorem results_fromstring_tostring (job : UWSJob) (rs : list UWSResult) :
  results job = Some rs -> rs <> [] -> Forall result_ok rs ->
  exists xml,
    results_tostring job = Ok (Some xml)
    /\ UWSResult_fromstring xml = Ok rs.
Proof.
  intros Hjob Hne Hall. unfold results_tostring. rewrite Hjob.
  destruct rs as [|r rs]; [done|].
  unfold Element_new. rewrite (results_document _ Hall).
  cbn [mbind result_bind]. eexists. split; [reflexivity|].
  unfold UWSResult_fromstring, UWSResult_fromroot, ET.tostring, ET.fromstring.
  cbn [parsed reparse app norm_text].
  unfold xpath.
  change (has_tag (uws "results") (Elem (uws "results") [] None
            (List.map reparse (List.map result_element (r :: rs)))))
    with true.
  cbn [xpath_from flat_map]. rewrite app_nil_r.
  unfold child_elems. cbn [children].
  rewrite List.map_map.
  assert (List.filter (has_tag (uws "result"))
            (List.map (fun x => reparse (result_element x)) (r :: rs))
          = List.map (fun x => reparse (result_element x)) (r :: rs)) as ->.
  { generalize (r :: rs). intros l. induction l as [|y l IH]; [done|].
    cbn [List.map List.filter].
    change (has_tag (uws "result") (reparse (result_element y))) with true.
    by rewrite IH. }
  by rewrite (parse_result_elements _ Hall).
Qed.

Definition sample_results : list UWSResult :=
  [mkUWSResult "transferDetails" [("href", "/vospace/transfers/1/results")];
   mkUWSResult "dataNode" [("href", "vos://icrar.org!vospace/a/b")]].

Lemma sample_results_ok : Forall result_ok sample_results.
Proof.
  repeat constructor; cbn; intros H;
    repeat (destruct H as [H|H]; [discriminate H|]); exact H.
Defined.

(** The application's own attribute name, [xlink:href] as written in
    server/uws.py, is not one [element.set] accepts. *)
Lemma prefixed_name_raises :
  exists msg,
    results_tostring
      (UWSJob_new "1" 3 "2018-01-01T00:00:00" None
         [mkUWSResult "transferDetails" [("xlink:href", "/vospace/a")]] None)
    = Raise (ValueError msg).
Proof. eexists. reflexivity. Qed.

Lemma results_fromstring_tostring_witness :
  exists xml,
    results_tostring
      (UWSJob_new "1" 3 "2018-01-01T00:00:00" None sample_results None)
    = Ok (Some xml)
    /\ UWSResult_fromstring xml = Ok sample_results.
Proof.
  apply (results_fromstring_tostring
           (UWSJob_new "1" 3 "2018-01-01T00:00:00" None sample_results None)
           sample_results).
  - reflexivity.
  - discriminate.
  - exact sample_results_ok.
Defined.

(** X10. [UWSResult.fromroot] looks for [/uws:results/uws:result] from the
    document root, so on a job document, whose root is [uws:job], it finds
    nothing: parsing the results out of any serialised job gives the empty
    list. *)
Theorem job_document_parses_to_no_results (job : UWSJob) (xml : xmlstr) :
  UWSJob_tostring job = Ok xml -> UWSResult_fromstring xml = Ok [].
Proof.
  unfold UWSJob_tostring. intros H.
  destruct (UWSPhaseLookup (phase job)) as [txt|] eqn:E.
  - destruct (UWSJob_toxml_after_lookup job txt E) as (kids & Hroot).
    rewrite Hroot in H. cbn [mbind result_bind] in H. injection H as <-.
    reflexivity.
  - unfold UWSJob_toxml in H. rewrite E in H. discriminate.
Qed.

Lemma job_document_parses_to_no_results_witness :
  UWSResult_fromstring
    (ET.tostring
       (Elem (uws "job") [] None
          [text_element (uws "jobId") (Some "1");
           nil_element (uws "ownerId");
           text_element (uws "phase") (Some "COMPLETED");
           text_element (uws "quote") None;
           nil_element (uws "startTime");
           nil_element (uws "endTime");
           text_element (uws "executionDuration") (Some "0");
           text_element (uws "destruction") (Some "2018-01-01T00:00:00");
           Elem (uws "results") [] None []]))
  = Ok [].
Proof.
  apply (job_document_parses_to_no_results
           (UWSJob_new "1" 3 "2018-01-01T00:00:00" None sample_results None)).
  reflexivity.
Defined.

End ResultFacts.

(** ** Stored paths and rows *)

Module StoreFacts.
Import Model Database StrFacts PlainPathFacts.

Lemma split_nonempty (c : ascii) (s : string) : PyStr.split c s <> [].
Proof.
  destruct s as [|a s]; cbn; [done|].
  destruct (Ascii.eqb a c); [done|]. by destruct (PyStr.split c s).
Qed.

Lemma filter_nonempty_split_nil (c : ascii) (s : string) :
  PyStr.filter_nonempty (PyStr.split c s) = [] <-> PyStr.all_char c s = true.
Proof.
  unfold PyStr.filter_nonempty.
  induction s as [|a s IH]; cbn [PyStr.split PyStr.all_char]; [done|].
  destruct (Ascii.eqb a c); cbn [andb].
  - exact IH.
  - destruct (PyStr.split c s) as [|h t]; done.
Qed.

Lemma contains_join (c : ascii) (sep : string) (l : list string) :
  PyStr.contains c sep = false ->
  Forall (fun s => PyStr.contains c s = false) l ->
  PyStr.contains c (PyStr.join sep l) = false.
Proof.
  intros Hsep. unfold PyStr.join.
  induction 1 as [|s l Hs Hl IH]; [done|].
  destruct l as [|s' l]; [done|].
  cbn [String.concat] in *. by rewrite !contains_app, Hs, Hsep, IH.
Qed.

Lemma join_contains_inv (c : ascii) (sep : string) (l : list string) :
  PyStr.contains c (PyStr.join sep l) = false ->
  Forall (fun s => PyStr.contains c s = false) l.
Proof.
  unfold PyStr.join. induction l as [|s l IH]; [constructor|].
  destruct l as [|s' l]; cbn [String.concat].
  - by repeat constructor.
  - rewrite !contains_app. intros H.
    apply orb_false_elim in H as [Hs H]. apply orb_false_elim in H as [_ H].
    constructor; [done | by apply IH].
Qed.

Lemma filter_nonempty_head (l : list string) (s : string) (r : list string) :
  PyStr.filter_nonempty l = s :: r -> PyStr.nonempty s = true.
Proof.
  unfold PyStr.filter_nonempty. intros H.
  assert (Hin : In s (List.filter PyStr.nonempty l)) by (rewrite H; by left).
  by apply filter_In in Hin as [_ ?].
Qed.

Lemma filter_nonempty_keeps (c : ascii) (l : list string) :
  Forall (fun s => PyStr.contains c s = false) l ->
  Forall (fun s => PyStr.contains c s = false) (PyStr.filter_nonempty l).
Proof.
  unfold PyStr.filter_nonempty. induction 1 as [|s l Hs Hl IH]; cbn; [done|].
  destruct (PyStr.nonempty s); [by constructor | done].
Qed.

(** X11. [path_to_ltree] rejects exactly the paths that consist of slashes
    only (the empty path among them), with [InvalidURI]; for every other
    path it returns a non-empty label path that contains no slash. *)
Theorem path_to_ltree_defined (p : string) :
  (PyStr.all_char "/" p = true <->
   path_to_ltree p = Raise (InvalidURI "Path is empty"))
  /\ (PyStr.all_char "/" p = false <->
      exists t, path_to_ltree p = Ok t
                /\ PyStr.nonempty t = true /\ PyStr.contains "/" t = false).
Proof.
  unfold path_to_ltree.
  pose proof (filter_nonempty_split_nil "/" p) as Hnil.
  pose proof (filter_nonempty_keeps "/" _ (split_slash_free "/" p)) as Hfree.
  destruct (PyStr.filter_nonempty (PyStr.split "/" p)) as [|s r] eqn:E.
  - assert (Ha : PyStr.all_char "/" p = true) by by apply Hnil.
    rewrite Ha. split; split; try done. by intros (t & H & _).
  - assert (Ha : PyStr.all_char "/" p = false).
    { destruct (PyStr.all_char "/" p); [|done].
      destruct Hnil as [_ Hnil]. discriminate (Hnil eq_refl). }
    rewrite Ha. split; split; try done. intros _.
    eexists. split; [reflexivity|]. split.
    + apply filter_nonempty_head in E. unfold PyStr.join.
      destruct r; cbn [String.concat]; by destruct s.
    + by apply contains_join.
Qed.

Lemma replace_char_app (a b : ascii) (x y : string) :
  replace_char a b (x +:+ y) = replace_char a b x +:+ replace_char a b y.
Proof. induction x as [|c x IH]; cbn; [done|]. by rewrite IH. Qed.

Lemma replace_char_without (a b : ascii) (s : string) :
  PyStr.contains a s = false -> replace_char a b s = s.
Proof.
  induction s as [|c s IH]; cbn; [done|]. intros H.
  apply orb_false_elim in H as [Hc Hs]. by rewrite Hc, IH.
Qed.

Lemma replace_join (segs : list string) :
  Forall (fun s => PyStr.contains "." s = false) segs ->
  replace_char "." "/" (PyStr.join "." segs) = PyStr.join "/" segs.
Proof.
  unfold PyStr.join. induction 1 as [|s l Hs Hl IH]; [done|].
  destruct l as [|s' l]; cbn [String.concat] in *.
  - by apply replace_char_without.
  - rewrite !replace_char_app, IH, (replace_char_without _ _ _ Hs). done.
Qed.

Lemma path_to_ltree_plain_path (p : string) :
  plain_path p = true -> PyStr.contains "." p = false ->
  exists t, path_to_ltree p = Ok t /\ replace_char "." "/" t = p.
Proof.
  intros Hp Hdot.
  destruct (plain_path_spec p Hp) as (s & segs & -> & Hsegs & _ & _).
  pose proof (canonical_segs_ok _ Hsegs) as Hok.
  unfold path_to_ltree. rewrite split_path_of by done.
  rewrite filter_nonempty_segs by done.
  eexists. split; [reflexivity|].
  apply replace_join. by apply (join_contains_inv "." "/").
Qed.

(** X12. A node stored under a plain path without dots comes back from its
    row with the same path and the same type: [_create_node] undoes
    [path_to_ltree], and builds the class the [type] column names. *)
Theorem stored_path_round_trip (p : string) (r : NodeRow) :
  plain_path p = true -> PyStr.contains "." p = false ->
  path_to_ltree p = Ok (row_path r) ->
  0 <= row_type r <= 5 ->
  exists n, _create_node r = Ok n
            /\ node_path n = p /\ node_type n = row_type r.
Proof.
  intros Hp Hdot Hrow Htype.
  destruct (path_to_ltree_plain_path p Hp Hdot) as (t & Ht & Hback).
  rewrite Hrow in Ht. injection Ht as Ht. rewrite <- Ht in Hback.
  pose proof (uri_to_path_plain_path p Hp) as Hpath.
  unfold _create_node. rewrite Hback.
  unfold Node_new, DataNode_new, ContainerNode_new, LinkNode_new, new_base.
  rewrite Hpath. cbn [mbind result_bind].
  assert (row_type r = 0 \/ row_type r = 1 \/ row_type r = 2 \/ row_type r = 3
          \/ row_type r = 4 \/ row_type r = 5) as Hz by lia.
  repeat (destruct Hz as [-> | Hz]; [eexists; split; [reflexivity|done]|]).
  rewrite Hz. eexists; split; [reflexivity|done].
Qed.

Lemma stored_path_round_trip_witness :
  exists n,
    _create_node (mkNodeRow 4 "b" "a.b" (Some "alice") 1 None false [] [])
    = Ok n
    /\ node_path n = "a/b" /\ node_type n = 4.
Proof.
  apply (stored_path_round_trip "a/b"
           (mkNodeRow 4 "b" "a.b" (Some "alice") 1 None false [] []));
    [reflexivity | reflexivity | reflexivity | cbn; lia].
Defined.

(** A database with the container [a] of space 1, a request to create the
    data node [a/b] with one property, and a hook that admits everything. *)
Definition one_container : DB :=
  mkDB [mkNodeRow 4 "a" "a" (Some "alice") 1 None false [] []] ∅.

Definition create_request : Node :=
  DataNode KDataNode
    (mkBase "a/b"
       [Prop_ "ivo://ivoa.net/vospace/core#title" (Some "B") (PyBool false)
          true]
       None [] [])
    (mkData [] [] false).

Definition allow_all (identity : option string) (permission : string)
    (context : Context) : result bool := Ok true.

Section Operations.
Variable space_id : Z.
Variable permits : option string -> string -> Context -> result bool.

Lemma fold_upsert_other (path_tree : string)
    (rows : list (string * option string * option bool)) (k : PropKey) :
  (forall u, k <> (u, path_tree, space_id)) ->
  forall t, fold_left (upsert_property path_tree space_id) rows t !! k = t !! k.
Proof.
  intros Hk. induction rows as [|row rows IH]; intros t; cbn [fold_left];
    [done|].
  rewrite IH. apply UpdateFacts.upsert_property_other. apply Hk.
Qed.

Lemma fold_delete_other (path_tree : string) (uris : list string)
    (k : PropKey) :
  (forall u, k <> (u, path_tree, space_id)) ->
  forall t, fold_left (delete_property path_tree space_id) uris t !! k = t !! k.
Proof.
  intros Hk. induction uris as [|u uris IH]; intros t; cbn [fold_left];
    [done|].
  rewrite IH. apply UpdateFacts.delete_property_other. apply Hk.
Qed.

(** X13. A successful [update_properties] has found a row of the node's
    path, type and space and has been admitted by the [setNode] hook on the
    node with that row's owner and groups; it leaves the [nodes] table as it
    was, and leaves every property row of another node path or of another
    space as it was. *)
Theorem update_properties_touches_only_the_node (node : Node) (conn : DB)
    (identity : option string) (conn' : DB) :
  update_properties space_id permits node conn identity = Ok conn' ->
  nodes conn' = nodes conn
  /\ exists path_tree r,
       path_to_ltree (node_path node) = Ok path_tree
       /\ In r (nodes conn)
       /\ node_where space_id path_tree (node_type node) r = true
       /\ permits identity "setNode" (SetNodeCtx (set_owner_groups node r))
          = Ok true
       /\ forall (u p : string) (s : Z),
            p <> path_tree \/ s <> space_id ->
            properties conn' !! (u, p, s) = properties conn !! (u, p, s).
Proof.
  unfold update_properties. intros H.
  destruct (path_to_ltree (node_path node)) as [t|] eqn:Et; [|discriminate].
  cbn [mbind result_bind] in H.
  destruct (List.filter (node_where space_id t (node_type node)) (nodes conn))
    as [|r rest] eqn:Ef; [discriminate|].
  destruct (permits identity "setNode" (SetNodeCtx (set_owner_groups node r)))
    as [[|]|] eqn:Ep; try discriminate.
  cbn [mbind result_bind negb] in H.
  destruct (props_insert (node_properties (set_owner_groups node r)))
    as [rows|] eqn:Er; [|discriminate].
  cbn [mbind result_bind] in H. injection H as <-. split; [reflexivity|].
  exists t, r. split; [reflexivity|].
  assert (Hin : In r (List.filter (node_where space_id t (node_type node))
                        (nodes conn))) by (rewrite Ef; by left).
  apply filter_In in Hin as [Hin Hw]. repeat split; try done.
  intros u p s Hk. cbn [properties].
  assert (Hne : forall u', (u, p, s) <> (u', t, space_id)).
  { intros u' [= _ -> ->]. by destruct Hk. }
  rewrite fold_delete_other by exact Hne.
  by rewrite fold_upsert_other by exact Hne.
Qed.

Lemma properties_tolist_rows (ps : list NodeProperty) :
  forall rows,
    properties_tolist ps = Ok rows ->
    forall p, In p ps ->
      exists ro, sql_bool (prop_read_only p) = Ok ro
                 /\ In (prop_uri p, prop_value p, ro) rows.
Proof.
  induction ps as [|q ps IH]; intros rows H p Hin; [destruct Hin|].
  cbn [properties_tolist] in H.
  destruct (sql_bool (prop_read_only q)) as [ro|] eqn:Eq; [|discriminate].
  cbn [mbind result_bind] in H.
  destruct (properties_tolist ps) as [rest|] eqn:Er; [|discriminate].
  cbn [mbind result_bind] in H. injection H as <-.
  destruct Hin as [<-|Hin].
  - exists ro. split; [done | by left].
  - destruct (IH rest eq_refl p Hin) as (ro' & H1 & H2).
    exists ro'. split; [done | by right].
Qed.

Lemma insert_properties_rows (node_name path_tree : string)
    (rows : list (string * option string * option bool)) :
  forall t t' : gmap PropKey PropRow,
    foldM (insert_property node_name path_tree space_id) t rows = Ok t' ->
    (forall u v ro, In (u, v, ro) rows ->
       t' !! ((u, path_tree, space_id) : PropKey) = Some (mkPropRow v ro))
    /\ (forall k x, t !! k = Some x -> t' !! k = Some x).
Proof.
  induction rows as [|[[u0 v0] ro0] rows IH]; intros t t' H; cbn [foldM] in H.
  - injection H as <-. split; [by intros ? ? ? []|done].
  - unfold insert_property at 2 in H.
    destruct (t !! ((u0, path_tree, space_id) : PropKey)) eqn:E0;
      [discriminate|].
    cbn [mbind result_bind] in H. destruct (IH _ _ H) as [Hrows Hkeep].
    split.
    + intros u v ro [[= <- <- <-]|Hin]; [|by apply Hrows].
      apply Hkeep. apply lookup_insert_eq.
    + intros k x Hk. apply Hkeep.
      rewrite lookup_insert_ne; [done|]. intros <-. congruence.
Qed.

(** X14. A successful [insert] has found no row of the node's path in the
    space, appends exactly one row to [nodes] (the node's path, type and
    name, the space, the caller as owner), stores one row for each of the
    node's properties under the node's path and the space, and keeps every
    property row the table held. *)
Theorem insert_adds_one_row (node : Node) (conn : DB)
    (identity : option string) (parent_row child_row : option NodeRow)
    (conn' : DB) :
  insert space_id permits node conn identity
  = Ok (parent_row, child_row, conn') ->
  exists path_tree row,
    path_to_ltree (node_path node) = Ok path_tree
    /\ node_exists space_id path_tree conn = false
    /\ nodes conn' = nodes conn ++ [row]
    /\ row_path row = path_tree /\ row_space_id row = space_id
    /\ row_owner row = identity /\ row_type row = node_type node
    /\ node_exists space_id path_tree conn' = true
    /\ (forall p, In p (node_properties node) ->
          exists ro,
            sql_bool (prop_read_only p) = Ok ro
            /\ properties conn' !! ((prop_uri p, path_tree, space_id) : PropKey)
               = Some (mkPropRow (prop_value p) ro))
    /\ (forall k x, properties conn !! k = Some x ->
                    properties conn' !! k = Some x).
Proof.
  unfold insert. intros H.
  match type of H with
  | (?m ≫= _) = _ => destruct m as [target|]; [|discriminate]
  end.
  cbn [mbind result_bind] in H. unfold path_to_ltree.
  destruct (PyStr.filter_nonempty (PyStr.split "/" (node_path node)))
    as [|s segs]; [discriminate|].
  destruct (_get_node_and_parent space_id (node_path node) conn)
    as [[pr cr]|]; [|discriminate].
  cbn [mbind result_bind] in H.
  match type of H with
  | (?m ≫= _) = _ => destruct m; [|discriminate]
  end.
  cbn [mbind result_bind] in H.
  match type of H with
  | (?m ≫= _) = _ => destruct m; [|discriminate]
  end.
  cbn [mbind result_bind] in H.
  destruct (_resultset_to_node pr) as [parent_node|]; [|discriminate].
  cbn [mbind result_bind] in H.
  destruct (permits identity "createNode" (CreateNodeCtx parent_node node))
    as [[|]|]; try discriminate.
  cbn [mbind result_bind negb] in H.
  destruct (node_exists space_id (PyStr.join "." (s :: segs)) conn) eqn:Ex;
    [discriminate|].
  destruct (properties_tolist (node_properties node)) as [rows|] eqn:Er;
    [|discriminate].
  cbn [mbind result_bind] in H.
  match type of H with
  | (?m ≫= _) = _ => destruct m as [t|] eqn:Et; [|discriminate]
  end.
  cbn [mbind result_bind] in H. injection H as <- <- <-.
  eexists _, _. split; [reflexivity|]. split; [exact Ex|].
  split; [reflexivity|]. cbn [row_path row_space_id row_owner row_type nodes
                              properties].
  repeat (split; [reflexivity|]).
  destruct (insert_properties_rows _ _ _ _ _ Et) as [Hrows Hkeep].
  split; [|split; [|exact Hkeep]].
  - unfold node_exists. cbn [nodes]. rewrite existsb_app. cbn.
    by rewrite String.eqb_refl, Z.eqb_refl, orb_true_r.
  - intros p Hp.
    destruct (properties_tolist_rows _ _ Er p Hp) as (ro & H1 & H2).
    exists ro. split; [done|]. by apply Hrows.
Qed.

End Operations.

Lemma update_properties_touches_only_the_node_witness :
  exists conn',
    update_properties 1 UpdateFacts.admit_all UpdateFacts.update_request
      UpdateFacts.stored_db (Some "alice") = Ok conn'
    /\ nodes conn' = nodes UpdateFacts.stored_db
    /\ exists path_tree r,
         path_to_ltree (node_path UpdateFacts.update_request) = Ok path_tree
         /\ In r (nodes UpdateFacts.stored_db)
         /\ node_where 1 path_tree (node_type UpdateFacts.update_request) r
            = true
         /\ UpdateFacts.admit_all (Some "alice") "setNode"
              (SetNodeCtx (set_owner_groups UpdateFacts.update_request r))
            = Ok true
         /\ forall (u p : string) (s : Z),
              p <> path_tree \/ s <> 1 ->
              properties conn' !! (u, p, s)
              = properties UpdateFacts.stored_db !! (u, p, s).
Proof.
  pose proof (UpdateFacts.update_properties_returns 1 UpdateFacts.admit_all
                UpdateFacts.update_request UpdateFacts.stored_db
                (Some "alice") "a.b"
                [("ivo://ivoa.net/vospace/core#date", Some "2019", Some false);
                 ("ivo://ivoa.net/vospace/core#title", Some "New title",
                  Some false)]
                (mkNodeRow 1 "b" "a.b" (Some "alice") 1 None false [] [])
                eq_refl (or_introl eq_refl) eq_refl (fun _ => eq_refl) eq_refl)
    as E.
  eexists. split; [exact E|].
  exact (update_properties_touches_only_the_node 1 UpdateFacts.admit_all
           _ _ _ _ E).
Defined.

Lemma insert_adds_one_row_witness :
  exists path_tree row,
    path_to_ltree (node_path create_request) = Ok path_tree
    /\ node_exists 1 path_tree one_container = false
    /\ nodes (mkDB (nodes one_container
                    ++ [mkNodeRow 1 "b" "a.b" (Some "alice") 1 None false [] []])
                (<[("ivo://ivoa.net/vospace/core#title", "a.b", 1)
                   := mkPropRow (Some "B") (Some false)]> ∅))
       = nodes one_container ++ [row]
    /\ row_path row = path_tree /\ row_space_id row = 1
    /\ row_owner row = Some "alice" /\ row_type row = node_type create_request
    /\ node_exists 1 path_tree
         (mkDB (nodes one_container
                ++ [mkNodeRow 1 "b" "a.b" (Some "alice") 1 None false [] []])
            (<[("ivo://ivoa.net/vospace/core#title", "a.b", 1)
               := mkPropRow (Some "B") (Some false)]> ∅)) = true
    /\ (forall p, In p (node_properties create_request) ->
          exists ro,
            sql_bool (prop_read_only p) = Ok ro
            /\ (<[("ivo://ivoa.net/vospace/core#title", "a.b", 1)
                  := mkPropRow (Some "B") (Some false)]> ∅ : gmap PropKey PropRow)
               !! ((prop_uri p, path_tree, 1) : PropKey)
               = Some (mkPropRow (prop_value p) ro))
    /\ (forall k x, properties one_container !! k = Some x ->
                    (<[("ivo://ivoa.net/vospace/core#title", "a.b", 1)
                       := mkPropRow (Some "B") (Some false)]> ∅
                     : gmap PropKey PropRow) !! k = Some x).
Proof.
  apply (insert_adds_one_row 1 allow_all create_request one_container
           (Some "alice")
           (Some (mkNodeRow 4 "a" "a" (Some "alice") 1 None false [] []))
           None).
  reflexivity.
Defined.

(** *** The locking read on a table that keeps its constraints *)

Lemma compare_refl (s : string) : String.compare s s = Eq.
Proof.
  pose proof (String.compare_antisym s s) as H.
  destruct (String.compare s s); done.
Qed.

Lemma labels_leb_prefix (init : list string) (x : string) :
  labels_leb init (init ++ [x]) = true
  /\ labels_leb (init ++ [x]) init = false.
Proof.
  induction init as [|s init [IH1 IH2]]; [done|].
  cbn. by rewrite compare_refl.
Qed.

Lemma split_join (c : ascii) (segs : list string) :
  segs <> [] -> Forall (fun s => PyStr.contains c s = false) segs ->
  PyStr.split c (PyStr.join (String c "") segs) = segs.
Proof.
  unfold PyStr.join. intros Hne H.
  induction H as [|s l Hs Hl IH]; [done|].
  destruct l as [|s' l].
  - by apply split_without.
  - change (String.concat (String c "") (s :: s' :: l))
      with (s +:+ String c (String.concat (String c "") (s' :: l))).
    rewrite split_app by done. by rewrite IH.
Qed.

Lemma split_keeps_free (c c' : ascii) (s : string) :
  PyStr.contains c' s = false ->
  Forall (fun x => PyStr.contains c' x = false) (PyStr.split c s).
Proof.
  induction s as [|a s IH]; cbn [PyStr.split PyStr.contains];
    [by repeat constructor|].
  intros H. apply orb_false_elim in H as [Ha Hs]. specialize (IH Hs).
  destruct (Ascii.eqb a c); [by constructor|].
  destruct (PyStr.split c s) as [|h t]; [repeat constructor; cbn; by rewrite Ha|].
  inversion IH; subst. constructor; [|done]. cbn. by rewrite Ha.
Qed.

(** The labels of the [ltree] that dot-free segments are joined into. *)
Lemma ltree_labels_join (segs : list string) :
  Forall (fun s => PyStr.nonempty s = true) segs ->
  Forall (fun s => PyStr.contains "." s = false) segs ->
  ltree_labels (PyStr.join "." segs) = segs.
Proof.
  intros Hne Hdot. unfold ltree_labels.
  destruct segs as [|s segs]; [reflexivity|].
  rewrite split_join by done.
  unfold PyStr.filter_nonempty. clear Hdot.
  induction Hne as [|x l Hx Hl IH]; [done|]. cbn. by rewrite Hx, IH.
Qed.

Lemma Forall_removelast {A : Type} (P : A -> Prop) (l : list A) :
  Forall P l -> Forall P (removelast l).
Proof.
  induction 1 as [|x l Hx Hl IH]; [constructor|].
  cbn. destruct l; [constructor | by constructor].
Qed.

Lemma removelast_snoc {A : Type} (l : list A) :
  l <> [] -> exists x, l = removelast l ++ [x].
Proof.
  intros H. destruct l as [|a l]; [done|].
  exists (List.last (a :: l) a). by apply app_removelast_last.
Qed.

(** The segments of a path, as [_get_node_and_parent] computes them. *)
Definition labels_of (path : string) : list string :=
  PyStr.filter_nonempty (PyStr.split "/" path).

Lemma labels_of_spec (path : string) :
  PyStr.contains "." path = false ->
  Forall (fun s => PyStr.nonempty s = true) (labels_of path)
  /\ Forall (fun s => PyStr.contains "." s = false) (labels_of path).
Proof.
  intros H. unfold labels_of, PyStr.filter_nonempty. split.
  - apply List.Forall_forall. intros s Hs. by apply filter_In in Hs as [_ ?].
  - apply (filter_nonempty_keeps "."). by apply split_keeps_free.
Qed.

(** The parent's label path sorts strictly before the node's. *)
Lemma parent_sorts_first (path : string) :
  PyStr.contains "." path = false -> labels_of path <> [] ->
  ltree_leb (PyStr.join "." (removelast (labels_of path)))
    (PyStr.join "." (labels_of path)) = true
  /\ ltree_leb (PyStr.join "." (labels_of path))
       (PyStr.join "." (removelast (labels_of path))) = false.
Proof.
  intros Hdot Hne. destruct (labels_of_spec path Hdot) as [H1 H2].
  unfold ltree_leb.
  rewrite !ltree_labels_join by (done || by apply Forall_removelast).
  destruct (removelast_snoc _ Hne) as (x & Hx).
  rewrite Hx at 2 3. apply labels_leb_prefix.
Qed.

Section Lookup.
Variable space_id : Z.

(** The row of a path in this space. *)
Definition row_at (p : string) (conn : DB) : option NodeRow :=
  List.find (fun r => String.eqb (row_path r) p
                      && Z.eqb (row_space_id r) space_id) (nodes conn).

Definition row_key (r : NodeRow) : string * Z := (row_path r, row_space_id r).

Definition opt_list {A : Type} (o : option A) : list A :=
  match o with Some x => [x] | None => [] end.

Lemma find_key_absent (p : string) (r : NodeRow) (rows : list NodeRow) :
  ~ In (row_key r) (List.map row_key rows) ->
  row_path r = p -> row_space_id r = space_id ->
  List.find (fun r => String.eqb (row_path r) p
                      && Z.eqb (row_space_id r) space_id) rows = None.
Proof.
  intros Hnot Hp Hs.
  destruct (List.find _ rows) as [r'|] eqn:E; [|done].
  apply find_some in E as [Hin [Hp' Hs']%andb_true_iff].
  apply String.eqb_eq in Hp'. apply Z.eqb_eq in Hs'.
  destruct Hnot. apply in_map_iff. exists r'. split; [|done].
  unfold row_key. congruence.
Qed.

(** The rows the locking read selects, in the order it returns them. *)
Lemma locking_read_rows (path_tree parent_tree : string)
    (rows : list NodeRow) :
  ltree_leb parent_tree path_tree = true ->
  ltree_leb path_tree parent_tree = false ->
  List.NoDup (List.map row_key rows) ->
  (forall r, In r rows -> row_path r = path_tree ->
             row_space_id r = space_id) ->
  order_by_path
    (List.filter (node_or_parent_where path_tree parent_tree space_id) rows)
  = opt_list (row_at parent_tree (mkDB rows ∅))
    ++ opt_list (row_at path_tree (mkDB rows ∅)).
Proof.
  intros Hlt Hgt Hnd Hown. unfold row_at. cbn [nodes].
  assert (Hdiff : path_tree <> parent_tree).
  { intros E. rewrite E in Hgt. congruence. }
  induction rows as [|r rows IH]; [done|].
  inversion Hnd as [|? ? Hnot Hnd']; subst.
  specialize (IH Hnd' (fun r' Hin => Hown r' (or_intror Hin))).
  cbn [List.filter List.find]. unfold node_or_parent_where at 1.
  destruct (String.eqb_spec (row_path r) path_tree) as [Hp|Hp].
  - pose proof (Hown r (or_introl eq_refl) Hp) as Hs.
    rewrite Hs, Z.eqb_refl. cbn [orb andb].
    destruct (String.eqb_spec (row_path r) parent_tree) as [Hq|_];
      [congruence|]. cbn [andb].
    unfold order_by_path in *. cbn [fold_right]. rewrite IH.
    rewrite (find_key_absent path_tree r rows Hnot Hp Hs).
    cbn [opt_list]. rewrite app_nil_r.
    match goal with
    | |- context [opt_list (List.find ?f rows)] =>
        destruct (List.find f rows) as [p|] eqn:E
    end; cbn [opt_list app insert_by_path]; [|done].
    apply find_some in E as [_ [Hpp _]%andb_true_iff].
    apply String.eqb_eq in Hpp. by rewrite Hp, Hpp, Hgt.
  - cbn [orb andb].
    destruct (String.eqb_spec (row_path r) parent_tree) as [Hq|Hq];
      cbn [andb]; [|exact IH].
    destruct (Z.eqb_spec (row_space_id r) space_id) as [Hs|Hs]; [|exact IH].
    unfold order_by_path in *. cbn [fold_right]. rewrite IH.
    rewrite (find_key_absent parent_tree r rows Hnot Hq Hs).
    cbn [opt_list app].
    match goal with
    | |- context [opt_list (List.find ?f rows)] =>
        destruct (List.find f rows) as [c|] eqn:E
    end; cbn [opt_list insert_by_path]; [|done].
    apply find_some in E as [_ [Hcp _]%andb_true_iff].
    apply String.eqb_eq in Hcp. by rewrite Hq, Hcp, Hlt.
Qed.

Lemma locking_read_result (path : string) (conn : DB) :
  labels_of path <> [] ->
  PyStr.contains "." path = false ->
  List.NoDup (List.map row_key (nodes conn)) ->
  (forall r, In r (nodes conn) -> row_path r <> "") ->
  (forall r, In r (nodes conn) ->
             row_path r = PyStr.join "." (labels_of path) ->
             row_space_id r = space_id) ->
  _get_node_and_parent space_id path conn
  = match row_at (PyStr.join "." (removelast (labels_of path))) conn,
          row_at (PyStr.join "." (labels_of path)) conn with
    | Some p, c => Ok (Some p, c)
    | None, Some c =>
        if Nat.eqb (length (labels_of path)) 1 then Ok (None, Some c)
        else Raise AssertionError
    | None, None => Ok (None, None)
    end.
Proof.
  intros Hne Hdot Hnd Hempty Hown.
  destruct (parent_sorts_first path Hdot Hne) as [Hlt Hgt].
  destruct (labels_of_spec path Hdot) as [Hnonempty _].
  unfold _get_node_and_parent. fold (labels_of path).
  destruct (labels_of path) as [|s segs] eqn:El; [done|].
  rewrite (locking_read_rows _ _ (nodes conn) Hlt Hgt Hnd Hown).
  change (row_at (PyStr.join "." (removelast (s :: segs)))
            (mkDB (nodes conn) ∅))
    with (row_at (PyStr.join "." (removelast (s :: segs))) conn).
  change (row_at (PyStr.join "." (s :: segs)) (mkDB (nodes conn) ∅))
    with (row_at (PyStr.join "." (s :: segs)) conn).
  destruct (row_at (PyStr.join "." (removelast (s :: segs))) conn)
    as [p|] eqn:Ep;
    destruct (row_at (PyStr.join "." (s :: segs)) conn) as [c|] eqn:Ec;
    cbn [opt_list app]; try done.
  - apply find_some in Ep as [Hin [Hpp _]%andb_true_iff].
    apply String.eqb_eq in Hpp. pose proof (Hempty p Hin) as Hpe.
    rewrite <- Hpp. destruct (row_path p); [done|].
    cbn [PyStr.nonempty]. by rewrite String.eqb_refl.
  - apply find_some in Ec as [_ [Hcp _]%andb_true_iff].
    apply String.eqb_eq in Hcp.
    destruct segs as [|s' segs]; [reflexivity|].
    cbn [length Nat.eqb].
    assert (Hn : PyStr.nonempty (PyStr.join "." (removelast (s :: s' :: segs)))
                 = true).
    { inversion Hnonempty as [|? ? Hs _]; subst.
      change (removelast (s :: s' :: segs))
        with (s :: removelast (s' :: segs)).
      unfold PyStr.join. generalize (removelast (s' :: segs)). intros l.
      destruct l; cbn [String.concat]; by destruct s. }
    rewrite Hn.
    destruct (String.eqb_spec (row_path c)
                (PyStr.join "." (removelast (s :: s' :: segs)))) as [E|]; [|done].
    rewrite Hcp in E. rewrite E in Hgt. congruence.
Qed.

(** X15. On a [nodes] table that keeps its uniqueness constraint on
    [(path, space_id)], holds no row with an empty path and holds no row of
    another space under the looked-up path, [_get_node_and_parent] on a
    dot-free path returns the parent's row and the node's row of this
    space, each [None] when absent; when the node's row exists but its
    parent's does not, a root-level node is returned alone and any other
    trips the [assert]. *)
Theorem get_node_and_parent_on_constrained_table (path : string) (conn : DB) :
  labels_of path <> [] ->
  PyStr.contains "." path = false ->
  List.NoDup (List.map row_key (nodes conn)) ->
  (forall r, In r (nodes conn) -> row_path r <> "") ->
  (forall r, In r (nodes conn) ->
             row_path r = PyStr.join "." (labels_of path) ->
             row_space_id r = space_id) ->
  _get_node_and_parent space_id path conn
  = match row_at (PyStr.join "." (removelast (labels_of path))) conn,
          row_at (PyStr.join "." (labels_of path)) conn with
    | Some p, c => Ok (Some p, c)
    | None, Some c =>
        if Nat.eqb (length (labels_of path)) 1 then Ok (None, Some c)
        else Raise AssertionError
    | None, None => Ok (None, None)
    end.
Proof. exact (locking_read_result path conn). Qed.

(** *** When [insert] stores the node *)

Variable permits : option string -> string -> Context -> result bool.

Lemma plain_path_labels (p : string) :
  plain_path p = true -> PyStr.contains "." p = false ->
  labels_of p <> [] /\ p = path_of (labels_of p)
  /\ Forall (fun s => canonical_seg s = true) (labels_of p)
  /\ Forall (fun s => PyStr.contains "." s = false) (labels_of p)
  /\ Forall (fun s => PyStr.contains ":" s = false) (labels_of p)
  /\ Forall (fun s => PyStr.contains ";" s = false) (labels_of p).
Proof.
  intros Hp Hdot.
  destruct (plain_path_spec p Hp) as (s & segs & -> & Hsegs & Hc & Hs).
  pose proof (canonical_segs_ok _ Hsegs) as Hok.
  unfold labels_of. rewrite split_path_of by done.
  rewrite filter_nonempty_segs by done.
  repeat split; try done; by apply (join_contains_inv _ "/").
Qed.





Definition targeted (node : Node) : bool :=
  match node with LinkNode _ None => false | _ => true end.

Definition link_target (node : Node) : option string :=
  match node with LinkNode _ t => t | _ => None end.






(** X27. What [insert] raises for a node below root level whose parent is
    not a container of the space, on a table that keeps its constraints:
    [ContainerDoesNotExistError('<parent path> not found.')] when neither
    the parent nor the node has a row; [AssertionError], from the locking
    read, when the node has a row but the parent has none;
    [VOSpaceError(400, 'Link Found. ...')] when the parent is a link; and
    [ContainerDoesNotExistError('<name> is not a container.')] when the
    parent is any other node that is not a container. The hook is not
    consulted in any of these cases. *)
Theorem insert_parent_errors (node : Node) (conn : DB)
    (identity : option string) :
  plain_path (node_path node) = true ->
  PyStr.contains "." (node_path node) = false ->
  targeted node = true ->
  List.NoDup (List.map row_key (nodes conn)) ->
  (forall r, In r (nodes conn) -> row_path r <> "") ->
  (forall r, In r (nodes conn) ->
             row_path r = PyStr.join "." (labels_of (node_path node)) ->
             row_space_id r = space_id) ->
  removelast (labels_of (node_path node)) <> [] ->
  (row_at (PyStr.join "." (removelast (labels_of (node_path node)))) conn
   = None ->
   insert space_id permits node conn identity
   = match row_at (PyStr.join "." (labels_of (node_path node))) conn with
     | None =>
         Raise (ContainerDoesNotExistError
                  (PyStr.join "/" (removelast (labels_of (node_path node)))
                   +:+ " not found."))
     | Some _ => Raise AssertionError
     end)
  /\ (forall p,
        row_at (PyStr.join "." (removelast (labels_of (node_path node)))) conn
        = Some p ->
        row_type p <> 4 ->
        insert space_id permits node conn identity
        = if Z.eqb (row_type p) 5
          then Raise (VOSpaceError 400
                        ("Link Found. " +:+ row_name p +:+ " found in path."))
          else Raise (ContainerDoesNotExistError
                        (row_name p +:+ " is not a container."))).
Proof.
  intros Hp Hdot Htarget Hnd Hempty Hown Hnested.
  destruct (plain_path_labels _ Hp Hdot) as (Hne & _).
  assert (Ht : match node with
               | LinkNode _ None =>
                   Raise (VOSpaceError 400
                            ("Type Not Supported. " +:+ node_type_text node
                             +:+ " does not have a target."))
               | LinkNode _ (Some t) => Ok (Some t)
               | _ => Ok None
               end = Ok (link_target node)).
  { destruct node as [| b [t|] | |]; try done. }
  unfold insert. rewrite Ht. cbn [mbind result_bind].
  fold (labels_of (node_path node)).
  rewrite (locking_read_result (node_path node) conn Hne Hdot Hnd Hempty Hown).
  destruct (labels_of (node_path node)) as [|s segs] eqn:El; [done|].
  destruct segs as [|s' segs]; [done|].
  set (path_tree := PyStr.join "." (s :: s' :: segs)) in *.
  set (parent_tree := PyStr.join "." (removelast (s :: s' :: segs))) in *.
  destruct (removelast (s :: s' :: segs)) as [|s0 init] eqn:Einit; [done|].
  split.
  - intros ->. cbn [length Nat.eqb].
    destruct (row_at path_tree conn); reflexivity.
  - intros p -> Htype. cbn [mbind result_bind].
    destruct (Z.eqb_spec (row_type p) 5) as [E5|E5];
      [by destruct (row_at path_tree conn)|].
    destruct (Z.eqb_spec (row_type p) 4) as [E4|E4]; [done|].
    by destruct (row_at path_tree conn).
Qed.

End Lookup.

Definition two_rows : DB :=
  mkDB [mkNodeRow 1 "b" "a.b" (Some "alice") 1 None false [] [];
        mkNodeRow 4 "a" "a" (Some "alice") 1 None false [] []] ∅.

Lemma get_node_and_parent_on_constrained_table_witness :
  _get_node_and_parent 1 "/a/b" two_rows
  = Ok (Some (mkNodeRow 4 "a" "a" (Some "alice") 1 None false [] []),
        Some (mkNodeRow 1 "b" "a.b" (Some "alice") 1 None false [] [])).
Proof.
  apply (get_node_and_parent_on_constrained_table 1 "/a/b" two_rows).
  - discriminate.
  - reflexivity.
  - repeat constructor; cbn; intros H;
      repeat (destruct H as [H|H]; [discriminate H|]); exact H.
  - intros r [<-|[<-|[]]]; discriminate.
  - intros r [<-|[<-|[]]]; [reflexivity | discriminate].
Defined.



Lemma insert_parent_errors_witness :
  (row_at 1 "x" one_container = None ->
   insert 1 allow_all (DataNode KDataNode (mkBase "x/y" [] None [] [])
                         (mkData [] [] false)) one_container (Some "alice")
   = match row_at 1 "x.y" one_container with
     | None => Raise (ContainerDoesNotExistError "x not found.")
     | Some _ => Raise AssertionError
     end)
  /\ (forall p,
        row_at 1 "x" one_container = Some p ->
        row_type p <> 4 ->
        insert 1 allow_all (DataNode KDataNode (mkBase "x/y" [] None [] [])
                              (mkData [] [] false)) one_container
          (Some "alice")
        = if Z.eqb (row_type p) 5
          then Raise (VOSpaceError 400
                        ("Link Found. " +:+ row_name p +:+ " found in path."))
          else Raise (ContainerDoesNotExistError
                        (row_name p +:+ " is not a container."))).
Proof.
  apply (insert_parent_errors 1 allow_all
           (DataNode KDataNode (mkBase "x/y" [] None [] [])
              (mkData [] [] false)) one_container (Some "alice")).
  - reflexivity.
  - reflexivity.
  - reflexivity.
  - repeat constructor. intros [].
  - intros r [<-|[]]. discriminate.
  - intros r [<-|[]]. discriminate.
  - discriminate.
Defined.

End StoreFacts.

(** ** Who the policy admits *)

Module PolicyFacts.
Import Model Auth.

(** X16. [_any_value_in_lists] holds exactly when the two lists share an
    element, so the order of its arguments does not matter. *)
Theorem any_value_in_lists_iff_shared (a b : list string) :
  (_any_value_in_lists a b = true <-> exists x, In x a /\ In x b)
  /\ _any_value_in_lists a b = _any_value_in_lists b a.
Proof.
  assert (Hiff : forall a b,
             _any_value_in_lists a b = true <-> exists x, In x a /\ In x b).
  { intros a0 b0. unfold _any_value_in_lists. rewrite existsb_exists. split.
    - intros (x & Hb & Ha). apply AuthFacts.in_list_In in Ha. by exists x.
    - intros (x & Ha & Hb). exists x. split; [done|].
      by apply AuthFacts.in_list_In. }
  split; [apply Hiff|].
  apply Bool.eq_true_iff_eq. rewrite !Hiff.
  split; intros (x & H1 & H2); by exists x.
Qed.

(** The nodes a context carries, and whether the caller has a stake in the
    context: owns one of its nodes or its job, or shares a group with one
    of its nodes. *)
Definition ctx_nodes (c : Context) : list Node :=
  match c with
  | CtxNone => []
  | CtxOne n => [n]
  | CtxPair (Some p) n => [p; n]
  | CtxPair None n => [n]
  | CtxOfJob j => [transfer_target j]
  end.

Definition has_stake (identity : option string) (user : UserRow)
    (n : Node) : bool :=
  owner_eqb (owner (base n)) identity
  || _any_value_in_lists (group_write (base n)) (groupwrite user)
  || _any_value_in_lists (group_read (base n)) (groupread user).

Definition stake_in (identity : option string) (user : UserRow)
    (c : Context) : bool :=
  existsb (has_stake identity user) (ctx_nodes c)
  || match c with
     | CtxOfJob j => owner_eqb (job_owner j) identity
     | _ => false
     end.

(** [permits] returned [True]. *)
Definition granted (r : result bool) : bool :=
  match r with Ok true => true | _ => false end.

Section Policy.
Variable space_name : string.
Variable users : list UserRow.

(** X17. A known user who is not an administrator and has no stake in the
    context (owns none of its nodes nor its job, shares no write group and
    no read group with any of its nodes) is granted nothing but [getNode]
    and [createTransfer]: for every other permission name, known or not,
    [permits] does not return [True]. *)
Theorem user_without_stake_is_not_granted (identity : option string)
    (user : UserRow) (permission : string) (context : Context) :
  fetch_user space_name users identity = Some user ->
  admin user = false ->
  stake_in identity user context = false ->
  permission <> "getNode" -> permission <> "createTransfer" ->
  granted (permits space_name users identity permission context) = false.
Proof.
  intros Hu Hadm Hstake Hget Hct. unfold permits. rewrite Hu, Hadm.
  unfold stake_in, has_stake in Hstake.
  repeat match goal with
         | |- context [String.eqb permission ?s] =>
             destruct (String.eqb_spec permission s) as [->|?]
         end; try done;
    cbn [String.eqb Ascii.eqb Bool.eqb orb andb];
    rewrite ?andb_false_r;
    destruct context as [|nd|[pa|] nd|jb]; cbn [granted]; try reflexivity;
    cbn [ctx_nodes existsb] in Hstake;
    rewrite ?orb_false_r in Hstake; rewrite ?orb_false_iff in Hstake;
    destruct_and?;
    repeat match goal with
           | H : ?x = false |- context [?x] => rewrite H
           end;
    rewrite ?andb_false_r; cbn [orb andb granted]; try reflexivity;
    try (destruct (_any_property_in_protected _); reflexivity);
    try (destruct (transfer_is_PushToSpace _); reflexivity).
Qed.

End Policy.

Definition carol : UserRow :=
  mkUser "carol" "space" "$pbkdf2-sha256$hash" false ["g2"] ["g2"].

Lemma user_without_stake_is_not_granted_witness :
  granted (permits "space" [AuthFacts.alice; carol] (Some "carol") "deleteNode"
             (CtxOne AuthFacts.owned_root)) = false.
Proof.
  apply (user_without_stake_is_not_granted "space" [AuthFacts.alice; carol]
           (Some "carol") carol "deleteNode" (CtxOne AuthFacts.owned_root));
    [reflexivity | reflexivity | reflexivity | discriminate | discriminate].
Defined.

End PolicyFacts.

(** ** More on the stream readers *)

Module ReaderFacts.
Import Ngas NgasFacts.

Lemma anext_short (r : ControlledReader) :
  0 < remaining r ->
  Z.of_nat (length (_content r)) < Z.min DEFAULT_BUFFER_SIZE (remaining r) ->
  __anext__ r = Failed IncompleteReadError.
Proof.
  unfold __anext__, remaining, readexactly, DEFAULT_BUFFER_SIZE.
  intros H1 H2.
  destruct (Z.leb_spec (Z.min 8192 (_content_length r - _bytes_read r)) 0);
    [lia|].
  destruct (Z.ltb_spec (Z.of_nat (length (_content r)))
              (Z.min 8192 (_content_length r - _bytes_read r))); [done|].
  unfold DEFAULT_BUFFER_SIZE in *. lia.
Qed.

Lemma anext_yield_chunk (r : ControlledReader) :
  0 < remaining r ->
  Z.min DEFAULT_BUFFER_SIZE (remaining r) <= Z.of_nat (length (_content r)) ->
  let n := Z.min DEFAULT_BUFFER_SIZE (remaining r) in
  __anext__ r
  = Yield (firstn (Z.to_nat n) (_content r))
      (mkReader (skipn (Z.to_nat n) (_content r)) (_content_length r)
         (_bytes_read r + n)).
Proof.
  unfold __anext__, remaining, readexactly, DEFAULT_BUFFER_SIZE. intros H1 H2.
  cbn zeta.
  destruct (Z.leb_spec (Z.min 8192 (_content_length r - _bytes_read r)) 0);
    [lia|].
  destruct (Z.ltb_spec (Z.of_nat (length (_content r)))
              (Z.min 8192 (_content_length r - _bytes_read r))); [lia|].
  reflexivity.
Qed.

Lemma iterate_short (fuel : nat) :
  forall r : ControlledReader,
    Z.of_nat (length (_content r)) < remaining r ->
    (length (_content r) < fuel)%nat ->
    iterate fuel r = Some (Raise IncompleteReadError).
Proof.
  induction fuel as [|fuel IH]; intros r Hshort Hfuel; [lia|].
  cbn [iterate].
  set (n := Z.min DEFAULT_BUFFER_SIZE (remaining r)).
  assert (Hn : 0 < n <= remaining r) by (unfold n, DEFAULT_BUFFER_SIZE; lia).
  destruct (Z_lt_le_dec (Z.of_nat (length (_content r))) n) as [Hlt|Hge].
  - by rewrite anext_short by (fold n; lia).
  - rewrite (anext_yield_chunk r) by (fold n; lia). cbn zeta. fold n.
    rewrite IH; [done| |].
    + unfold remaining in *. cbn [_content _content_length _bytes_read].
      rewrite length_skipn. lia.
    + cbn [_content]. rewrite length_skipn. lia.
Qed.

(** X18. A [ControlledReader] told to deliver more bytes than its source
    holds does not end normally: the iteration raises
    [IncompleteReadError], whatever chunks it produced before. *)
Theorem controlled_reader_fails_on_short_source
    (content : list Byte.byte) (N : Z) :
  Z.of_nat (length content) < N ->
  forall fuel : nat,
    (length content < fuel)%nat ->
    iterate fuel (ControlledReader_new content N)
    = Some (Raise IncompleteReadError).
Proof.
  intros Hshort fuel Hfuel. apply iterate_short; [|done].
  unfold remaining. cbn. lia.
Qed.

Lemma controlled_reader_fails_on_short_source_witness :
  iterate 3 (ControlledReader_new [Byte.x61; Byte.x62] 3)
  = Some (Raise IncompleteReadError).
Proof.
  apply (controlled_reader_fails_on_short_source [Byte.x61; Byte.x62] 3);
    cbn; lia.
Defined.

(** The number of chunks of [DEFAULT_BUFFER_SIZE] bytes that [n] bytes
    need. *)
Definition chunk_count (n : Z) : Z :=
  (n + (DEFAULT_BUFFER_SIZE - 1)) / DEFAULT_BUFFER_SIZE.

Lemma chunk_count_step (n : Z) :
  DEFAULT_BUFFER_SIZE <= n ->
  chunk_count n = 1 + chunk_count (n - DEFAULT_BUFFER_SIZE).
Proof.
  unfold chunk_count, DEFAULT_BUFFER_SIZE. intros H.
  replace (n + (8192 - 1)) with ((n - 8192 + (8192 - 1)) + 1 * 8192) by lia.
  rewrite Z.div_add by lia. lia.
Qed.

Lemma chunk_count_small (n : Z) :
  0 < n <= DEFAULT_BUFFER_SIZE -> chunk_count n = 1.
Proof.
  unfold chunk_count, DEFAULT_BUFFER_SIZE. intros H.
  symmetry. apply (Z.div_unique_pos _ _ 1 (n - 1)); lia.
Qed.

Lemma chunk_count_pos (n : Z) : 0 < n -> 0 < chunk_count n.
Proof.
  unfold chunk_count, DEFAULT_BUFFER_SIZE. intros H.
  apply Z.div_str_pos. lia.
Qed.

(** The chunks of a completed iteration: their number, and the size of all
    but the last. *)
Lemma iterate_layout (fuel : nat) :
  forall (r : ControlledReader) chunks final,
    0 <= remaining r ->
    iterate fuel r = Some (Ok (chunks, final)) ->
    Z.of_nat (length chunks) = chunk_count (remaining r)
    /\ Forall (fun c => Z.of_nat (length c) = DEFAULT_BUFFER_SIZE)
         (removelast chunks).
Proof.
  induction fuel as [|fuel IH]; intros r chunks final Hrem H; [discriminate|].
  cbn [iterate] in H.
  destruct (Z.eq_dec (remaining r) 0) as [Hz|Hnz].
  - rewrite anext_stop in H by lia. injection H as <- <-.
    rewrite Hz. split; [reflexivity|constructor].
  - set (n := Z.min DEFAULT_BUFFER_SIZE (remaining r)).
    assert (Hn : 0 < n <= remaining r /\ n <= DEFAULT_BUFFER_SIZE)
      by (unfold n, DEFAULT_BUFFER_SIZE; lia).
    destruct (Z_lt_le_dec (Z.of_nat (length (_content r))) n) as [Hlt|Hge].
    { rewrite anext_short in H by (fold n; lia). discriminate. }
    rewrite (anext_yield_chunk r) in H by (fold n; lia).
    cbn zeta in H. fold n in H.
    set (r' := mkReader _ _ _) in H.
    assert (Hrem' : remaining r' = remaining r - n)
      by (unfold remaining, r'; cbn; lia).
    destruct (iterate fuel r') as [[[chunks' final']|e]|] eqn:E;
      try discriminate.
    injection H as <- <-.
    destruct (IH r' chunks' final') as [Hcount Hfull]; [lia|done|].
    rewrite Hrem' in Hcount. split.
    + cbn [length]. rewrite Nat2Z.inj_succ, Hcount.
      destruct (Z_lt_le_dec (remaining r) DEFAULT_BUFFER_SIZE) as [Hs|Hl].
      * replace n with (remaining r) by (unfold n; lia).
        rewrite Z.sub_diag, (chunk_count_small (remaining r)) by lia.
        reflexivity.
      * replace n with DEFAULT_BUFFER_SIZE by (unfold n; lia).
        rewrite (chunk_count_step (remaining r)) by lia. lia.
    + destruct chunks' as [|c chunks']; [constructor|].
      change (removelast (firstn (Z.to_nat n) (_content r) :: c :: chunks'))
        with (firstn (Z.to_nat n) (_content r) :: removelast (c :: chunks')).
      constructor; [|done].
      assert (0 < remaining r - n).
      { destruct (Z.eq_dec (remaining r - n) 0) as [E0|]; [|lia].
        rewrite E0 in Hcount. change (chunk_count 0) with 0 in Hcount.
        cbn [length] in Hcount. lia. }
      rewrite length_firstn. unfold n, DEFAULT_BUFFER_SIZE in *. lia.
Qed.

(** X19. The chunks a [ControlledReader] yields for a length N > 0 that its
    source covers: there are ceil(N / DEFAULT_BUFFER_SIZE) of them, and
    every chunk but the last is exactly [DEFAULT_BUFFER_SIZE] bytes long. *)
Theorem controlled_reader_chunk_layout (content : list Byte.byte) (N : Z) :
  0 < N -> N <= Z.of_nat (length content) ->
  exists chunks final,
    (forall fuel : nat,
        (Z.to_nat N < fuel)%nat ->
        iterate fuel (ControlledReader_new content N)
        = Some (Ok (chunks, final)))
    /\ Z.of_nat (length chunks) = chunk_count N
    /\ Forall (fun c => Z.of_nat (length c) = DEFAULT_BUFFER_SIZE)
         (removelast chunks).
Proof.
  intros HN Hlen.
  set (r := ControlledReader_new content N).
  assert (Hr : remaining r = N) by (unfold remaining, r; cbn; lia).
  destruct (iterate_exact (S (Z.to_nat N)) r) as (chunks & final & Hit & _);
    [rewrite Hr; lia | rewrite Hr; exact Hlen | rewrite Hr; lia |].
  exists chunks, final.
  destruct (iterate_layout (S (Z.to_nat N)) r chunks final) as [Hc Hf];
    [lia|exact Hit|].
  rewrite Hr in Hc. split; [|done].
  intros fuel Hfuel.
  destruct (iterate_exact fuel r) as (chunks' & final' & Hit' & _);
    [rewrite Hr; lia | rewrite Hr; exact Hlen | rewrite Hr; lia |].
  rewrite Hit'. f_equal.
  exact (iterate_fuel_irrelevant _ _ _ _ _ Hit' Hit).
Qed.

Lemma controlled_reader_chunk_layout_witness :
  exists chunks final,
    (forall fuel : nat,
        (Z.to_nat 2 < fuel)%nat ->
        iterate fuel (ControlledReader_new [Byte.x61; Byte.x62; Byte.x63] 2)
        = Some (Ok (chunks, final)))
    /\ Z.of_nat (length chunks) = chunk_count 2
    /\ Forall (fun c => Z.of_nat (length c) = DEFAULT_BUFFER_SIZE)
         (removelast chunks).
Proof.
  apply (controlled_reader_chunk_layout [Byte.x61; Byte.x62; Byte.x63] 2);
    cbn; lia.
Defined.

(** *** The counting reader *)

Lemma next_all_counts (content : list (list Byte.byte)) :
  forall (size : Z) (fuel : nat),
    (length content < fuel)%nat ->
    Counted.next_all fuel (Counted.mkCounted content size true)
    = Some (Ok (content,
                Counted.mkCounted [] (size + Z.of_nat (length (concat content)))
                  true)).
Proof.
  induction content as [|b content IH]; intros size fuel Hfuel;
    (destruct fuel as [|fuel]; [cbn in Hfuel; lia|]).
  - cbn. by rewrite Z.add_0_r.
  - cbn [Counted.next_all Counted.__anext__ Counted._iter Counted._content
         Counted._size negb].
    rewrite IH by (cbn in Hfuel; lia).
    cbn [concat]. rewrite length_app, Nat2Z.inj_add, Z.add_assoc. reflexivity.
Qed.

(** X20. Iterating over a fresh [CountedReader] passes on every chunk of the
    wrapped stream unchanged and in order, and leaves [_size] at the total
    number of bytes passed on; [__anext__] before [__aiter__] fails with
    [AttributeError]. *)
Theorem counted_reader_counts_every_byte (content : list (list Byte.byte)) :
  (forall fuel : nat,
      (length content < fuel)%nat ->
      exists final,
        Counted.iterate fuel (Counted.CountedReader_new content)
        = Some (Ok (content, final))
        /\ Counted._size final = Z.of_nat (length (concat content))
        /\ Counted.__anext__ final = Counted.StopAsyncIteration)
  /\ Counted.__anext__ (Counted.CountedReader_new content)
     = Counted.Failed AttributeError.
Proof.
  split; [|reflexivity]. intros fuel Hfuel. eexists. split.
  - unfold Counted.iterate, Counted.__aiter__, Counted.CountedReader_new.
    cbn [Counted._content Counted._size]. by apply next_all_counts.
  - split; reflexivity.
Qed.

End ReaderFacts.

(** ** URIs of properties, views, protocols and parameters *)

Module UriFacts.
Import Model StrFacts RoundTripFacts.

(** A character that is neither a control character nor a space. *)
Definition visible (a : ascii) : bool := Nat.ltb 32 (nat_of_ascii a).

(** X21. Every URI of the VOSpace core vocabulary,
    [ivo://ivoa.net/vospace/core#<name>] with a non-empty name of visible
    characters, passes [validate_property_uri], which returns the name as
    the fragment; the [uri] setter stores the URI as given. *)
Theorem core_uri_is_valid (name : string) :
  PyStr.nonempty name = true ->
  PyStr.forallb_char visible name = true ->
  validate_property_uri (PyStr ("ivo://ivoa.net/vospace/core#" +:+ name))
  = Ok (Url.mkParse "ivo" "ivoa.net" "/vospace/core" "" "" name)
  /\ set_uri (PyStr ("ivo://ivoa.net/vospace/core#" +:+ name))
     = Ok ("ivo://ivoa.net/vospace/core#" +:+ name).
Proof.
  intros Hn _. destruct name as [|c name]; [discriminate|].
  assert (H : validate_property_uri
                (PyStr ("ivo://ivoa.net/vospace/core#" +:+ String c name))
              = Ok (Url.mkParse "ivo" "ivoa.net" "/vospace/core" "" ""
                      (String c name))) by reflexivity.
  split; [exact H|]. unfold set_uri. by rewrite H.
Qed.

Lemma core_uri_is_valid_witness :
  validate_property_uri (PyStr ("ivo://ivoa.net/vospace/core#" +:+ "title"))
  = Ok (Url.mkParse "ivo" "ivoa.net" "/vospace/core" "" "" "title")
  /\ set_uri (PyStr ("ivo://ivoa.net/vospace/core#" +:+ "title"))
     = Ok ("ivo://ivoa.net/vospace/core#" +:+ "title").
Proof.
  apply (core_uri_is_valid "title"); reflexivity.
Defined.

Lemma split1_keeps_free (c d : ascii) (s h t : string) :
  PyStr.contains d s = false -> PyStr.split1 c s = Some (h, t) ->
  PyStr.contains d t = false.
Proof.
  revert h. induction s as [|a s IH]; intros h Hd H; [discriminate|].
  cbn [PyStr.contains PyStr.split1] in Hd, H.
  apply orb_false_elim in Hd as [_ Hd].
  destruct (Ascii.eqb a c); [by injection H as <- <-|].
  destruct (PyStr.split1 c s) as [[h' t']|]; [|discriminate].
  injection H as <- <-. by apply (IH h').
Qed.

Lemma splitnetloc_keeps_free (d : ascii) (s : string) :
  PyStr.contains d s = false ->
  PyStr.contains d (snd (Url.splitnetloc s)) = false.
Proof.
  induction s as [|a s IH]; [done|]. intros Hd.
  cbn [Url.splitnetloc].
  destruct (Ascii.eqb a "/" || Ascii.eqb a "?" || Ascii.eqb a "#"); [done|].
  cbn [PyStr.contains] in Hd. apply orb_false_elim in Hd as [_ Hd].
  specialize (IH Hd). by destruct (Url.splitnetloc s).
Qed.

Lemma split_scheme_keeps_free (d : ascii) (u : string) :
  PyStr.contains d u = false ->
  PyStr.contains d (snd (Url.split_scheme u)) = false.
Proof.
  intros Hd. unfold Url.split_scheme.
  destruct (PyStr.split1 ":" u) as [[pre rest]|] eqn:E; [|done].
  pose proof (split1_keeps_free _ _ _ _ _ Hd E) as Hrest.
  destruct (PyStr.nonempty pre); [|done].
  destruct (String.eqb pre "http"); [done|].
  destruct (PyStr.forallb_char Url.scheme_char pre); [|done].
  by destruct (negb (PyStr.nonempty rest)
               || negb (PyStr.forallb_char PyStr.is_digit rest)).
Qed.

(** The part of the URL that [urlsplit] goes on with once the network
    location is taken off. *)
Lemma after_netloc_keeps_free (d : ascii) (url : string)
    (nl rest : string) :
  PyStr.contains d url = false ->
  match url with
  | String "/" (String "/" r) =>
      let '(nl, u) := Url.splitnetloc r in
      if (PyStr.contains "[" nl && negb (PyStr.contains "]" nl))
         || (PyStr.contains "]" nl && negb (PyStr.contains "[" nl))
      then Raise (ValueError "Invalid IPv6 URL")
      else Ok (nl, u)
  | _ => Ok (EmptyString, url)
  end = Ok (nl, rest) ->
  PyStr.contains d rest = false.
Proof.
  intros Hd.
  assert (Hplain : Ok (EmptyString, url) = Ok (nl, rest) ->
                   PyStr.contains d rest = false) by (by intros [= <- <-]).
  destruct url as [|a [|b r]]; try exact Hplain.
  - destruct a as [[] [] [] [] [] [] [] []]; exact Hplain.
  - destruct a as [[] [] [] [] [] [] [] []]; try exact Hplain.
    destruct b as [[] [] [] [] [] [] [] []]; try exact Hplain.
    clear Hplain. cbn [PyStr.contains] in Hd.
    apply orb_false_elim in Hd as [_ Hd]. apply orb_false_elim in Hd as [_ Hd].
    pose proof (splitnetloc_keeps_free d r Hd) as Hr.
    destruct (Url.splitnetloc r) as [nl' u'].
    destruct ((PyStr.contains "[" nl' && negb (PyStr.contains "]" nl'))
              || (PyStr.contains "]" nl' && negb (PyStr.contains "[" nl')));
      [discriminate|].
    by intros [= <- <-].
Qed.

Lemma urlsplit_without_fragment (u : string) (r : Url.ParseResult) :
  PyStr.contains "#" u = false -> Url.urlsplit u = Ok r ->
  Url.fragment r = "".
Proof.
  intros Hd. unfold Url.urlsplit.
  pose proof (split_scheme_keeps_free "#" u Hd) as Hs.
  destruct (Url.split_scheme u) as [sch url]. cbn [snd] in Hs.
  match goal with
  | |- (?m ≫= _) = _ -> _ => destruct m as [[nl rest]|] eqn:E
  end; [|discriminate].
  pose proof (after_netloc_keeps_free "#" url nl rest Hs E) as Hrest.
  cbn [mbind result_bind].
  rewrite (split1_without "#" rest Hrest).
  destruct (PyStr.split1 "?" rest) as [[u' q]|]; by intros [= <-].
Qed.

Lemma urlparse_without_fragment (u : string) (r : Url.ParseResult) :
  PyStr.contains "#" u = false -> Url.urlparse u = Ok r ->
  Url.fragment r = "".
Proof.
  intros Hd. unfold Url.urlparse.
  destruct (Url.urlsplit u) as [r0|] eqn:E; [|discriminate].
  pose proof (urlsplit_without_fragment u r0 Hd E) as Hf.
  cbn [mbind result_bind].
  destruct (existsb (String.eqb (Url.scheme r0)) Url.uses_params
            && PyStr.contains ";" (Url.path r0)).
  - destruct (Url.splitparams (Url.path r0)). by intros [= <-].
  - by intros [= <-].
Qed.

(** X22. A URI without a [#] is never accepted: [validate_property_uri]
    fails on it, and so do the constructors that store a validated URI. *)
Theorem uri_without_fragment_is_rejected (u : string)
    (value : option string) (read_only : pyval) :
  PyStr.contains "#" u = false ->
  is_ok (validate_property_uri (PyStr u)) = false
  /\ is_ok (Property_new (PyStr u) value read_only) = false
  /\ is_ok (View_new (PyStr u)) = false
  /\ is_ok (Parameter_new (PyStr u) value) = false
  /\ is_ok (Protocol_new (AStr u) ANone ANone) = false.
Proof.
  intros Hd.
  assert (H : is_ok (validate_property_uri (PyStr u)) = false).
  { unfold validate_property_uri.
    destruct (negb (truthy (PyStr u))); [done|].
    cbn [urlparse_val].
    destruct (Url.urlparse u) as [r|] eqn:E; [|done].
    cbn [mbind result_bind].
    rewrite (urlparse_without_fragment u r Hd E).
    destruct (negb (String.eqb (Url.scheme r) "ivo")); [done|].
    destruct (negb (PyStr.nonempty (Url.path r))); [done|].
    by destruct (negb (PyStr.startswith "/vospace" (Url.path r))). }
  assert (Hs : is_ok (set_uri (PyStr u)) = false).
  { unfold set_uri. by destruct (validate_property_uri (PyStr u)). }
  split; [exact H|].
  unfold Property_new, View_new, Parameter_new, Protocol_new, Protocol_init.
  cbn [arg_val]. by destruct (set_uri (PyStr u)).
Qed.

Lemma uri_without_fragment_is_rejected_witness :
  is_ok (validate_property_uri (PyStr "ivo://ivoa.net/vospace/core")) = false
  /\ is_ok (Property_new (PyStr "ivo://ivoa.net/vospace/core") (Some "x")
              (PyBool false)) = false
  /\ is_ok (View_new (PyStr "ivo://ivoa.net/vospace/core")) = false
  /\ is_ok (Parameter_new (PyStr "ivo://ivoa.net/vospace/core") (Some "x"))
     = false
  /\ is_ok (Protocol_new (AStr "ivo://ivoa.net/vospace/core") ANone ANone)
     = false.
Proof.
  apply (uri_without_fragment_is_rejected "ivo://ivoa.net/vospace/core"
           (Some "x") (PyBool false)).
  reflexivity.
Defined.

(** The security method [create_protocol] attaches for a given URI. *)
Definition security_of (security_method_uri : option string)
  : option SecurityMethod :=
  match security_method_uri with
  | Some u => if PyStr.nonempty u then Some (mkSecurityMethod u) else None
  | None => None
  end.

(** X23. [Protocol.create_protocol] accepts every URI that validates, one
    of the four HTTP protocols or not, and returns a protocol that carries
    that URI, no endpoint, and the security method when a non-empty one is
    given. *)
Theorem create_protocol_keeps_uri (uri : string)
    (security_method_uri : option string) :
  valid_uri uri = true ->
  exists p,
    create_protocol uri security_method_uri = Ok p
    /\ protocol_uri p = uri
    /\ endpoint p = None
    /\ security_method p = security_of security_method_uri.
Proof.
  intros Hv. apply set_uri_valid in Hv.
  unfold create_protocol, security_of.
  assert (Hsec :
    match security_method_uri with
    | Some u =>
        if PyStr.nonempty u
        then m ← SecurityMethod_new (Some u); Ok (ASecurityMethod m)
        else Ok ANone
    | None => Ok ANone
    end
    = Ok (match security_of security_method_uri with
          | Some m => ASecurityMethod m
          | None => ANone
          end)).
  { unfold security_of. destruct security_method_uri as [u|]; [|done].
    by destruct (PyStr.nonempty u). }
  rewrite Hsec. cbn [mbind result_bind].
  assert (Hset : forall c,
    Protocol_init c (AStr uri) ANone
      (match security_of security_method_uri with
       | Some m => ASecurityMethod m
       | None => ANone
       end)
    = Ok (mkProtocol c uri None (security_of security_method_uri))).
  { intros c. unfold Protocol_init. cbn [arg_val]. rewrite Hv.
    cbn [mbind result_bind]. by destruct (security_of security_method_uri). }
  unfold HTTPPut, HTTPGet, HTTPSPut, HTTPSGet, Protocol_new.
  repeat match goal with
         | |- context [String.eqb uri ?s] =>
             destruct (String.eqb_spec uri s) as [E|_];
             [rewrite <- E, Hset; eexists; split; [reflexivity|done]|]
         end.
  rewrite Hset. eexists. split; [reflexivity|done].
Qed.

Lemma create_protocol_keeps_uri_witness :
  exists p,
    create_protocol "ivo://ivoa.net/vospace/core#ftp" (Some "ivo://x/vospace#s")
    = Ok p
    /\ protocol_uri p = "ivo://ivoa.net/vospace/core#ftp"
    /\ endpoint p = None
    /\ security_method p = security_of (Some "ivo://x/vospace#s").
Proof.
  apply (create_protocol_keeps_uri "ivo://ivoa.net/vospace/core#ftp"
           (Some "ivo://x/vospace#s")).
  reflexivity.
Defined.

End UriFacts.

(** ** What a parsed node looks like *)

Module ParsedNodeFacts.
Import ET Model RoundTripFacts PropertyListFacts ContainerFacts.

(** A node as the constructors leave it: no properties, no owner, no
    groups, no views and no children. *)
Definition blank (n : Node) : Prop :=
  properties (base n) = [] /\ owner (base n) = None
  /\ group_read (base n) = [] /\ group_write (base n) = []
  /\ TreeFacts.children_of n = [].

Lemma create_node_blank (node_uri node_type : option string) (busy : bool)
    (n : Node) :
  create_node node_uri node_type busy = Ok n -> blank n.
Proof.
  unfold create_node, Node_new, DataNode_new, ContainerNode_new, LinkNode_new,
    new_base.
  destruct (uri_to_path node_uri) as [p|]; cbn [mbind result_bind];
    repeat match goal with
           | |- context [if ?b then _ else _] => destruct b
           end;
    intros [= <-] || discriminate; by repeat split.
Qed.

Lemma set_uri_inv (u s : string) :
  set_uri (PyStr u) = Ok s -> s = u /\ valid_uri u = true.
Proof.
  unfold set_uri, valid_uri.
  destruct (validate_property_uri (PyStr u)); [|discriminate].
  cbn. by intros [= <-].
Qed.

Lemma parse_property_valid (e : Element) (q : NodeProperty) :
  parse_property e = Ok q -> valid_uri (prop_uri q) = true.
Proof.
  unfold parse_property, Property_new, DeleteProperty_new.
  destruct (get "uri" (attrib e)) as [u|]; [|discriminate].
  destruct (get (xsi "nil") (attrib e));
    destruct (set_uri (PyStr u)) as [stored|] eqn:E; try discriminate;
    apply set_uri_inv in E as [-> Hv]; by intros [= <-].
Qed.

Lemma foldM_append_parsed_Forall {A : Type} (parse : Element -> result A)
    (P : A -> Prop) (es : list Element) :
  (forall e x, parse e = Ok x -> P x) ->
  forall acc l,
    Forall P acc -> foldM (append_parsed parse) acc es = Ok l -> Forall P l.
Proof.
  intros Hparse. induction es as [|e es IH]; intros acc l Hacc H.
  - cbn in H. by injection H as <-.
  - cbn [foldM] in H. unfold append_parsed at 2 in H.
    destruct (parse e) as [x|] eqn:E; [|discriminate].
    cbn [mbind result_bind] in H. apply (IH (acc ++ [x])); [|done].
    apply Forall_app. split; [done|]. constructor; [by eapply Hparse|done].
Qed.

Lemma Node_build_node_blank (b b' : NodeBase) (root : Element) :
  properties b = [] -> owner b = None ->
  group_read b = [] -> group_write b = [] ->
  Node_build_node b root = Ok b' ->
  Sorted uri_le (properties b')
  /\ Forall (fun p => valid_uri (prop_uri p) = true) (properties b')
  /\ owner b' = None /\ group_read b' = [] /\ group_write b' = [].
Proof.
  intros Hp Ho Hr Hw. unfold Node_build_node. rewrite Hp, Ho, Hr, Hw.
  destruct (foldM _ _ _) as [props|] eqn:E; [|discriminate].
  cbn [mbind result_bind]. intros [= <-]. cbn [properties owner group_read
                                               group_write].
  destruct (sort_properties_spec props) as (Hperm & Hsorted & _).
  repeat split; try done.
  eapply Permutation_Forall; [symmetry; exact Hperm|].
  eapply foldM_append_parsed_Forall; [exact parse_property_valid| |exact E].
  constructor.
Qed.

Lemma DataNode_build_node_base (b : NodeBase) (d : DataFields)
    (root : Element) (bd : NodeBase * DataFields) :
  DataNode_build_node b d root = Ok bd ->
  Node_build_node b root = Ok (fst bd).
Proof.
  unfold DataNode_build_node.
  destruct (Node_build_node b root) as [b'|]; [|discriminate].
  cbn [mbind result_bind].
  do 2 (match goal with
        | |- (?m ≫= _) = _ -> _ => destruct m; [|discriminate]
        end; cbn [mbind result_bind]).
  by intros [= <-].
Qed.

Lemma parse_children_well_formed (root : Element) (es : list Element) :
  forall self n,
    well_formed self = true ->
    foldM (parse_child root) self es = Ok n ->
    well_formed n = true /\ base n = base self.
Proof.
  induction es as [|e es IH]; intros self n Hwf H.
  - cbn in H. by injection H as <-.
  - cbn [foldM] in H. unfold parse_child at 2 in H.
    destruct (create_node _ _ _) as [c|] eqn:Ec; [|discriminate].
    cbn [mbind result_bind] in H.
    destruct (add_node self c true) as [self'|] eqn:Ea; [|discriminate].
    cbn [mbind result_bind] in H.
    assert (Hc : well_formed c = true).
    { apply create_node_blank in Ec as (_ & _ & _ & _ & Hkids).
      destruct c as [| | |bc dc nodes]; try done.
      cbn in Hkids. by subst. }
    pose proof (add_node_well_formed _ _ _ _ Hwf Hc Ea) as Hwf'.
    apply add_node_inv in Ea as (b0 & d0 & nodes0 & -> & _ & _ & ->).
    destruct (IH _ _ Hwf' H) as [H1 H2]. by split.
Qed.

(** X24. Whatever document [Node.fromstring] accepts, the node it returns
    has its properties sorted by URI, each with a URI that validates; it
    has no owner and no groups; and, for a container, every child sits
    under its own name directly below the container. *)
Theorem parsed_node_invariants (xml : xmlstr) (n : Node) :
  fromstring xml = Ok n ->
  Sorted uri_le (node_properties n)
  /\ Forall (fun p => valid_uri (prop_uri p) = true) (node_properties n)
  /\ owner (base n) = None
  /\ group_read (base n) = [] /\ group_write (base n) = []
  /\ well_formed n = true.
Proof.
  unfold fromstring, node_properties.
  destruct (create_node _ _ _) as [n0|] eqn:Ec; [|discriminate].
  cbn [mbind result_bind].
  apply create_node_blank in Ec as (Hp & Ho & Hr & Hw & Hkids).
  set (root := ET.fromstring xml).
  destruct n0 as [b|b t|k b d|b d nodes]; cbn [build_node base] in *.
  - destruct (Node_build_node b root) as [b'|] eqn:E; [|discriminate].
    cbn [mbind result_bind]. intros [= <-]. cbn [base].
    destruct (Node_build_node_blank _ _ _ Hp Ho Hr Hw E) as (?&?&?&?&?).
    done.
  - destruct (Node_build_node b root) as [b'|] eqn:E; [|discriminate].
    cbn [mbind result_bind]. destruct (find _ root); [|discriminate].
    intros [= <-]. cbn [base].
    destruct (Node_build_node_blank _ _ _ Hp Ho Hr Hw E) as (?&?&?&?&?).
    done.
  - destruct (DataNode_build_node b d root) as [bd|] eqn:E; [|discriminate].
    cbn [mbind result_bind]. intros [= <-]. cbn [base].
    apply DataNode_build_node_base in E.
    destruct (Node_build_node_blank _ _ _ Hp Ho Hr Hw E) as (?&?&?&?&?).
    done.
  - destruct (DataNode_build_node b d root) as [bd|] eqn:E; [|discriminate].
    cbn [mbind result_bind]. intros H.
    apply DataNode_build_node_base in E.
    destruct (Node_build_node_blank _ _ _ Hp Ho Hr Hw E) as (?&?&?&?&?).
    cbn [TreeFacts.children_of] in Hkids. subst nodes.
    destruct (parse_children_well_formed root _ (ContainerNode (fst bd) (snd bd) []) n
                eq_refl H) as [Hwf Hb].
    rewrite Hb. cbn [base]. done.
Qed.

Lemma parsed_node_invariants_witness :
  Sorted uri_le
    [DeleteProp "ivo://ivoa.net/vospace/core#description";
     Prop_ "ivo://ivoa.net/vospace/core#title" (Some "Title") (PyBool true)
       true]
  /\ Forall (fun p => valid_uri (prop_uri p) = true)
       [DeleteProp "ivo://ivoa.net/vospace/core#description";
        Prop_ "ivo://ivoa.net/vospace/core#title" (Some "Title") (PyBool true)
          true]
  /\ @None string = None
  /\ @nil string = [] /\ @nil string = []
  /\ well_formed
       (DataNode KUnstructuredDataNode
          (mkBase "a/b"
             [DeleteProp "ivo://ivoa.net/vospace/core#description";
              Prop_ "ivo://ivoa.net/vospace/core#title" (Some "Title")
                (PyBool true) true]
             None [] [])
          (mkData [mkView "ivo://ivoa.net/vospace/core#anyview"] [] true))
     = true.
Proof.
  apply (parsed_node_invariants (tostring sample_node)
           (DataNode KUnstructuredDataNode
              (mkBase "a/b"
                 [DeleteProp "ivo://ivoa.net/vospace/core#description";
                  Prop_ "ivo://ivoa.net/vospace/core#title" (Some "Title")
                    (PyBool true) true]
                 None [] [])
              (mkData [mkView "ivo://ivoa.net/vospace/core#anyview"] [] true))).
  vm_compute. reflexivity.
Defined.

End ParsedNodeFacts.
